(** * AwsCompileFunctions: a shallow embedding of
      [lib/plugins/aws/package/compile/functions.js]

    The plugin compiles every declared function of a service into
    CloudFormation resources.  JavaScript values are embedded as a small
    tree type, objects as association lists in insertion order, and the
    mutable service / template as a record that every operation threads. *)

From Stdlib Require Import String Ascii List ZArith Bool Lia.
From Stdlib Require Import DecimalString DecimalZ.
Import ListNotations.

Local Open Scope string_scope.
Local Open Scope Z_scope.

Set Warnings "-register-all".

(** ** JavaScript values *)

Module JS.

(** Plain data as the configuration and the template hold it.  An object is
    its list of own properties in insertion order (no index-like keys occur
    among the property names the compiler writes). *)
Inductive value : Type :=
| VUndef
| VNull
| VBool (b : bool)
| VNum (n : Z)
| VStr (s : string)
| VArr (l : list value)
| VObj (l : list (string * value)).

Definition obj := list (string * value).

(** Induction principle that reaches inside arrays and objects. *)
Section ValueInd.
Variable P : value -> Prop.
Hypothesis HUndef : P VUndef.
Hypothesis HNull : P VNull.
Hypothesis HBool : forall b, P (VBool b).
Hypothesis HNum : forall n, P (VNum n).
Hypothesis HStr : forall s, P (VStr s).
Hypothesis HArr : forall l, Forall P l -> P (VArr l).
Hypothesis HObj : forall l, Forall (fun kv => P (snd kv)) l -> P (VObj l).

Fixpoint value_ind' (v : value) : P v :=
  match v with
  | VUndef => HUndef
  | VNull => HNull
  | VBool b => HBool b
  | VNum n => HNum n
  | VStr s => HStr s
  | VArr l =>
      HArr l ((fix go (l : list value) : Forall P l :=
                 match l with
                 | [] => Forall_nil _
                 | x :: r => Forall_cons _ (value_ind' x) (go r)
                 end) l)
  | VObj l =>
      HObj l ((fix go (l : obj) : Forall (fun kv => P (snd kv)) l :=
                 match l with
                 | [] => Forall_nil _
                 | kv :: r => Forall_cons _ (value_ind' (snd kv)) (go r)
                 end) l)
  end.
End ValueInd.

(** ToBoolean. *)
Definition truthy (v : value) : bool :=
  match v with
  | VUndef | VNull => false
  | VBool b => b
  | VNum n => negb (n =? 0)
  | VStr s => negb (String.eqb s "")
  | VArr _ | VObj _ => true
  end.

(** [v == null] *)
Definition isNullish (v : value) : bool :=
  match v with VUndef | VNull => true | _ => false end.

(** [a || b] and [a && b] on values. *)
Definition or_ (a b : value) : value := if truthy a then a else b.
Definition and_ (a b : value) : value := if truthy a then b else a.

(** *** Property access *)

Fixpoint lookup (k : string) (o : obj) : option value :=
  match o with
  | [] => None
  | (j, v) :: r => if String.eqb j k then Some v else lookup k r
  end.

(** [o.k]: a missing property reads as [undefined]. *)
Definition getP (k : string) (o : obj) : value :=
  match lookup k o with Some v => v | None => VUndef end.

(** [v.k] on an arbitrary non-nullish value; primitives have no own data
    properties of the names the compiler reads. *)
Definition get (k : string) (v : value) : value :=
  match v with VObj o => getP k o | _ => VUndef end.

(** [o.k = v]: overwrite in place, or append as the newest property. *)
Fixpoint setP (k : string) (v : value) (o : obj) : obj :=
  match o with
  | [] => [(k, v)]
  | (j, w) :: r => if String.eqb j k then (j, v) :: r else (j, w) :: setP k v r
  end.

(** [delete o.k] *)
Fixpoint deleteP (k : string) (o : obj) : obj :=
  match o with
  | [] => []
  | (j, w) :: r => if String.eqb j k then r else (j, w) :: deleteP k r
  end.

(** [Object.assign(target, source)] *)
Definition assign (target source : obj) : obj :=
  fold_left (fun t kv => setP (fst kv) (snd kv) t) source target.

(** Own properties of a value used as an [Object.assign] source or by
    [Object.entries]: only objects contribute. *)
Definition entries (v : value) : obj :=
  match v with VObj o => o | _ => [] end.

Definition hasP (k : string) (o : obj) : bool :=
  match lookup k o with Some _ => true | None => false end.

(** *** Equality

    SameValueZero, the equality of [_.uniq]: primitives are compared by
    value; an object or an array is equal to itself only, and the elements
    of a list written in the configuration are objects of their own. *)
Definition sameValueZero (a b : value) : bool :=
  match a, b with
  | VUndef, VUndef => true
  | VNull, VNull => true
  | VBool x, VBool y => Bool.eqb x y
  | VNum x, VNum y => Z.eqb x y
  | VStr x, VStr y => String.eqb x y
  | _, _ => false
  end.

Definition isPrimitive (v : value) : bool :=
  match v with VArr _ | VObj _ => false | _ => true end.

(** [_.isEqual] on plain data: arrays are compared element by element; two
    objects are equal when they have as many own properties and every
    property of the first is a property of the second with an equal value,
    whatever the order in which the properties were written. *)
Fixpoint isEqual (a b : value) {struct a} : bool :=
  match a, b with
  | VUndef, VUndef => true
  | VNull, VNull => true
  | VBool x, VBool y => Bool.eqb x y
  | VNum x, VNum y => Z.eqb x y
  | VStr x, VStr y => String.eqb x y
  | VArr x, VArr y =>
      (fix go (x y : list value) {struct x} : bool :=
         match x, y with
         | [], [] => true
         | u :: x', w :: y' => isEqual u w && go x' y'
         | _, _ => false
         end) x y
  | VObj x, VObj y =>
      Nat.eqb (length x) (length y)
      && (fix each (x : obj) {struct x} : bool :=
            match x with
            | [] => true
            | (k, u) :: x' =>
                match lookup k y with
                | Some w => isEqual u w
                | None => false
                end && each x'
            end) x
  | _, _ => false
  end.

(** *** Numbers and strings *)

(** Decimal rendering of an integral number. *)
Definition numToString (n : Z) : string :=
  NilZero.string_of_int (Z.to_int n).

(** ToNumber on the values a hashing-version setting can take
    ([None] stands for NaN). *)
Definition toNumber (v : value) : option Z :=
  match v with
  | VNum n => Some n
  | VStr s => match NilZero.int_of_string s with
              | Some d => Some (Z.of_int d)
              | None => None
              end
  | VBool b => Some (if b then 1 else 0)
  | VNull => Some 0
  | _ => None
  end.

(** [v < n] for a number literal [n]; comparisons with NaN are false. *)
Definition ltNum (v : value) (n : Z) : bool :=
  match toNumber v with Some m => m <? n | None => false end.

(** [s.startsWith(p)] and [s.includes(p)] *)
Definition startsWith (p s : string) : bool := String.prefix p s.

Fixpoint includes (p s : string) : bool :=
  String.prefix p s ||
  match s with
  | EmptyString => false
  | String _ r => includes p r
  end.

(** ToString of a value interpolated into a template literal or used as a
    computed member name. *)
Definition toStr (v : value) : string :=
  match v with
  | VStr s => s
  | VNum n => numToString n
  | VBool true => "true"
  | VBool false => "false"
  | VNull => "null"
  | VUndef => "undefined"
  | VArr _ => ""
  | VObj _ => "[object Object]"
  end.

(** *** Sorting *)

(** Insertion into a sorted list, after every element that does not
    compare greater: [Array.prototype.sort] is stable. *)
Fixpoint insertBy {A} (gt : A -> A -> bool) (x : A) (l : list A) : list A :=
  match l with
  | [] => [x]
  | y :: r => if gt y x then x :: y :: r else y :: insertBy gt x r
  end.

Definition sortBy {A} (gt : A -> A -> bool) (l : list A) : list A :=
  fold_left (fun acc x => insertBy gt x acc) l [].

(** [arr.sort()] on strings: code-unit order. *)
Definition sortStrings (l : list string) : list string :=
  sortBy (fun a b => String.ltb b a) l.

(** First occurrences, in order: an element is dropped when it equals one
    already kept ([eqb] applied to the element and to the one kept). *)
Fixpoint uniqBy {A} (eqb : A -> A -> bool) (seen l : list A) : list A :=
  match l with
  | [] => []
  | x :: r =>
      if existsb (eqb x) seen then uniqBy eqb seen r
      else x :: uniqBy eqb (x :: seen) r
  end.

(** [_.uniq] on the elements of an array. *)
Definition uniqList (l : list value) : list value := uniqBy sameValueZero [] l.

Fixpoint chars (s : string) : list value :=
  match s with
  | EmptyString => []
  | String c r => VStr (String c EmptyString) :: chars r
  end.

(** [_.uniq(v)]: array-likes are de-duplicated, anything else gives []. *)
Definition uniq (v : value) : value :=
  match v with
  | VArr l => VArr (uniqList l)
  | VStr s => VArr (uniqList (chars s))
  | _ => VArr []
  end.

(** [Array.from(v)] on the array-likes the compiler passes. *)
Definition arrayFrom (v : value) : value :=
  match v with
  | VArr l => VArr l
  | VStr s => VArr (chars s)
  | _ => VArr []
  end.

(** [_.uniqWith(l, _.isEqual)] *)
Definition uniqWith (l : list value) : list value := uniqBy isEqual [] l.

(** [_.unionWith(stmts, [s], _.isEqual)]: the statements and [s] in one
    list, without what deep-equals an earlier element. *)
Definition unionWith1 (stmts : list value) (s : value) : list value :=
  uniqWith (stmts ++ [s]).

End JS.

Import JS.

(** ** Serialisation *)

Module Json.
Section Stringify.
(** [QuoteJSONString] of the host's [JSON.stringify]. *)
Variable quote : string -> string.

(** [JSON.stringify]: [None] is the [undefined] result.  Inside an array
    an unserialisable element prints as [null]; inside an object the
    property is dropped. *)
Fixpoint stringify (v : value) : option string :=
  match v with
  | VUndef => None
  | VNull => Some "null"
  | VBool true => Some "true"
  | VBool false => Some "false"
  | VNum n => Some (numToString n)
  | VStr s => Some (quote s)
  | VArr l =>
      Some ("[" ++ String.concat ","
              (map (fun x => match stringify x with
                             | Some s => s
                             | None => "null"
                             end) l) ++ "]")
  | VObj l =>
      Some ("{" ++ String.concat ","
              (flat_map (fun kv => match stringify (snd kv) with
                                   | Some s => [quote (fst kv) ++ ":" ++ s]
                                   | None => []
                                   end) l) ++ "}")
  end.

(** Serialisation of an object, which is never [undefined]. *)
Definition stringifyObj (o : obj) : string :=
  match stringify (VObj o) with Some s => s | None => "" end.
End Stringify.

Section Sorting.
(** [String.prototype.localeCompare] of the host. *)
Variable localeCompare : string -> string -> comparison.

Definition keyGt (a b : string * value) : bool :=
  match localeCompare (fst a) (fst b) with Gt => true | _ => false end.

(** [_.fromPairs(Object.entries(o).sort(byKey))] *)
Definition sortEntries (o : obj) : obj := sortBy keyGt o.

(** Modelled from the spec: [utils/deep-sort-object-by-key] is not part of
    the sources at hand.  Section 4.2: current mode "recursively
    deep-sorts every mapping by key at every nesting level"; arrays keep
    their order and have their elements sorted in turn. *)
Fixpoint deepSortObjectByKey (v : value) : value :=
  match v with
  | VArr l => VArr (map deepSortObjectByKey l)
  | VObj l =>
      VObj (sortEntries (map (fun kv => (fst kv, deepSortObjectByKey (snd kv))) l))
  | _ => v
  end.
End Sorting.
End Json.

(** ** Collaborators and the mutable service *)

(** Thrown values.  [ServerlessError message code]; a [TypeError] is what
    the host raises on a property read from [undefined]. *)
Inductive error : Type :=
| ServerlessError (message code : string)
| TypeError (what : string).

Inductive result (A : Type) : Type :=
| Ok (a : A)
| Err (e : error).
Arguments Ok {A} a.
Arguments Err {A} e.

(** Key of the [_.memoize] cache: strings are compared by value, objects by
    identity. *)
Inductive memoKey : Type :=
| KStr (s : string)
| KObj (ref : nat).

Definition memoKey_eqb (a b : memoKey) : bool :=
  match a, b with
  | KStr x, KStr y => String.eqb x y
  | KObj x, KObj y => Nat.eqb x y
  | _, _ => false
  end.

(** Everything the compiler calls but does not define: the provider and its
    naming scheme, the file hashing helpers, the host's hash, serialiser and
    collation, and [utils/resolve-lambda-target].  [getCustomExecutionRole]
    is given the provider settings and the function's [role],
    [resolveLambdaTarget] the function's [targetAlias]: what they read of the
    function object.  [objectRef f slot] is the identity of the object held
    by [destinations[slot]] of function [f].

    The collaborators are taken to return.  Where one of them throws --
    [resolveLayerArtifactName] does for a name that is no layer of the
    service, the hashing helpers do for a file that cannot be read --
    [compileFunction] ends there with that error, a run the model does
    not describe. *)
Record Env : Type := {
  (* host *)
  quoteJSON : string -> string;
  localeCompare : string -> string -> comparison;
  sha256_base64 : string -> string;
  pathJoin : list string -> string;
  pathLast : value -> string;
  objectRef : string -> string -> nat;
  (* ../lib/get-hash-for-file-path and the file system *)
  getHashForFilePath : value -> string;
  readFileChunks : value -> list string;
  (* provider *)
  resolveImageUriAndSha : string -> value * value;
  resolveFunctionRuntimeManagement : value -> value;
  getRuntime : value -> value;
  getCustomExecutionRole : obj -> value -> value;
  resolveLayerArtifactName : value -> value;
  resolveFunctionArn : string -> value;
  resolveLambdaTarget : string -> value -> value;
  (* provider.naming *)
  getServiceArtifactName : string;
  getFunctionArtifactName : string -> string;
  getLogGroupLogicalId : string -> string;
  getLambdaLogicalId : string -> string;
  getLambdaVersionLogicalId : string -> string -> string;
  getLambdaVersionOutputLogicalId : string -> string;
  getLambdaProvisionedConcurrencyAliasLogicalId : string -> string;
  getLambdaProvisionedConcurrencyAliasName : string;
  getLambdaSnapStartAliasLogicalId : string -> string;
  getLambdaSnapStartEnabledAliasName : string;
  getLambdaFunctionUrlLogicalId : string -> string;
  getLambdaFunctionUrlOutputLogicalId : string -> string;
  getLambdaFnUrlPermissionLogicalId : string -> string;
  getLambdaEventConfigLogicalId : string -> string
}.

(** The service and the template under construction.  The statements of
    [Resources.IamRoleLambdaExecution.Properties.Policies[0].PolicyDocument]
    are kept in a field of their own, [None] when the service has no default
    role; [Resources] holds every other resource.  [journal] is a history
    variable the code does not have: every assignment [Resources[id] = r],
    newest first. *)
Record State : Type := {
  functions : obj;
  provider : obj;
  package : obj;
  serviceArtifact : value;
  serviceDir : string;
  options : obj;
  Resources : obj;
  Outputs : obj;
  iamStatements : option (list value);
  memoized : list memoKey;
  journal : list (string * value)
}.

Definition setFunctions f (st : State) : State :=
  {| functions := f; provider := provider st; package := package st;
     serviceArtifact := serviceArtifact st; serviceDir := serviceDir st;
     options := options st; Resources := Resources st; Outputs := Outputs st;
     iamStatements := iamStatements st; memoized := memoized st;
     journal := journal st |}.

Definition setProvider p (st : State) : State :=
  {| functions := functions st; provider := p; package := package st;
     serviceArtifact := serviceArtifact st; serviceDir := serviceDir st;
     options := options st; Resources := Resources st; Outputs := Outputs st;
     iamStatements := iamStatements st; memoized := memoized st;
     journal := journal st |}.

Definition setResources r (st : State) : State :=
  {| functions := functions st; provider := provider st; package := package st;
     serviceArtifact := serviceArtifact st; serviceDir := serviceDir st;
     options := options st; Resources := r; Outputs := Outputs st;
     iamStatements := iamStatements st; memoized := memoized st;
     journal := journal st |}.

Definition setOutputs o (st : State) : State :=
  {| functions := functions st; provider := provider st; package := package st;
     serviceArtifact := serviceArtifact st; serviceDir := serviceDir st;
     options := options st; Resources := Resources st; Outputs := o;
     iamStatements := iamStatements st; memoized := memoized st;
     journal := journal st |}.

Definition setIamStatements s (st : State) : State :=
  {| functions := functions st; provider := provider st; package := package st;
     serviceArtifact := serviceArtifact st; serviceDir := serviceDir st;
     options := options st; Resources := Resources st; Outputs := Outputs st;
     iamStatements := s; memoized := memoized st; journal := journal st |}.

Definition setMemoized m (st : State) : State :=
  {| functions := functions st; provider := provider st; package := package st;
     serviceArtifact := serviceArtifact st; serviceDir := serviceDir st;
     options := options st; Resources := Resources st; Outputs := Outputs st;
     iamStatements := iamStatements st; memoized := m; journal := journal st |}.

(** [serverless.service.getFunction(name)]; the service throws on an unknown
    name. *)
Definition getFunction (name : string) (st : State) : option obj :=
  match lookup name (functions st) with
  | Some (VObj fo) => Some fo
  | _ => None
  end.

(** The function object is shared with the service: every write to it is a
    write to [service.functions[name]]. *)
Definition putFunction (name : string) (fo : obj) (st : State) : State :=
  setFunctions (setP name (VObj fo) (functions st)) st.

Definition getAllFunctions (st : State) : list string :=
  map fst (functions st).

Definition setJournal j (st : State) : State :=
  {| functions := functions st; provider := provider st; package := package st;
     serviceArtifact := serviceArtifact st; serviceDir := serviceDir st;
     options := options st; Resources := Resources st; Outputs := Outputs st;
     iamStatements := iamStatements st; memoized := memoized st; journal := j |}.

(** A write to a property of a resource object that the template already
    holds under [id]: the template sees it, no assignment takes place. *)
Definition touchResource (id : string) (r : obj) (st : State) : State :=
  setResources (setP id (VObj r) (Resources st)) st.

(** [Resources[id] = r] *)
Definition putResource (id : string) (r : obj) (st : State) : State :=
  setJournal ((id, VObj r) :: journal st) (touchResource id r st).

(** [....Statement.push(stmt)], guarded by the presence of the role. *)
Definition pushStatement (stmt : value) (st : State) : State :=
  match iamStatements st with
  | Some l => setIamStatements (Some (l ++ [stmt])%list) st
  | None => st
  end.

(** [....Statement = _.unionWith(....Statement, [stmt], _.isEqual)] *)
Definition unionStatement (stmt : value) (st : State) : State :=
  match iamStatements st with
  | Some l => setIamStatements (Some (unionWith1 l stmt)) st
  | None => st
  end.

(** ** The compiler *)

Module AwsCompileFunctions.

Definition dq : string := String (Ascii.ascii_of_nat 34) "".

Definition isStr (v : value) (s : string) : bool :=
  match v with VStr x => String.eqb x s | _ => false end.

Definition isObject (v : value) : bool :=
  match v with VObj _ | VArr _ => true | _ => false end.

Definition elems (v : value) : list value :=
  match v with VArr l => l | _ => [] end.

(** [a.concat(v)]: an array argument is spread, anything else appended. *)
Definition concatV (a v : value) : value :=
  VArr (elems a ++ match v with VArr l => l | _ => [v] end).

Definition ref (id : string) : value := VObj [("Ref", VStr id)].
Definition getAtt (id : value) (att : string) : value :=
  VObj [("Fn::GetAtt", VArr [id; VStr att])].

(** Resources are objects with [Type], [Properties] and optional
    [DependsOn], [Condition], [DeletionPolicy]. *)
Definition props (r : obj) : obj := entries (getP "Properties" r).
Definition setProp (k : string) (v : value) (r : obj) : obj :=
  setP "Properties" (VObj (setP k v (props r))) r.
Definition setCode (k : string) (v : value) (r : obj) : obj :=
  setProp "Code" (VObj (setP k v (entries (getP "Code" (props r))))) r.

Definition defaultCors : obj :=
  [("allowedOrigins", VArr [VStr "*"]);
   ("allowedHeaders",
     VArr [VStr "Content-Type"; VStr "X-Amz-Date"; VStr "Authorization";
           VStr "X-Api-Key"; VStr "X-Amz-Security-Token"; VStr "X-Amzn-Trace-Id"]);
   ("allowedMethods", VArr [VStr "*"])].

Definition runtimeManagementMap (mode : value) : value :=
  if isStr mode "auto" then VStr "Auto"
  else if isStr mode "onFunctionUpdate" then VStr "FunctionUpdate"
  else if isStr mode "manual" then VStr "Manual"
  else VUndef.

Definition cfLambdaFunctionTemplate : obj :=
  [("Type", VStr "AWS::Lambda::Function");
   ("Properties", VObj [("Code", VObj [])])].

Definition cfLambdaVersionTemplate : obj :=
  [("Type", VStr "AWS::Lambda::Version");
   ("DeletionPolicy", VStr "Retain");
   ("Properties", VObj [("FunctionName", VStr "FunctionName");
                        ("CodeSha256", VStr "CodeSha256")])].

Definition cfOutputLatestVersionTemplate : obj :=
  [("Description", VStr "Current Lambda function version");
   ("Value", VStr "Value")].

(** The part of the constructor that touches the service: an empty memoize
    cache, and [provider.versionFunctions] switched on when left unset. *)
Definition constructor (st : State) : State :=
  let st := setMemoized [] st in
  if isStr (getP "name" (provider st)) "aws"
     && isNullish (getP "versionFunctions" (provider st))
  then setProvider (setP "versionFunctions" (VBool true) (provider st)) st
  else st.

(** [v[0]]: a [TypeError] on [null] and [undefined], the first element of
    an array, the first character of a string. *)
Definition first (v : value) : result value :=
  match v with
  | VUndef =>
      Err (TypeError "Cannot read properties of undefined (reading '0')")
  | VNull => Err (TypeError "Cannot read properties of null (reading '0')")
  | VArr l => Ok (nth 0 l VUndef)
  | VStr (String c _) => Ok (VStr (String c EmptyString))
  | VObj o => Ok (getP "0" o)
  | _ => Ok VUndef
  end.

(** Lines 79-101.  ['Fn::GetAtt' in role] is a [TypeError] on anything but
    an object; the resource is still a local of [compileFunction] then. *)
Definition compileRole (newFunction : obj) (role : value) : result obj :=
  match role with
  | VStr s =>
      if startsWith "arn:" s then Ok (setProp "Role" role newFunction)
      else if String.eqb s "IamRoleLambdaExecution"
      then Ok (setProp "Role" (getAtt role "Arn") newFunction)
      else
        let f := setProp "Role" (getAtt role "Arn") newFunction in
        Ok (setP "DependsOn" (concatV (or_ (getP "DependsOn" f) (VArr [])) role) f)
  | VObj o =>
      if hasP "Fn::GetAtt" o then
        let f := setProp "Role" role newFunction in
        match first (getP "Fn::GetAtt" o) with
        | Err e => Err e
        | Ok dependency =>
            Ok (setP "DependsOn"
                  (concatV (or_ (getP "DependsOn" f) (VArr [])) dependency) f)
        end
      else Ok (setProp "Role" role newFunction)
  | VArr _ => Ok (setProp "Role" role newFunction)
  | _ =>
      Err (TypeError
             ("Cannot use 'in' operator to search for 'Fn::GetAtt' in "
                ++ toStr role))
  end.

(** [lambdaHashingVersion < 20201221 && !options['enforce-hash-update']] *)
Definition legacyHashing (st : State) : bool :=
  ltNum (getP "lambdaHashingVersion" (provider st)) 20201221
  && negb (truthy (getP "enforce-hash-update" (options st))).

(** The errors of [compileFunction], each naming the function. *)
Definition missingFunctionError (functionName : string) : error :=
  ServerlessError
    ("Function " ++ dq ++ functionName ++ dq ++ " doesn't exist in this Service")
    "FUNCTION_MISSING_IN_SERVICE".

Definition neitherHandlerNorImageError (functionName : string) : error :=
  ServerlessError
    ("Either " ++ dq ++ "handler" ++ dq ++ " or " ++ dq ++ "image" ++ dq
       ++ " property needs to be set on function " ++ dq ++ functionName ++ dq)
    "FUNCTION_NEITHER_HANDLER_NOR_IMAGE_DEFINED_ERROR".

Definition bothHandlerAndImageError (functionName : string) : error :=
  ServerlessError
    ("Either " ++ dq ++ "handler" ++ dq ++ " or " ++ dq ++ "image" ++ dq
       ++ " property (not both) needs to be set on function " ++ dq
       ++ functionName ++ dq ++ ".")
    "FUNCTION_BOTH_HANDLER_AND_IMAGE_DEFINED_ERROR".

Definition missingVpcError (functionName : string) : error :=
  ServerlessError
    ("Function " ++ dq ++ functionName ++ dq ++ ": when using fileSystemConfig, "
       ++ "ensure that function has vpc configured "
       ++ "on function or provider level")
    "LAMBDA_FILE_SYSTEM_CONFIG_MISSING_VPC".

Definition provisionedConcurrencyAndSnapStartError (functionName : string)
  : error :=
  ServerlessError
    ("Functions with enabled SnapStart does not support "
       ++ "provisioned concurrency. Please remove at least "
       ++ "one of the settings on function " ++ dq ++ functionName ++ dq ++ ".")
    "FUNCTION_BOTH_PROVISIONED_CONCURRENCY_AND_SNAPSTART_ENABLED_ERROR".

Definition unsupportedDestinationError (destinationsProperty : value) : error :=
  ServerlessError
    ("Unsupported destination target " ++ toStr destinationsProperty)
    "UNSUPPORTED_DESTINATION_TARGET".

(** The two errors of the handler / image guard, by their codes. *)
Definition isHandlerImageError (e : error) : bool :=
  match e with
  | ServerlessError _ code =>
      String.eqb code "FUNCTION_NEITHER_HANDLER_NOR_IMAGE_DEFINED_ERROR"
      || String.eqb code "FUNCTION_BOTH_HANDLER_AND_IMAGE_DEFINED_ERROR"
  | TypeError _ => false
  end.

Definition isTypeError (e : error) : bool :=
  match e with TypeError _ => true | _ => false end.

Definition rce : string := "ReservedConcurrentExecutions".

Section Compile.
Variable E : Env.

(** What [addFileToHash] writes into the running hash: the file's chunks
    under the legacy algorithm, its pre-computed hash otherwise. *)
Definition addFileToHash (st : State) (filePath : value) : list string :=
  if legacyHashing st then readFileChunks E filePath
  else [getHashForFilePath E filePath].

(** Lines 149-166: default [package], then the handler / image guards. *)
Definition validate (functionName : string) (st : State)
  : State * result obj :=
  match getFunction functionName st with
  | None =>
      (st, Err (missingFunctionError functionName))
  | Some fo =>
      let fo := setP "package" (or_ (getP "package" fo) (VObj [])) fo in
      let st := putFunction functionName fo st in
      if negb (truthy (getP "handler" fo)) && negb (truthy (getP "image" fo))
      then (st, Err (neitherHandlerNorImageError functionName))
      else if truthy (getP "handler" fo) && truthy (getP "image" fo)
      then (st, Err (bothHandlerAndImageError functionName))
      else (st, Ok fo)
  end.

(** Locals of [compileFunction] that live across its phases. *)
Record FnCtx : Type := {
  functionObject : obj;
  functionResource : obj;
  artifactFilePath : value;
  functionImageSha : value;
  shouldVersionFunction : value
}.

(** Lines 171-193: the [ImageConfig] of an image given as an object. *)
Definition imageConfigOf (image : value) : obj :=
  let c := [] in
  let c := if truthy (get "command" image)
           then setP "Command" (get "command" image) c else c in
  let c := if truthy (get "entryPoint" image)
           then setP "EntryPoint" (get "entryPoint" image) c else c in
  if truthy (get "workingDirectory" image)
  then setP "WorkingDirectory" (get "workingDirectory" image) c else c.

(** Lines 208-221: where the deployment package lies. *)
Definition resolveArtifactFilePath (functionName : string) (fo : obj)
  (st : State) : value :=
  let pkg := getP "package" fo in
  let artifactFilePath :=
    or_ (get "artifact" pkg) (getP "artifact" (package st)) in
  if negb (truthy artifactFilePath)
     || (truthy (serviceArtifact st) && negb (truthy (get "artifact" pkg)))
  then
    let artifactFileName :=
      if truthy (getP "individually" (package st))
         || truthy (get "individually" pkg)
      then getFunctionArtifactName E functionName
      else getServiceArtifactName E in
    VStr (pathJoin E [serviceDir st; ".serverless"; artifactFileName])
  else artifactFilePath.

(** Lines 223-246, the handler case of the resource. *)
Definition handlerProperties (fo : obj) (artifactFilePath : value)
  (st : State) (r : obj) : obj :=
  let runtimeManagement :=
    resolveFunctionRuntimeManagement E (getP "runtimeManagement" fo) in
  let mode := get "mode" runtimeManagement in
  let r :=
    if negb (isStr mode "auto") then
      let c := [("UpdateRuntimeOn", runtimeManagementMap mode)] in
      let c := if isStr mode "manual"
               then setP "RuntimeVersionArn" (get "arn" runtimeManagement) c
               else c in
      setProp "RuntimeManagementConfig" (VObj c) r
    else r in
  let r := setProp "Handler" (getP "handler" fo) r in
  let r := setCode "S3Bucket"
             (if truthy (getP "deploymentBucket" (package st))
              then getP "deploymentBucket" (package st)
              else ref "ServerlessDeploymentBucket") r in
  let r := setCode "S3Key"
             (VStr (toStr (getP "artifactDirectoryName" (package st))
                      ++ "/" ++ pathLast E artifactFilePath)) r in
  setProp "Runtime" (getP "runtime" fo) r.

(** Lines 273-279: tags, function over provider. *)
Definition tagList (fo : obj) (st : State) : value :=
  let tags := assign (assign [] (entries (getP "tags" (provider st))))
                     (entries (getP "tags" fo)) in
  VArr (map (fun kv => VObj [("Key", VStr (fst kv)); ("Value", snd kv)]) tags).

(** Lines 251-285: properties common to both cases. *)
Definition commonProperties (fo : obj) (st : State) (r : obj) : obj :=
  let r := setProp "FunctionName" (getP "name" fo) r in
  let r := setProp "MemorySize" (getP "memory" fo) r in
  let r := setProp "Timeout" (getP "timeout" fo) r in
  let functionArchitecture :=
    or_ (getP "architecture" fo) (getP "architecture" (provider st)) in
  let r := if truthy functionArchitecture
           then setProp "Architectures" (VArr [functionArchitecture]) r
           else r in
  let r := if truthy (getP "description" fo)
           then setProp "Description" (getP "description" fo) r else r in
  let r := if truthy (getP "condition" fo)
           then setP "Condition" (getP "condition" fo) r else r in
  let r := if truthy (getP "dependsOn" fo)
           then setP "DependsOn"
                  (concatV (or_ (getP "DependsOn" r) (VArr []))
                           (getP "dependsOn" fo)) r
           else r in
  let r := if truthy (getP "tags" fo) || truthy (getP "tags" (provider st))
           then setProp "Tags" (tagList fo st) r else r in
  if truthy (getP "ephemeralStorageSize" fo)
  then setProp "EphemeralStorage"
         (VObj [("Size", getP "ephemeralStorageSize" fo)]) r
  else r.

Definition allow (action resource : value) : value :=
  VObj [("Effect", VStr "Allow"); ("Action", action); ("Resource", resource)].

(** Lines 287-309: dead-letter target. *)
Definition compileOnError (fo : obj) (st : State) (r : obj) : State * obj :=
  let arn := getP "onError" fo in
  if truthy arn then
    let r := setProp "DeadLetterConfig" (VObj [("TargetArn", arn)]) r in
    match arn with
    | VStr _ =>
        (pushStatement (allow (VArr [VStr "sns:Publish"]) (VArr [arn])) st, r)
    | _ => (st, r)
    end
  else (st, r).

(** Lines 311-339: KMS key, function over provider. *)
Definition compileKmsKey (fo : obj) (st : State) (r : obj) : State * obj :=
  let kmsKeyArn :=
    if truthy (getP "kmsKeyArn" (provider st))
    then getP "kmsKeyArn" (provider st) else VUndef in
  let kmsKeyArn :=
    if truthy (getP "kmsKeyArn" fo) then getP "kmsKeyArn" fo else kmsKeyArn in
  if truthy kmsKeyArn then
    let r := setProp "KmsKeyArn" kmsKeyArn r in
    match kmsKeyArn with
    | VStr _ =>
        (unionStatement (allow (VArr [VStr "kms:Decrypt"]) (VArr [kmsKeyArn])) st, r)
    | _ => (st, r)
    end
  else (st, r).

(** Lines 341-372: tracing. *)
Definition compileTracing (fo : obj) (st : State) (r : obj) : State * obj :=
  let tracing :=
    or_ (getP "tracing" fo)
        (and_ (getP "tracing" (provider st))
              (get "lambda" (getP "tracing" (provider st)))) in
  if truthy tracing then
    let mode := match tracing with VBool _ => VStr "Active" | _ => tracing end in
    let r := setProp "TracingConfig" (VObj [("Mode", mode)]) r in
    (unionStatement
       (allow (VArr [VStr "xray:PutTraceSegments"; VStr "xray:PutTelemetryRecords"])
              (VArr [VStr "*"])) st, r)
  else (st, r).

(** Lines 374-381: environment, function over provider. *)
Definition compileEnvironment (fo : obj) (st : State) (r : obj) : obj :=
  if truthy (getP "environment" fo) || truthy (getP "environment" (provider st))
  then setProp "Environment"
         (VObj [("Variables",
                 VObj (assign (assign [] (entries (getP "environment" (provider st))))
                              (entries (getP "environment" fo))))]) r
  else r.

(** Lines 386-407: VPC, function over provider.  Both the function object
    and the provider get an empty [vpc] when they have none. *)
Definition compileVpc (fo : obj) (st : State) (r : obj)
  : obj * State * obj :=
  match getP "vpc" fo with
  | VNull | VBool false => (fo, st, r)
  | _ =>
      let fo := if negb (truthy (getP "vpc" fo))
                then setP "vpc" (VObj []) fo else fo in
      let st := if negb (truthy (getP "vpc" (provider st)))
                then setProvider (setP "vpc" (VObj []) (provider st)) st
                else st in
      let fvpc := getP "vpc" fo in
      let pvpc := getP "vpc" (provider st) in
      let securityGroupIds :=
        or_ (get "securityGroupIds" fvpc) (get "securityGroupIds" pvpc) in
      let subnetIds := or_ (get "subnetIds" fvpc) (get "subnetIds" pvpc) in
      if negb (truthy securityGroupIds) || negb (truthy subnetIds)
      then (fo, st, r)
      else
        (fo, st,
         setProp "VpcConfig"
           (VObj [("Ipv6AllowedForDualStack",
                   or_ (get "ipv6AllowedForDualStack" fvpc)
                       (get "ipv6AllowedForDualStack" pvpc));
                  ("SecurityGroupIds", securityGroupIds);
                  ("SubnetIds", subnetIds)]) r)
  end.

(** Lines 409-440: file system mount, which needs the VPC. *)
Definition compileFileSystem (functionName : string) (fo : obj)
  (st : State) (r : obj) : State * result obj :=
  let fileSystemConfig := getP "fileSystemConfig" fo in
  if truthy fileSystemConfig then
    if negb (truthy (getP "VpcConfig" (props r))) then
      (st, Err (missingVpcError functionName))
    else
      let stmt :=
        allow (VArr [VStr "elasticfilesystem:ClientMount";
                     VStr "elasticfilesystem:ClientWrite"])
              (VArr [get "arn" fileSystemConfig]) in
      (pushStatement stmt st,
       Ok (setProp "FileSystemConfigs"
             (VArr [VObj [("Arn", get "arn" fileSystemConfig);
                          ("LocalMountPath", get "localMountPath" fileSystemConfig)]])
             r))
  else (st, Ok r).

(** Lines 442-457: reserved concurrency, log group dependency, layers. *)
Definition compileReservedConcurrency (fo : obj) (r : obj) : obj :=
  let rc := getP "reservedConcurrency" fo in
  if truthy rc || match rc with VNum 0 => true | _ => false end
  then setProp "ReservedConcurrentExecutions" rc r
  else r.

Definition compileLogsAndLayers (functionName : string) (fo : obj)
  (st : State) (r : obj) : obj :=
  let r := if negb (truthy (getP "disableLogs" fo))
           then setP "DependsOn"
                  (concatV (VArr [VStr (getLogGroupLogicalId E functionName)])
                           (or_ (getP "DependsOn" r) (VArr []))) r
           else r in
  if truthy (getP "layers" fo)
  then setProp "Layers" (getP "layers" fo) r
  else if truthy (getP "layers" (provider st))
  then setProp "Layers" (arrayFrom (getP "layers" (provider st))) r
  else r.

(** Lines 466-469. *)
Definition resolveShouldVersion (fo : obj) (st : State) : value :=
  if negb (isNullish (getP "versionFunction" fo))
  then getP "versionFunction" fo
  else getP "versionFunctions" (provider st).

(** Lines 471-475: the guard of the version block. *)
Definition mintsVersion (shouldVersionFunction : value) (fo : obj) : bool :=
  truthy shouldVersionFunction
  || truthy (getP "provisionedConcurrency" fo)
  || truthy (getP "snapStart" fo).

(** Lines 168-469: from the validated function object to the function
    resource in the template.  The image is resolved by the provider
    first. *)
Definition buildFunction (functionName : string) (fo : obj) (st : State)
  : State * result FnCtx :=
  let r := cfLambdaFunctionTemplate in
  let image := getP "image" fo in
  let '(functionImageUri, functionImageSha) :=
    if truthy image then resolveImageUriAndSha E functionName
    else (VUndef, VUndef) in
  let r :=
    if truthy image && isObject image then
      match imageConfigOf image with
      | [] => r
      | c => setProp "ImageConfig" (VObj c) r
      end
    else r in
  let fo := setP "memory"
              (or_ (getP "memorySize" fo)
                   (or_ (getP "memorySize" (provider st)) (VNum 1024))) fo in
  let fo := if negb (truthy (getP "timeout" fo))
            then setP "timeout" (or_ (getP "timeout" (provider st)) (VNum 6)) fo
            else fo in
  let '(fo, artifactFilePath, r) :=
    if truthy (getP "handler" fo) then
      let artifactFilePath := resolveArtifactFilePath functionName fo st in
      let fo := setP "runtime" (getRuntime E (getP "runtime" fo)) fo in
      (fo, artifactFilePath, handlerProperties fo artifactFilePath st r)
    else
      (fo, VUndef,
       setProp "PackageType" (VStr "Image")
         (setCode "ImageUri" functionImageUri r)) in
  let r := commonProperties fo st r in
  let '(st, r) := compileOnError fo st r in
  let '(st, r) := compileKmsKey fo st r in
  let '(st, r) := compileTracing fo st r in
  let r := compileEnvironment fo st r in
  let role := getCustomExecutionRole E (provider st) (getP "role" fo) in
  match compileRole r (or_ role (VStr "IamRoleLambdaExecution")) with
  | Err e => (putFunction functionName fo st, Err e)
  | Ok r =>
      let '(fo, st, r) := compileVpc fo st r in
      match compileFileSystem functionName fo st r with
      | (st, Err e) => (putFunction functionName fo st, Err e)
      | (st, Ok r) =>
          let r := compileReservedConcurrency fo r in
          let r := compileLogsAndLayers functionName fo st r in
          let st := putResource (getLambdaLogicalId E functionName) r st in
          (putFunction functionName fo st,
           Ok {| functionObject := fo;
                 functionResource := r;
                 artifactFilePath := artifactFilePath;
                 functionImageSha := functionImageSha;
                 shouldVersionFunction := resolveShouldVersion fo st |})
      end
  end.

(** Lines 909-929: the layers of the function that the template itself
    defines. *)
Definition extractLayerConfigurationsFromFunction
  (functionProperties : obj) (st : State) : list value :=
  if negb (truthy (getP "Layers" functionProperties)) then []
  else
    flat_map
      (fun potentialLocalLayerObject =>
         let r := get "Ref" potentialLocalLayerObject in
         if truthy r then
           let configuration := getP (toStr r) (Resources st) in
           if negb (truthy configuration) then []
           else [VObj [("name", get "_serverlessLayerName" configuration);
                       ("ref", r);
                       ("properties", get "Properties" configuration)]]
         else [])
      (elems (getP "Layers" functionProperties)).

(** Line 514: [delete layerConfig.properties.Content.S3Key], a [TypeError]
    when the referenced resource has no [Properties.Content]. *)
Definition stripS3Key (layerConfig : value) : result value :=
  let properties := get "properties" layerConfig in
  if isNullish properties
  then Err (TypeError "Cannot read properties of undefined (reading 'Content')")
  else
    let content := get "Content" properties in
    if isNullish content
    then Err (TypeError "Cannot convert undefined or null to object")
    else
      Ok (match content with
          | VObj c =>
              VObj (setP "properties"
                      (VObj (setP "Content" (VObj (deleteP "S3Key" c))
                               (entries properties)))
                      (entries layerConfig))
          | _ => layerConfig
          end).

Fixpoint stripAll (l : list value) : result (list value) :=
  match l with
  | [] => Ok []
  | x :: r =>
      match stripS3Key x with
      | Err e => Err e
      | Ok x' => match stripAll r with
                 | Err e => Err e
                 | Ok r' => Ok (x' :: r')
                 end
      end
  end.

(** Lines 517-522: the properties that identify a version. *)
Definition versionedProperties (fo : obj) (functionProperties : obj) : obj :=
  let p := if negb (truthy (getP "image" fo))
           then deleteP "Code" functionProperties else functionProperties in
  deleteP "Tags" (deleteP "ReservedConcurrentExecutions" p).

(** Lines 524-543: the configuration text written into the hash. *)
Definition configurationText (st : State) (functionProperties : obj)
  (layerConfigurations : list value) : string :=
  if legacyHashing st then
    let sortedLayerConfigurations :=
      fold_left
        (fun acc layer =>
           setP (toStr (get "name" layer))
             (VObj (Json.sortEntries (localeCompare E)
                      (entries (get "properties" layer)))) acc)
        layerConfigurations [] in
    let functionProperties :=
      setP "layerConfigurations" (VObj sortedLayerConfigurations)
        functionProperties in
    Json.stringifyObj (quoteJSON E)
      (Json.sortEntries (localeCompare E) functionProperties)
  else
    let functionProperties :=
      setP "layerConfigurations" (VArr layerConfigurations)
        functionProperties in
    Json.stringifyObj (quoteJSON E)
      (entries (Json.deepSortObjectByKey (localeCompare E)
                  (VObj functionProperties))).

(** Lines 493-510: what the artifact and the layers contribute. *)
Definition artifactWrites (st : State) (ctx : FnCtx)
  (layerConfigurations : list value) : list string :=
  let own := if truthy (functionImageSha ctx) then []
             else addFileToHash st (artifactFilePath ctx) in
  let layerArtifactPaths :=
    map (fun layer => toStr (resolveLayerArtifactName E (get "name" layer)))
        layerConfigurations in
  (own ++ flat_map (fun p => addFileToHash st (VStr p))
                   (sortStrings layerArtifactPaths))%list.

(** Lines 485-543: everything written into the hash, in order, or the
    [TypeError] of line 514. *)
Definition versionHashInput (fo : obj) (ctx : FnCtx)
  (layerConfigurations : list value) (st : State) : result string :=
  match stripAll layerConfigurations with
  | Err e => Err e
  | Ok stripped =>
      Ok (String.concat ""
            (artifactWrites st ctx layerConfigurations
               ++ [configurationText st
                     (versionedProperties fo (props (functionResource ctx)))
                     stripped])%list)
  end.

(** Lines 545-546: the version digest. *)
Definition versionDigest (fo : obj) (ctx : FnCtx)
  (layerConfigurations : list value) (st : State) : result string :=
  match versionHashInput fo ctx layerConfigurations st with
  | Err e => Err e
  | Ok text => Ok (sha256_base64 E text)
  end.

(** Lines 481-489, run before the first file is read: the description
    override (the resource is already in the template, which sees the
    write) and the layer configurations as the template has them now. *)
Definition versionStart (functionName : string) (ctx : FnCtx) (st : State)
  : State * FnCtx * list value :=
  let '(st, ctx) :=
    if truthy (getP "enforce-hash-update" (options st)) then
      let r := setProp "Description"
                 (VStr "temporary-description-to-enforce-hash-update")
                 (functionResource ctx) in
      (touchResource (getLambdaLogicalId E functionName) r st,
       {| functionObject := functionObject ctx;
          functionResource := r;
          artifactFilePath := artifactFilePath ctx;
          functionImageSha := functionImageSha ctx;
          shouldVersionFunction := shouldVersionFunction ctx |})
    else (st, ctx) in
  (st, ctx,
   extractLayerConfigurationsFromFunction (props (functionResource ctx)) st).

Definition aliasResource (functionLogicalId versionLogicalId aliasName : string)
  (extra : obj) : obj :=
  [("Type", VStr "AWS::Lambda::Alias");
   ("Properties",
     VObj ([("FunctionName", ref functionLogicalId);
            ("FunctionVersion", getAtt (VStr versionLogicalId) "Version");
            ("Name", VStr aliasName)] ++ extra));
   ("DependsOn", VStr functionLogicalId)].

Definition targetAlias (aliasName aliasLogicalId : string) : value :=
  VObj [("name", VStr aliasName); ("logicalId", VStr aliasLogicalId)].

(** Lines 491-551: the version resource of a function. *)
Definition versionResourceOf (functionName : string) (ctx : FnCtx) : obj :=
  let versionResource := cfLambdaVersionTemplate in
  let versionResource :=
    setProp "CodeSha256"
      (if truthy (functionImageSha ctx) then functionImageSha ctx
       else VStr (getHashForFilePath E (artifactFilePath ctx)))
      versionResource in
  let versionResource :=
    setProp "FunctionName" (ref (getLambdaLogicalId E functionName))
      versionResource in
  if truthy (getP "description" (functionObject ctx))
  then setProp "Description" (getP "description" (functionObject ctx))
         versionResource
  else versionResource.

(** Lines 559-575: the version id on the function object, the version
    resource and its output in the template. *)
Definition insertVersion (functionName versionLogicalId : string)
  (versionResource fo : obj) (st : State) : State :=
  let st := putFunction functionName fo st in
  let st := putResource versionLogicalId versionResource st in
  setOutputs
    (setP (getLambdaVersionOutputLogicalId E functionName)
       (VObj (setP "Value" (ref versionLogicalId) cfOutputLatestVersionTemplate))
       (Outputs st)) st.

(** Lines 584-607.  [unretained] is the version resource as line 585
    leaves it; the template holds that very object. *)
Definition compileProvisionedConcurrency (functionName versionLogicalId : string)
  (unretained fo : obj) (st : State) : obj * State :=
  let st := touchResource versionLogicalId unretained st in
  let aliasLogicalId :=
    getLambdaProvisionedConcurrencyAliasLogicalId E functionName in
  let aliasName := getLambdaProvisionedConcurrencyAliasName E in
  let fo := setP "targetAlias" (targetAlias aliasName aliasLogicalId) fo in
  (fo,
   putResource aliasLogicalId
     (aliasResource (getLambdaLogicalId E functionName) versionLogicalId
        aliasName
        [("ProvisionedConcurrencyConfig",
          VObj [("ProvisionedConcurrentExecutions",
                 getP "provisionedConcurrency" fo)])])
     (putFunction functionName fo st)).

(** Lines 609-632.  The function resource is still the template's entry
    unless the version took its place. *)
Definition compileSnapStart (functionName versionLogicalId : string)
  (unretained functionResource fo : obj) (st : State) : obj * State :=
  let functionLogicalId := getLambdaLogicalId E functionName in
  let st := touchResource versionLogicalId unretained st in
  let st :=
    if String.eqb versionLogicalId functionLogicalId then st
    else touchResource functionLogicalId
           (setProp "SnapStart" (VObj [("ApplyOn", VStr "PublishedVersions")])
              functionResource) st in
  let aliasLogicalId := getLambdaSnapStartAliasLogicalId E functionName in
  let aliasName := getLambdaSnapStartEnabledAliasName E in
  let fo := setP "targetAlias" (targetAlias aliasName aliasLogicalId) fo in
  (fo,
   putResource aliasLogicalId
     (aliasResource functionLogicalId versionLogicalId aliasName [])
     (putFunction functionName fo st)).

(** Lines 491-633, after the files are read: the version resource, its
    output, the provisioned-concurrency / SnapStart guard and the aliases. *)
Definition versionFinish (functionName : string) (ctx : FnCtx)
  (layerConfigurations : list value) (st : State) : State * result unit :=
  match versionDigest (functionObject ctx) ctx layerConfigurations st with
  | Err e => (st, Err e)
  | Ok digest =>
      let versionResource := versionResourceOf functionName ctx in
      let versionLogicalId :=
        getLambdaVersionLogicalId E functionName digest in
      let fo := setP "versionLogicalId" (VStr versionLogicalId)
                  (functionObject ctx) in
      let st := insertVersion functionName versionLogicalId versionResource fo st in
      if truthy (getP "provisionedConcurrency" fo)
         && truthy (getP "snapStart" fo)
      then (st, Err (provisionedConcurrencyAndSnapStartError functionName))
      else
        let unretained :=
          if negb (truthy (shouldVersionFunction ctx))
          then deleteP "DeletionPolicy" versionResource
          else versionResource in
        let '(fo, st) :=
          if truthy (getP "provisionedConcurrency" fo)
          then compileProvisionedConcurrency functionName versionLogicalId
                 unretained fo st
          else (fo, st) in
        let '(fo, st) :=
          if truthy (getP "snapStart" fo)
          then compileSnapStart functionName versionLogicalId unretained
                 (functionResource ctx) fo st
          else (fo, st) in
        (st, Ok tt)
  end.

(** Lines 655-671: one CORS field, overridden, removed or left alone. *)
Definition overrideCors (field : string) (urlCors : value) (cors : obj) : obj :=
  if truthy (get field urlCors) then setP field (uniq (get field urlCors)) cors
  else match get field urlCors with
       | VNull => deleteP field cors
       | _ => cors
       end.

(** Lines 652-680. *)
Definition resolveCors (urlCors : value) : obj :=
  let cors := assign [] defaultCors in
  let cors := overrideCors "allowedOrigins" urlCors cors in
  let cors := overrideCors "allowedHeaders" urlCors cors in
  let cors := overrideCors "allowedMethods" urlCors cors in
  let cors := if truthy (get "allowCredentials" urlCors)
              then setP "allowCredentials" (VBool true) cors else cors in
  let cors := if truthy (get "exposedResponseHeaders" urlCors)
              then setP "exposedResponseHeaders"
                     (uniq (get "exposedResponseHeaders" urlCors)) cors
              else cors in
  setP "maxAge" (get "maxAge" urlCors) cors.

(** Lines 692-699. *)
Definition corsProperties (cors : obj) : obj :=
  [("AllowCredentials", getP "allowCredentials" cors);
   ("AllowHeaders",
     and_ (getP "allowedHeaders" cors) (arrayFrom (getP "allowedHeaders" cors)));
   ("AllowMethods",
     and_ (getP "allowedMethods" cors) (arrayFrom (getP "allowedMethods" cors)));
   ("AllowOrigins",
     and_ (getP "allowedOrigins" cors) (arrayFrom (getP "allowedOrigins" cors)));
   ("ExposeHeaders",
     and_ (getP "exposedResponseHeaders" cors)
          (arrayFrom (getP "exposedResponseHeaders" cors)));
   ("MaxAge", getP "maxAge" cors)].

(** Lines 646-704: the URL resource of a function whose [url] is set. *)
Definition urlResource (functionName : string) (fo : obj) : obj :=
  let url := getP "url" fo in
  let auth := if isStr (get "authorizer" url) "aws_iam"
              then "AWS_IAM" else "NONE" in
  let r :=
    [("Type", VStr "AWS::Lambda::Url");
     ("Properties",
       VObj [("AuthType", VStr auth);
             ("TargetFunctionArn", resolveLambdaTarget E functionName (getP "targetAlias" fo))]);
     ("DependsOn", get "logicalId" (getP "targetAlias" fo))] in
  let r := if truthy (get "cors" url)
           then setProp "Cors"
                  (VObj (corsProperties (resolveCors (get "cors" url)))) r
           else r in
  if isStr (get "invokeMode" url) "RESPONSE_STREAM"
  then setProp "InvokeMode" (get "invokeMode" url) r
  else r.

Definition compileFunctionUrl (functionName : string) (st : State)
  : State * result unit :=
  match getFunction functionName st with
  | None =>
      (st, Err (missingFunctionError functionName))
  | Some fo =>
      let url := getP "url" fo in
      if negb (truthy url) then (st, Ok tt)
      else
        let logicalId := getLambdaFunctionUrlLogicalId E functionName in
        let st := putResource logicalId (urlResource functionName fo) st in
        let st :=
          setOutputs
            (setP (getLambdaFunctionUrlOutputLogicalId E functionName)
               (VObj [("Description", VStr "Lambda Function URL");
                      ("Value", getAtt (VStr logicalId) "FunctionUrl")])
               (Outputs st)) st in
        if isStr (get "authorizer" url) "aws_iam" then (st, Ok tt)
        else
          (putResource (getLambdaFnUrlPermissionLogicalId E functionName)
             [("Type", VStr "AWS::Lambda::Permission");
              ("Properties",
                VObj [("FunctionName", resolveLambdaTarget E functionName (getP "targetAlias" fo));
                      ("Action", VStr "lambda:InvokeFunctionUrl");
                      ("Principal", VStr "*");
                      ("FunctionUrlAuthType", VStr "NONE")]);
              ("DependsOn", get "logicalId" (getP "targetAlias" fo))]
             st, Ok tt)
  end.

(** Lines 788-795.  Anything that is neither an object nor a string has
    no [startsWith]. *)
Definition getDestinationsArn (destinationsProperty : value) : result value :=
  match destinationsProperty with
  | VObj _ | VArr _ => Ok (get "arn" destinationsProperty)
  | VStr s =>
      Ok (if startsWith "arn:" s then destinationsProperty
          else resolveFunctionArn E s)
  | _ => Err (TypeError "destinationsProperty.startsWith is not a function")
  end.

(** Lines 803-827: the action a destination needs. *)
Definition destinationAction (destinationsProperty : value) : result string :=
  let unsupported := Err (unsupportedDestinationError destinationsProperty) in
  match destinationsProperty with
  | VObj _ | VArr _ =>
      let type := get "type" destinationsProperty in
      if isStr type "function" then Ok "lambda:InvokeFunction"
      else if isStr type "sqs" then Ok "sqs:SendMessage"
      else if isStr type "sns" then Ok "sns:Publish"
      else if isStr type "eventBus" then Ok "events:PutEvents"
      else unsupported
  | VStr s =>
      if negb (startsWith "arn:" s) || includes ":function:" s
      then Ok "lambda:InvokeFunction"
      else if includes ":sqs:" s then Ok "sqs:SendMessage"
      else if includes ":sns:" s then Ok "sns:Publish"
      else if includes ":event-bus/" s then Ok "events:PutEvents"
      else unsupported
  | _ => unsupported
  end.

(** Lines 798-845, the function under the memoize wrapper: one statement
    pushed onto the default role's policy. *)
Definition ensureTargetExecutionPermission_body
  (destinationsProperty : value) (st : State) : State * result unit :=
  match iamStatements st with
  | None =>
      (st, Err (TypeError "Cannot read properties of undefined (reading 'Properties')"))
  | Some iamPolicyStatements =>
      match destinationAction destinationsProperty with
      | Err e => (st, Err e)
      | Ok action =>
          let pushed ResourceArn :=
            (setIamStatements
               (Some (iamPolicyStatements
                        ++ [allow (VStr action) ResourceArn])%list) st,
             Ok tt) in
          match destinationsProperty with
          | VStr s =>
              if startsWith "arn:" s then pushed destinationsProperty
              else
                match getFunction s st with
                | None =>
                    (st, Err (missingFunctionError s))
                | Some target =>
                    pushed
                      (VObj [("Fn::Sub",
                              VStr ("arn:${AWS::Partition}:lambda:${AWS::Region}"
                                      ++ ":${AWS::AccountId}:function:"
                                      ++ toStr (getP "name" target)))])
                end
          | _ => pushed (get "arn" destinationsProperty)
          end
      end
  end.

(** The cache key [_.memoize] derives from the first argument: a string
    by value, an object by the identity of the object stored in that
    slot of the function's [destinations]. *)
Definition memoKeyOf (functionName slot : string) (destinationsProperty : value)
  : memoKey :=
  match destinationsProperty with
  | VStr s => KStr s
  | _ => KObj (objectRef E functionName slot)
  end.

(** [this.ensureTargetExecutionPermission], memoized in the constructor: a
    key already in the cache returns at once; a call that throws caches
    nothing. *)
Definition ensureTargetExecutionPermission (functionName slot : string)
  (destinationsProperty : value) (st : State) : State * result unit :=
  let key := memoKeyOf functionName slot destinationsProperty in
  if existsb (memoKey_eqb key) (memoized st) then (st, Ok tt)
  else
    match ensureTargetExecutionPermission_body destinationsProperty st with
    | (st, Err e) => (st, Err e)
    | (st, Ok _) => (setMemoized (key :: memoized st) st, Ok tt)
    end.

(** Lines 743-761: one of [onSuccess] / [onFailure]. *)
Definition compileDestination (functionName slot configKey : string)
  (destinations : value) (hasAccessPoliciesHandledExternally : bool)
  (destinationConfig : obj) (st : State) : State * result obj :=
  let target := get slot destinations in
  if truthy target then
    match getDestinationsArn target with
    | Err e => (st, Err e)
    | Ok arn =>
        let destinationConfig :=
          setP configKey (VObj [("Destination", arn)]) destinationConfig in
        if hasAccessPoliciesHandledExternally then (st, Ok destinationConfig)
        else
          match ensureTargetExecutionPermission functionName slot target st with
          | (st, Err e) => (st, Err e)
          | (st, Ok _) => (st, Ok destinationConfig)
          end
    end
  else (st, Ok destinationConfig).

(** Lines 729-786. *)
Definition compileFunctionEventInvokeConfig (functionName : string)
  (st : State) : State * result unit :=
  match getFunction functionName st with
  | None =>
      (st, Err (missingFunctionError functionName))
  | Some fo =>
      let destinations := getP "destinations" fo in
      let maximumEventAge := getP "maximumEventAge" fo in
      let maximumRetryAttempts := getP "maximumRetryAttempts" fo in
      if negb (truthy destinations) && negb (truthy maximumEventAge)
         && isNullish maximumRetryAttempts
      then (st, Ok tt)
      else
        let ext := truthy (getCustomExecutionRole E (provider st) (getP "role" fo)) in
        let compiled :=
          if truthy destinations then
            match compileDestination functionName "onSuccess" "OnSuccess"
                    destinations ext [] st with
            | (st, Err e) => (st, Err e)
            | (st, Ok c) =>
                compileDestination functionName "onFailure" "OnFailure"
                  destinations ext c st
            end
          else (st, Ok []) in
        match compiled with
        | (st, Err e) => (st, Err e)
        | (st, Ok destinationConfig) =>
            let alias := getP "targetAlias" fo in
            let resource :=
              [("Type", VStr "AWS::Lambda::EventInvokeConfig");
               ("Properties",
                 VObj [("FunctionName", ref (getLambdaLogicalId E functionName));
                       ("DestinationConfig", VObj destinationConfig);
                       ("Qualifier",
                         if truthy alias then get "name" alias
                         else VStr "$LATEST")]);
               ("DependsOn", get "logicalId" alias)] in
            let resource :=
              if truthy maximumEventAge
              then setProp "MaximumEventAgeInSeconds" maximumEventAge resource
              else resource in
            let resource :=
              if negb (isNullish maximumRetryAttempts)
              then setProp "MaximumRetryAttempts" maximumRetryAttempts resource
              else resource in
            (putResource (getLambdaEventConfigLogicalId E functionName)
               resource st, Ok tt)
        end
  end.

(** Lines 635-636. *)
Definition compileUrlAndEvents (functionName : string) (st : State)
  : State * result unit :=
  match compileFunctionUrl functionName st with
  | (st, Err e) => (st, Err e)
  | (st, Ok _) => compileFunctionEventInvokeConfig functionName st
  end.

(** Lines 491-636. *)
Definition finishFunction (functionName : string) (ctx : FnCtx)
  (layerConfigurations : list value) (st : State) : State * result unit :=
  match versionFinish functionName ctx layerConfigurations st with
  | (st, Err e) => (st, Err e)
  | (st, Ok _) => compileUrlAndEvents functionName st
  end.

(** [compileFunction], every [await] waited for on the spot. *)
Definition compileFunction (functionName : string) (st : State)
  : State * result unit :=
  match validate functionName st with
  | (st, Err e) => (st, Err e)
  | (st, Ok fo) =>
      match buildFunction functionName fo st with
      | (st, Err e) => (st, Err e)
      | (st, Ok ctx) =>
          if mintsVersion (shouldVersionFunction ctx) (functionObject ctx)
          then
            let '(st, ctx, layerConfigurations) :=
              versionStart functionName ctx st in
            finishFunction functionName ctx layerConfigurations st
          else compileUrlAndEvents functionName st
      end
  end.

(** Strictly sequential compilation of a list of functions, stopping at
    the first error. *)
Fixpoint compileSequentially (names : list string) (st : State)
  : State * result unit :=
  match names with
  | [] => (st, Ok tt)
  | n :: r =>
      match compileFunction n st with
      | (st, Err e) => (st, Err e)
      | (st, Ok _) => compileSequentially r st
      end
  end.

(** *** [compileFunction] as the asynchronous function it is

    An [async] function runs until its first [await], hands control back
    and is resumed later.  [Await k] is a suspended call: [k] is what
    runs, without interruption, when it is resumed.  Consecutive awaits
    with no write to the service between them (the file reads of lines
    496-510) are one suspension. *)
Inductive proc : Type :=
| Return (r : result unit)
| Await (k : State -> State * proc).

Definition lift (x : State * result unit) : State * proc :=
  (fst x, Return (snd x)).

(** Whether lines 496-510 read any file. *)
Definition readsFiles (ctx : FnCtx) (layerConfigurations : list value) : bool :=
  negb (truthy (functionImageSha ctx))
  || match layerConfigurations with [] => false | _ => true end.

Definition buildTask (functionName : string) (fo : obj) (st : State)
  : State * proc :=
  match buildFunction functionName fo st with
  | (st, Err e) => (st, Return (Err e))
  | (st, Ok ctx) =>
      if mintsVersion (shouldVersionFunction ctx) (functionObject ctx)
      then
        let '(st, ctx, layerConfigurations) :=
          versionStart functionName ctx st in
        if readsFiles ctx layerConfigurations
        then (st, Await (fun st =>
                   lift (finishFunction functionName ctx layerConfigurations st)))
        else lift (finishFunction functionName ctx layerConfigurations st)
      else lift (compileUrlAndEvents functionName st)
  end.

(** The call [this.compileFunction(functionName)] up to its first
    suspension: an image is resolved by the provider asynchronously
    (line 172). *)
Definition compileFunctionTask (functionName : string) (st : State)
  : State * proc :=
  match validate functionName st with
  | (st, Err e) => (st, Return (Err e))
  | (st, Ok fo) =>
      if truthy (getP "image" fo)
      then (st, Await (buildTask functionName fo))
      else buildTask functionName fo st
  end.

(** [allFunctions.map((functionName) => this.compileFunction(functionName))]:
    every call is started, in order, before any is resumed. *)
Fixpoint startAll (names : list string) (st : State) : State * list proc :=
  match names with
  | [] => (st, [])
  | n :: r =>
      let '(st, p) := compileFunctionTask n st in
      let '(st, ps) := startAll r st in
      (st, p :: ps)
  end.

Definition settled (p : proc) : Prop :=
  match p with Return _ => True | Await _ => False end.

(** The event loop resumes suspended calls, one at a time and in an order
    the file system decides, until every promise is settled. *)
Inductive eventLoop : State -> list proc -> State -> list proc -> Prop :=
| loop_done st pool :
    Forall settled pool -> eventLoop st pool st pool
| loop_resume st pool before k after st' p' stF poolF :
    pool = (before ++ Await k :: after)%list ->
    k st = (st', p') ->
    eventLoop st' (before ++ p' :: after)%list stF poolF ->
    eventLoop st pool stF poolF.

(** Lines 855-858: [Promise.all] over the started calls. *)
Definition compileFunctions (st stF : State) (poolF : list proc) : Prop :=
  eventLoop (fst (startAll (getAllFunctions st) st))
            (snd (startAll (getAllFunctions st) st)) stF poolF.
End Compile.
End AwsCompileFunctions.

(** ** A concrete service to run the compiler on *)

Module Fixture.
Import AwsCompileFunctions.

Fixpoint lastSegment (acc s : string) : string :=
  match s with
  | EmptyString => acc
  | String c r =>
      if Ascii.eqb c "/"%char then lastSegment "" r
      else lastSegment (acc ++ String c "") r
  end.

(** Stand-ins for the collaborators: the framework's naming scheme, a hash
    that is its own input, file contents named after their path. *)
Definition env : Env := {|
  quoteJSON := fun s => dq ++ s ++ dq;
  localeCompare := String.compare;
  sha256_base64 := fun s => s;
  pathJoin := String.concat "/";
  pathLast := fun v => lastSegment "" (toStr v);
  objectRef := fun f slot =>
    (2 * String.length f + (if String.eqb slot "onSuccess" then 0 else 1))%nat;
  getHashForFilePath := fun v => "hash(" ++ toStr v ++ ")";
  readFileChunks := fun v => ["bytes(" ++ toStr v ++ ")"];
  resolveImageUriAndSha := fun f => (VStr ("uri/" ++ f), VStr ("sha/" ++ f));
  resolveFunctionRuntimeManagement := fun v =>
    VObj [("mode", or_ v (VStr "auto"))];
  getRuntime := fun v => or_ v (VStr "nodejs14.x");
  getCustomExecutionRole := fun p role =>
    or_ role (or_ (get "role" (getP "iam" p)) (getP "role" p));
  resolveLayerArtifactName := fun v => VStr (toStr v ++ ".zip");
  resolveFunctionArn := fun f => getAtt (VStr (f ++ "LambdaFunction")) "Arn";
  resolveLambdaTarget := fun f alias =>
    if truthy alias
    then VObj [("Fn::Join",
                VArr [VStr ":";
                      VArr [getAtt (VStr (f ++ "LambdaFunction")) "Arn";
                            get "name" alias]])]
    else getAtt (VStr (f ++ "LambdaFunction")) "Arn";
  getServiceArtifactName := "service.zip";
  getFunctionArtifactName := fun f => f ++ ".zip";
  getLogGroupLogicalId := fun f => f ++ "LogGroup";
  getLambdaLogicalId := fun f => f ++ "LambdaFunction";
  getLambdaVersionLogicalId := fun f digest => f ++ "LambdaVersion" ++ digest;
  getLambdaVersionOutputLogicalId := fun f => f ++ "LambdaFunctionQualifiedArn";
  getLambdaProvisionedConcurrencyAliasLogicalId := fun f => f ++ "ProvConcLambdaAlias";
  getLambdaProvisionedConcurrencyAliasName := "provisioned";
  getLambdaSnapStartAliasLogicalId := fun f => f ++ "SnapStartLambdaAlias";
  getLambdaSnapStartEnabledAliasName := "snapstart";
  getLambdaFunctionUrlLogicalId := fun f => f ++ "LambdaFunctionUrl";
  getLambdaFunctionUrlOutputLogicalId := fun f => f ++ "LambdaFunctionUrl";
  getLambdaFnUrlPermissionLogicalId := fun f => f ++ "LambdaPermissionFnUrl";
  getLambdaEventConfigLogicalId := fun f => f ++ "LambdaEvConf"
|}.

(** A service of the [aws] provider with the given functions, as the
    constructor leaves it. *)
Definition service (fns : obj) : State :=
  constructor
    {| functions := fns;
       provider := [("name", VStr "aws")];
       package := [("artifactDirectoryName", VStr "serverless/svc/dev/1")];
       serviceArtifact := VUndef;
       serviceDir := "/srv";
       options := [];
       Resources := [];
       Outputs := [];
       iamStatements := Some [];
       memoized := [];
       journal := [] |}.

Definition hello : value :=
  VObj [("name", VStr "svc-dev-hello"); ("handler", VStr "index.handler")].

Definition queue : string := "arn:aws:sqs:us-east-1:123456789012:jobs".

(** The sample function with provisioned concurrency and versioning
    switched off. *)
Definition helloProvisioned : obj :=
  setP "provisionedConcurrency" (VNum 2)
    (setP "versionFunction" (VBool false) (entries hello)).

(** Two functions that send their successful results to the same queue,
    and one whose success and failure destinations are two equal
    objects. *)
Definition twoSenders : obj :=
  [("first",
    VObj [("name", VStr "svc-dev-first"); ("handler", VStr "a.handler");
          ("destinations", VObj [("onSuccess", VStr queue)])]);
   ("second",
    VObj [("name", VStr "svc-dev-second"); ("handler", VStr "b.handler");
          ("destinations", VObj [("onSuccess", VStr queue)])])].



(** A compute resource on its own, with the context of a handler-based
    function. *)
Definition helloContext : FnCtx :=
  {| functionObject := entries hello;
     functionResource :=
       setProp "MemorySize" (VNum 1024)
         (setProp "Handler" (VStr "index.handler") cfLambdaFunctionTemplate);
     artifactFilePath := VStr "/srv/.serverless/service.zip";
     functionImageSha := VUndef;
     shouldVersionFunction := VBool true |}.

(** The sample function with a retry count of zero, with a role of its
    own and a queue as destination, and with a destination of no known
    type. *)
Definition helloNoRetries : obj :=
  setP "maximumRetryAttempts" (VNum 0) (entries hello).

Definition helloOwnRole : obj :=
  setP "destinations" (VObj [("onSuccess", VStr queue)])
    (setP "role" (VStr "arn:aws:iam::123456789012:role/own") (entries hello)).

Definition helloBadDestination : obj :=
  setP "destinations"
    (VObj [("onSuccess", VStr queue);
           ("onFailure", VObj [("type", VStr "kinesis"); ("arn", VStr queue)])])
    (entries hello).

(** The sample function with a URL whose authorizer is misspelt. *)
Definition helloUrl : obj :=
  setP "url" (VObj [("authorizer", VStr "AWS_IAM")]) (entries hello).

(** The sample function mounting a file system, with its VPC switched
    off, in a service whose provider has one. *)
Definition helloMount : value :=
  VObj [("name", VStr "svc-dev-hello"); ("handler", VStr "index.handler");
        ("vpc", VNull);
        ("fileSystemConfig",
         VObj [("arn", VStr "arn:aws:elasticfilesystem:us-east-1:1:access-point/a");
               ("localMountPath", VStr "/mnt/data")])].

Definition serviceInVpc (fns : obj) : State :=
  setProvider
    [("name", VStr "aws");
     ("vpc", VObj [("securityGroupIds", VArr [VStr "sg-1"]);
                   ("subnetIds", VArr [VStr "subnet-1"])])]
    (service fns).

(** The sample function with provisioned concurrency and a URL. *)
Definition helloProvisionedUrl : obj :=
  setP "url" (VBool true) helloProvisioned.

(** A layer the template defines, the sample function using it, and a
    service whose template holds the layer. *)
Definition sharedLayer : obj :=
  [("Type", VStr "AWS::Lambda::LayerVersion");
   ("Properties",
    VObj [("Content",
           VObj [("S3Bucket", ref "ServerlessDeploymentBucket");
                 ("S3Key", VStr "serverless/svc/dev/1/shared.zip")]);
          ("LayerName", VStr "shared")]);
   ("_serverlessLayerName", VStr "shared")].

Definition layeredContext : FnCtx :=
  {| functionObject := entries hello;
     functionResource :=
       setProp "Layers" (VArr [ref "SharedLambdaLayer"])
         (functionResource helloContext);
     artifactFilePath := artifactFilePath helloContext;
     functionImageSha := VUndef;
     shouldVersionFunction := VBool true |}.

Definition serviceWithLayer : State :=
  touchResource "SharedLambdaLayer" sharedLayer
    (service [("hello", hello)]).

(** The sample function with tags of its own, in a service whose provider
    has tags as well. *)
Definition helloTagged : obj :=
  setP "tags" (VObj [("team", VStr "a"); ("stage", VStr "function")])
    (entries hello).

Definition serviceTagged (fns : obj) : State :=
  setProvider
    [("name", VStr "aws");
     ("tags", VObj [("stage", VStr "provider"); ("owner", VStr "ops")])]
    (service fns).

(** The sample function waiting for a table, with a role of the template. *)
Definition helloDependent : obj :=
  setP "role" (VStr "HelloRole")
    (setP "dependsOn" (VArr [VStr "JobsTable"]) (entries hello)).

(** A function deployed from a container image. *)
Definition helloImage : obj :=
  [("name", VStr "svc-dev-hello"); ("image", VStr "repo/hello:1")].


(** The sample service deployed with [--enforce-hash-update]. *)
Definition serviceEnforcing (fns : obj) : State :=
  {| functions := functions (service fns);
     provider := provider (service fns);
     package := package (service fns);
     serviceArtifact := serviceArtifact (service fns);
     serviceDir := serviceDir (service fns);
     options := [("enforce-hash-update", VBool true)];
     Resources := Resources (service fns);
     Outputs := Outputs (service fns);
     iamStatements := iamStatements (service fns);
     memoized := memoized (service fns);
     journal := journal (service fns) |}.
End Fixture.

(** ** Vocabulary of the properties *)

Module Spec.
Import AwsCompileFunctions.

Definition isVersion (v : value) : bool :=
  isStr (get "Type" v) "AWS::Lambda::Version".

(** How many version resources have been assigned into the template. *)
Definition countVersions (j : list (string * value)) : nat :=
  length (filter (fun kv => isVersion (snd kv)) j).

(** The logical ids a function's compilation writes besides those of the
    function and of its version. *)
Definition otherLogicalIds (E : Env) (name : string) : list string :=
  [getLambdaProvisionedConcurrencyAliasLogicalId E name;
   getLambdaSnapStartAliasLogicalId E name;
   getLambdaFunctionUrlLogicalId E name;
   getLambdaFnUrlPermissionLogicalId E name;
   getLambdaEventConfigLogicalId E name].

(** Versioning as the specification words it: the function-level
    [versionFunction] when it is set, else the provider-level
    [versionFunctions]. *)
Definition versioningEnabled (fo : obj) (st : State) : value :=
  if isNullish (getP "versionFunction" fo)
  then getP "versionFunctions" (provider st)
  else getP "versionFunction" fo.

(** Versioning enabled, or provisioned concurrency set, or SnapStart set. *)
Definition mustMintVersion (fo : obj) (st : State) : bool :=
  truthy (versioningEnabled fo st)
  || truthy (getP "provisionedConcurrency" fo)
  || truthy (getP "snapStart" fo).

(** The three fields of a CORS policy that have a default, their compiled
    names and defaults. *)
Definition corsFields : list (string * string * value) :=
  [("allowedOrigins", "AllowOrigins", getP "allowedOrigins" defaultCors);
   ("allowedHeaders", "AllowHeaders", getP "allowedHeaders" defaultCors);
   ("allowedMethods", "AllowMethods", getP "allowedMethods" defaultCors)].

(** [compileFunction] resumed at once at every suspension. *)
Fixpoint runProc (p : proc) (st : State) : State * result unit :=
  match p with
  | Return r => (st, r)
  | Await k => match k st with (st', p') => runProc p' st' end
  end.

(** The template of [st'] lists the resources of [st] first, in the same
    order: whatever was written in between went to an existing id or to
    the end. *)
Definition keepsOrder (st st' : State) : Prop :=
  exists suffix,
    map fst (Resources st') = (map fst (Resources st) ++ suffix)%list.

(** A suspended call all of whose resumptions keep the order. *)
Inductive orderly : proc -> Prop :=
| orderly_return r : orderly (Return r)
| orderly_await k :
    (forall st, keepsOrder st (fst (k st))) ->
    (forall st, orderly (snd (k st))) ->
    orderly (Await k).

(** Two objects that are the same but for the value of one property. *)
Definition differAt (c1 c2 : string * value) (o1 o2 : obj) : Prop :=
  exists before after,
    o1 = (before ++ c1 :: after)%list /\ o2 = (before ++ c2 :: after)%list.

(** The function context with one property of the compute resource set. *)
Definition withProperty (k : string) (v : value) (ctx : FnCtx) : FnCtx :=
  {| functionObject := functionObject ctx;
     functionResource := setProp k v (functionResource ctx);
     artifactFilePath := artifactFilePath ctx;
     functionImageSha := functionImageSha ctx;
     shouldVersionFunction := shouldVersionFunction ctx |}.

(** The properties of the compute resource left out of the snapshot. *)
Definition excludedFromSnapshot (fo : obj) (k : string) : bool :=
  String.eqb k "ReservedConcurrentExecutions"
  || String.eqb k "Tags"
  || (String.eqb k "Code" && negb (truthy (getP "image" fo))).

(** The hash input and the digest of a compute resource as
    [compileFunction] derives them: from its properties and from the layers
    the template defines. *)
Definition hashInputOf (E : Env) (fo : obj) (ctx : FnCtx) (st : State)
  : result string :=
  versionHashInput E fo ctx
    (extractLayerConfigurationsFromFunction (props (functionResource ctx)) st) st.

Definition digestOf (E : Env) (fo : obj) (ctx : FnCtx) (st : State)
  : result string :=
  versionDigest E fo ctx
    (extractLayerConfigurationsFromFunction (props (functionResource ctx)) st) st.

(** The properties written once the common ones are in place. *)
Definition lateProperties : list string :=
  ["DeadLetterConfig"; "KmsKeyArn"; "TracingConfig"; "Environment"; "Role";
   "VpcConfig"; "FileSystemConfigs"; "ReservedConcurrentExecutions"; "Layers"].

(** Lines 171-250 taken on their own: the function object with its
    resolved memory, timeout and runtime, the path of the deployment
    package, and the resource with the properties of its package kind. *)
Definition packageStage (E : Env) (functionName : string) (fo : obj)
  (st : State) : obj * value * obj :=
  let r := cfLambdaFunctionTemplate in
  let image := getP "image" fo in
  let uriAndSha :=
    if truthy image then resolveImageUriAndSha E functionName
    else (VUndef, VUndef) in
  let r :=
    if truthy image && isObject image then
      match imageConfigOf image with
      | [] => r
      | c => setProp "ImageConfig" (VObj c) r
      end
    else r in
  let fo := setP "memory"
              (or_ (getP "memorySize" fo)
                   (or_ (getP "memorySize" (provider st)) (VNum 1024))) fo in
  let fo := if negb (truthy (getP "timeout" fo))
            then setP "timeout" (or_ (getP "timeout" (provider st)) (VNum 6)) fo
            else fo in
  if truthy (getP "handler" fo) then
    let artifactFilePath := resolveArtifactFilePath E functionName fo st in
    let fo := setP "runtime" (getRuntime E (getP "runtime" fo)) fo in
    (fo, artifactFilePath, handlerProperties E fo artifactFilePath st r)
  else
    (fo, VUndef,
     setProp "PackageType" (VStr "Image") (setCode "ImageUri" (fst uriAndSha) r)).

(** What lines 386-407 make of the function's and the provider's [vpc]:
    nothing when the function's is [null] or [false], else the two lists,
    each the function's when truthy and the provider's otherwise, when
    both are there. *)
Definition vpcConfigOf (fvpc pvpc : value) : option value :=
  match fvpc with
  | VNull | VBool false => None
  | _ =>
      let securityGroupIds :=
        or_ (get "securityGroupIds" fvpc) (get "securityGroupIds" pvpc) in
      let subnetIds := or_ (get "subnetIds" fvpc) (get "subnetIds" pvpc) in
      if truthy securityGroupIds && truthy subnetIds then
        Some (VObj [("Ipv6AllowedForDualStack",
                     or_ (get "ipv6AllowedForDualStack" fvpc)
                         (get "ipv6AllowedForDualStack" pvpc));
                    ("SecurityGroupIds", securityGroupIds);
                    ("SubnetIds", subnetIds)])
      else None
  end.

(** The alias lines 591 and 619 leave on the function object: the one of
    provisioned concurrency, else the one of SnapStart, else whatever the
    function object had. *)
Definition aliasOf (E : Env) (functionName : string) (fo : obj) : value :=
  if truthy (getP "provisionedConcurrency" fo)
  then targetAlias (getLambdaProvisionedConcurrencyAliasName E)
         (getLambdaProvisionedConcurrencyAliasLogicalId E functionName)
  else if truthy (getP "snapStart" fo)
  then targetAlias (getLambdaSnapStartEnabledAliasName E)
         (getLambdaSnapStartAliasLogicalId E functionName)
  else getP "targetAlias" fo.

(** Whether lines 733-735 go on to write an event-invoke configuration. *)
Definition hasEventInvokeConfig (fo : obj) : bool :=
  truthy (getP "destinations" fo)
  || truthy (getP "maximumEventAge" fo)
  || negb (isNullish (getP "maximumRetryAttempts" fo)).

(** Two layer configurations that the hash cannot tell apart: the same
    name, and the same once line 514 has removed the key of the code. *)
Definition alike (x y : value) : Prop :=
  get "name" x = get "name" y /\ stripS3Key x = stripS3Key y.

(** The elements [concat] adds for an argument: those of an array, else
    the argument itself. *)
Definition spread (v : value) : list value :=
  match v with VArr l => l | _ => [v] end.

(** The settings that decide whether a version is minted and which alias
    points at it. *)
Definition aliasSettings : list string :=
  ["snapStart"; "provisionedConcurrency"; "versionFunction"].

(** Two function objects with the same value for every other setting. *)
Definition agree (fo fo' : obj) : Prop :=
  forall j, ~ In j aliasSettings -> getP j fo = getP j fo'.

(** The resource as [compileRole] hands it back when it returns. *)
Definition roleOf (r : obj) (role : value) : obj :=
  match compileRole r role with Ok r' => r' | Err _ => r end.

(** No element of the list deep-equals an earlier one. *)
Fixpoint apart (l : list value) : Prop :=
  match l with
  | [] => True
  | x :: r => Forall (fun y => isEqual y x = false) r /\ apart r
  end.

(** A value as JavaScript can hold it: no object has a property twice. *)
Fixpoint wellFormed (v : value) : bool :=
  match v with
  | VArr l => forallb wellFormed l
  | VObj l =>
      (fix each (l : obj) : bool :=
         match l with
         | [] => true
         | (k, u) :: r =>
             negb (existsb (fun kv => String.eqb (fst kv) k) r)
             && wellFormed u && each r
         end) l
  | _ => true
  end.

End Spec.

(** * Properties *)

(** ** Objects *)

Module JSFacts.

Lemma lookup_setP_eq k v o : lookup k (setP k v o) = Some v.
Proof.
  induction o as [|[j w] r IH]; simpl.
  - now rewrite String.eqb_refl.
  - destruct (String.eqb j k) eqn:Ejk; simpl; rewrite Ejk; auto.
Qed.

Lemma lookup_setP_ne k k' v o :
  k <> k' -> lookup k (setP k' v o) = lookup k o.
Proof.
  intros Hne. induction o as [|[j w] r IH]; simpl.
  - destruct (String.eqb k' k) eqn:Ek; auto.
    apply String.eqb_eq in Ek. congruence.
  - destruct (String.eqb j k') eqn:Ejk'; simpl.
    + apply String.eqb_eq in Ejk'. subst j.
      destruct (String.eqb k' k) eqn:Ek; auto.
      apply String.eqb_eq in Ek. congruence.
    + destruct (String.eqb j k); auto.
Qed.

Lemma getP_setP_eq k v o : getP k (setP k v o) = v.
Proof. unfold getP. now rewrite lookup_setP_eq. Qed.

Lemma getP_setP_ne k k' v o : k <> k' -> getP k (setP k' v o) = getP k o.
Proof. intros. unfold getP. now rewrite lookup_setP_ne. Qed.

Lemma lookup_deleteP_ne k k' o :
  k <> k' -> lookup k (deleteP k' o) = lookup k o.
Proof.
  intros Hne. induction o as [|[j w] r IH]; simpl; auto.
  destruct (String.eqb j k') eqn:Ejk'; simpl.
  - apply String.eqb_eq in Ejk'. subst j.
    destruct (String.eqb k' k) eqn:Ek; auto.
    apply String.eqb_eq in Ek. congruence.
  - destruct (String.eqb j k); auto.
Qed.

End JSFacts.

Import JSFacts.
Import AwsCompileFunctions.
Import Spec.

(** ** Which phase throws what *)

Section Errors.
Variable E : Env.

Ltac inv H := inversion H; subst; clear H.

Lemma compileFileSystem_error name fo st r st' e :
  compileFileSystem name fo st r = (st', Err e) -> e = missingVpcError name.
Proof.
  unfold compileFileSystem.
  repeat match goal with
         | |- context [if ?b then _ else _] => destruct b
         end; intros H; inv H; reflexivity.
Qed.

Lemma compileRole_error r role e :
  compileRole r role = Err e -> isTypeError e = true.
Proof.
  unfold compileRole. cbv zeta.
  destruct role as [| | | |s| |o]; try (intros H; inv H; reflexivity).
  - repeat match goal with
           | |- context [if ?b then _ else _] => destruct b
           end; discriminate.
  - destruct (hasP "Fn::GetAtt" o); [|discriminate].
    destruct (getP "Fn::GetAtt" o) as [| | | |[|c t]| |]; simpl;
      intros H; inv H; reflexivity.
Qed.

Lemma compileRole_ok r role r' :
  compileRole r role = Ok r' -> r' = roleOf r role.
Proof. unfold roleOf. now intros ->. Qed.

(** Whatever the role, [compileRole] writes [Role] and at most appends a
    dependency. *)
Lemma roleOf_cases r role :
  roleOf r role = r
  \/ (exists v, roleOf r role = setProp "Role" v r)
  \/ (exists v d, roleOf r role = setP "DependsOn" d (setProp "Role" v r)).
Proof.
  unfold roleOf, compileRole. cbv zeta.
  destruct role as [| | | |s| |o]; eauto.
  - repeat match goal with
           | |- context [if ?b then _ else _] => destruct b
           end; eauto.
  - destruct (hasP "Fn::GetAtt" o); [|eauto].
    destruct (first (getP "Fn::GetAtt" o)); eauto.
Qed.

Lemma buildFunction_error name fo st st' e :
  buildFunction E name fo st = (st', Err e) ->
  e = missingVpcError name \/ isTypeError e = true.
Proof.
  unfold buildFunction.
  repeat match goal with
         | |- context [let '(_, _) := ?x in _] => destruct x eqn:?
         end.
  destruct (compileRole _ _) as [rr|er] eqn:Hrole.
  - repeat match goal with
           | |- context [let '(_, _) := ?x in _] => destruct x eqn:?
           end.
    match goal with
    | |- context [match ?r with Ok _ => _ | Err _ => _ end] => destruct r
    end; intros H; inv H.
    left. eapply compileFileSystem_error; eauto.
  - intros H; inv H. right. eapply compileRole_error; eauto.
Qed.

Lemma stripAll_error l e : stripAll l = Err e -> isTypeError e = true.
Proof.
  induction l as [|x r IH]; simpl; [discriminate|].
  unfold stripS3Key.
  destruct (isNullish (get "properties" x)).
  { intros H; inv H; reflexivity. }
  destruct (isNullish (get "Content" (get "properties" x))).
  { intros H; inv H; reflexivity. }
  destruct (stripAll r); [discriminate|].
  intros H; inv H. auto.
Qed.

Lemma versionDigest_error fo ctx lcs st e :
  versionDigest E fo ctx lcs st = Err e -> isTypeError e = true.
Proof.
  unfold versionDigest, versionHashInput.
  destruct (stripAll lcs) eqn:Hs; [discriminate|].
  intros H; inv H. eapply stripAll_error; eauto.
Qed.

Lemma versionFinish_error name ctx lcs st st' e :
  versionFinish E name ctx lcs st = (st', Err e) ->
  isTypeError e = true \/ e = provisionedConcurrencyAndSnapStartError name.
Proof.
  unfold versionFinish.
  destruct (versionDigest E (functionObject ctx) ctx lcs st) eqn:Hd.
  - match goal with
    | |- context [if ?b then (_, Err _) else _] => destruct b
    end.
    + intros H; inv H. now right.
    + repeat match goal with
             | |- context [let '(_, _) := ?x in _] => destruct x eqn:?
             end.
      discriminate.
  - intros H; inv H. left. eapply versionDigest_error; eauto.
Qed.

Lemma compileFunctionUrl_error name st st' e :
  compileFunctionUrl E name st = (st', Err e) -> e = missingFunctionError name.
Proof.
  unfold compileFunctionUrl.
  destruct (getFunction name st).
  - repeat match goal with
           | |- context [if ?b then _ else _] => destruct b
           end; discriminate.
  - intros H; inv H; reflexivity.
Qed.

Lemma ensureTargetExecutionPermission_error name slot d st st' e :
  ensureTargetExecutionPermission E name slot d st = (st', Err e) ->
  isHandlerImageError e = false.
Proof.
  unfold ensureTargetExecutionPermission, ensureTargetExecutionPermission_body.
  destruct (existsb _ _); [discriminate|].
  destruct (iamStatements st); [|intros H; inv H; reflexivity].
  destruct (destinationAction d) eqn:Ha.
  - destruct d; try (intros H; inv H; fail).
    destruct (startsWith "arn:" s); [discriminate|].
    destruct (getFunction s st); intros H; inv H; reflexivity.
  - intros H; inv H.
    unfold destinationAction in Ha.
    destruct d; try (inv Ha; reflexivity);
      repeat match type of Ha with
             | context [if ?b then _ else _] => destruct b
             end; inv Ha; reflexivity.
Qed.

Lemma compileDestination_error name slot key d ext c st st' e :
  compileDestination E name slot key d ext c st = (st', Err e) ->
  isHandlerImageError e = false.
Proof.
  unfold compileDestination.
  destruct (truthy (get slot d)); [|discriminate].
  destruct (getDestinationsArn E (get slot d)) eqn:Ha.
  - destruct ext; [discriminate|].
    destruct (ensureTargetExecutionPermission E name slot (get slot d) st)
      as [s' [u|e']] eqn:He; intros H; inv H.
    eapply ensureTargetExecutionPermission_error; eauto.
  - intros H; inv H.
    unfold getDestinationsArn in Ha.
    destruct (get slot d); inv Ha; reflexivity.
Qed.

Lemma compileFunctionEventInvokeConfig_error name st st' e :
  compileFunctionEventInvokeConfig E name st = (st', Err e) ->
  isHandlerImageError e = false.
Proof.
  unfold compileFunctionEventInvokeConfig.
  destruct (getFunction name st) as [fo|]; [|intros H; inv H; reflexivity].
  match goal with
  | |- context [if ?b then (st, Ok tt) else _] => destruct b
  end; [discriminate|].
  destruct (truthy (getP "destinations" fo)).
  - destruct (compileDestination E name "onSuccess" "OnSuccess" _ _ [] st)
      as [s1 [c1|e1]] eqn:H1.
    + destruct (compileDestination E name "onFailure" "OnFailure" _ _ c1 s1)
        as [s2 [c2|e2]] eqn:H2; intros H; inv H.
      eapply compileDestination_error; eauto.
    + intros H; inv H. eapply compileDestination_error; eauto.
  - discriminate.
Qed.

Lemma compileUrlAndEvents_error name st st' e :
  compileUrlAndEvents E name st = (st', Err e) ->
  isHandlerImageError e = false.
Proof.
  unfold compileUrlAndEvents.
  destruct (compileFunctionUrl E name st) as [s1 [u|e1]] eqn:H1.
  - apply compileFunctionEventInvokeConfig_error.
  - intros H; inv H.
    rewrite (compileFunctionUrl_error _ _ _ _ H1). reflexivity.
Qed.

Lemma finishFunction_error name ctx lcs st st' e :
  finishFunction E name ctx lcs st = (st', Err e) ->
  isHandlerImageError e = false.
Proof.
  unfold finishFunction.
  destruct (versionFinish E name ctx lcs st) as [s1 [u|e1]] eqn:H1.
  - apply compileUrlAndEvents_error.
  - intros H; inv H.
    destruct (versionFinish_error _ _ _ _ _ _ H1) as [Ht| ->]; [|reflexivity].
    destruct e; [discriminate|reflexivity].
Qed.
End Errors.

(** ** The handler / image guard *)

Section HandlerImage.
Variable E : Env.

Lemma validate_reads name st fo :
  getFunction name st = Some fo ->
  validate name st =
    let fo' := setP "package" (or_ (getP "package" fo) (VObj [])) fo in
    let st' := putFunction name fo' st in
    if negb (truthy (getP "handler" fo)) && negb (truthy (getP "image" fo))
    then (st', Err (neitherHandlerNorImageError name))
    else if truthy (getP "handler" fo) && truthy (getP "image" fo)
    then (st', Err (bothHandlerAndImageError name))
    else (st', Ok fo').
Proof.
  intros Hf. unfold validate. rewrite Hf. cbv zeta.
  rewrite !getP_setP_ne by discriminate. reflexivity.
Qed.

Lemma compileFunction_error_after_validate name st st1 fo1 e :
  validate name st = (st1, Ok fo1) ->
  snd (compileFunction E name st) = Err e ->
  isHandlerImageError e = false.
Proof.
  intros Hv. unfold compileFunction. rewrite Hv.
  destruct (buildFunction E name fo1 st1) as [s2 [ctx|e2]] eqn:Hb.
  - destruct (mintsVersion _ _).
    + destruct (versionStart E name ctx s2) as [[s3 ctx3] lcs].
      destruct (finishFunction E name ctx3 lcs s3) as [s4 [u|e4]] eqn:Hf;
        simpl; intros H; inversion H; subst.
      eapply finishFunction_error; eauto.
    + destruct (compileUrlAndEvents E name s2) as [s4 [u|e4]] eqn:Hf;
        simpl; intros H; inversion H; subst.
      eapply compileUrlAndEvents_error; eauto.
  - simpl. intros H; inversion H; subst.
    destruct (buildFunction_error _ _ _ _ _ _ Hb) as [->|Ht]; [reflexivity|].
    destruct e; [discriminate|reflexivity].
Qed.

(** C5.  A declared function with both [handler] and [image] set fails
    with the both-set error, one with neither fails with the neither-set
    error; the two errors carry the function's name and two different
    codes; and with exactly one of the two set, whatever compilation
    throws is neither of the two. *)
Theorem compileFunction_handler_image_guard name st fo :
  getFunction name st = Some fo ->
  (truthy (getP "handler" fo) && truthy (getP "image" fo) = true ->
   snd (compileFunction E name st) = Err (bothHandlerAndImageError name))
  /\ (negb (truthy (getP "handler" fo)) && negb (truthy (getP "image" fo)) = true ->
      snd (compileFunction E name st) = Err (neitherHandlerNorImageError name))
  /\ (xorb (truthy (getP "handler" fo)) (truthy (getP "image" fo)) = true ->
      forall e, snd (compileFunction E name st) = Err e ->
                isHandlerImageError e = false)
  /\ bothHandlerAndImageError name <> neitherHandlerNorImageError name
  /\ isHandlerImageError (bothHandlerAndImageError name) = true
  /\ isHandlerImageError (neitherHandlerNorImageError name) = true.
Proof.
  intros Hf. pose proof (validate_reads name st fo Hf) as Hv. cbv zeta in Hv.
  repeat split.
  - intros Hb. unfold compileFunction. rewrite Hv.
    destruct (truthy (getP "handler" fo)), (truthy (getP "image" fo));
      simpl in *; try discriminate; reflexivity.
  - intros Hn. unfold compileFunction. rewrite Hv, Hn. reflexivity.
  - intros Hx e He.
    destruct (truthy (getP "handler" fo)), (truthy (getP "image" fo));
      simpl in *; try discriminate;
      eapply compileFunction_error_after_validate; eauto.
  - unfold bothHandlerAndImageError, neitherHandlerNorImageError.
    intros H. inversion H.
Qed.
End HandlerImage.

(** The guard at work on the sample service. *)
Lemma compileFunction_handler_image_guard_witness :
  getFunction "hello" (Fixture.service [("hello", Fixture.hello)])
    = Some (entries Fixture.hello)
  /\ forall e,
       snd (compileFunction Fixture.env "hello"
              (Fixture.service [("hello", Fixture.hello)])) = Err e ->
       isHandlerImageError e = false.
Proof.
  split; [reflexivity|].
  apply (proj1 (proj2 (proj2
           (compileFunction_handler_image_guard Fixture.env "hello"
              (Fixture.service [("hello", Fixture.hello)])
              (entries Fixture.hello) eq_refl)))).
  reflexivity.
Defined.

(** ** What the builders leave alone *)

Section Builders.
Variable E : Env.

Lemma props_setProp k v r : props (setProp k v r) = setP k v (props r).
Proof. unfold props at 1, setProp. now rewrite getP_setP_eq. Qed.

Lemma props_setP k v r : k <> "Properties" -> props (setP k v r) = props r.
Proof. intros. unfold props. rewrite getP_setP_ne; auto. Qed.

Lemma props_setCode k v r :
  props (setCode k v r)
  = setP "Code" (VObj (setP k v (entries (getP "Code" (props r))))) (props r).
Proof. unfold setCode. apply props_setProp. Qed.

Lemma getP_setProp k j v r :
  k <> "Properties" -> getP k (setProp j v r) = getP k r.
Proof. intros. unfold setProp. now rewrite getP_setP_ne. Qed.

(** Simplifies reads of one key through the writes of a builder. *)
Ltac through :=
  repeat first
    [ rewrite props_setProp
    | rewrite props_setCode
    | rewrite props_setP by discriminate
    | rewrite lookup_setP_ne by discriminate
    | rewrite getP_setP_ne by discriminate
    | rewrite getP_setProp by discriminate ].

Ltac cases :=
  repeat match goal with
         | |- context [if ?b then _ else _] => destruct b
         | |- context [match ?x with _ => _ end] => destruct x
         end.

(** The two properties written last, and by nothing before. *)
Variable k : string.
Hypothesis Hk : k = rce \/ k = "Layers".

Ltac keeps := destruct Hk as [-> | ->]; unfold rce; cbv zeta; cases; simpl;
              through; reflexivity.

Lemma handlerProperties_keeps fo a st r :
  lookup k (props (handlerProperties E fo a st r)) = lookup k (props r).
Proof. unfold handlerProperties. keeps. Qed.

Lemma commonProperties_keeps fo st r :
  lookup k (props (commonProperties fo st r)) = lookup k (props r).
Proof. unfold commonProperties. keeps. Qed.

Lemma compileOnError_keeps fo st r :
  lookup k (props (snd (compileOnError fo st r))) = lookup k (props r).
Proof. unfold compileOnError. keeps. Qed.

Lemma compileKmsKey_keeps fo st r :
  lookup k (props (snd (compileKmsKey fo st r))) = lookup k (props r).
Proof. unfold compileKmsKey. keeps. Qed.

Lemma compileTracing_keeps fo st r :
  lookup k (props (snd (compileTracing fo st r))) = lookup k (props r).
Proof. unfold compileTracing. keeps. Qed.

Lemma compileEnvironment_keeps fo st r :
  lookup k (props (compileEnvironment fo st r)) = lookup k (props r).
Proof. unfold compileEnvironment. keeps. Qed.

Lemma compileRole_keeps r role :
  lookup k (props (roleOf r role)) = lookup k (props r).
Proof.
  destruct (roleOf_cases r role) as [-> | [[v ->] | (v & d & ->)]];
    [reflexivity| |]; destruct Hk as [-> | ->]; unfold rce; through; reflexivity.
Qed.

Lemma compileVpc_keeps fo st r :
  lookup k (props (snd (compileVpc fo st r))) = lookup k (props r).
Proof. unfold compileVpc. keeps. Qed.

Lemma compileFileSystem_keeps name fo st r st' r' :
  compileFileSystem name fo st r = (st', Ok r') ->
  lookup k (props r') = lookup k (props r).
Proof.
  unfold compileFileSystem.
  destruct Hk as [-> | ->]; unfold rce; cbv zeta;
    cases; intros H; inversion H; subst; through; reflexivity.
Qed.
End Builders.

(** ** Reserved concurrency *)

Section ReservedConcurrency.
Variable E : Env.

Lemma compileLogsAndLayers_rce name fo st r :
  lookup rce (props (compileLogsAndLayers E name fo st r)) = lookup rce (props r).
Proof.
  unfold compileLogsAndLayers, rce. cbv zeta.
  repeat match goal with
         | |- context [if ?b then _ else _] => destruct b
         end;
    rewrite ?props_setProp, ?props_setP by discriminate;
    rewrite ?lookup_setP_ne by discriminate; reflexivity.
Qed.

Lemma compileVpc_functionObject fo st r k :
  k <> "vpc" -> getP k (fst (fst (compileVpc fo st r))) = getP k fo.
Proof.
  intros Hk. unfold compileVpc. cbv zeta.
  repeat match goal with
         | |- context [if ?b then _ else _] => destruct b
         | |- context [match ?x with _ => _ end] => destruct x
         end; simpl; rewrite ?getP_setP_ne by auto; reflexivity.
Qed.

(** What [buildFunction] hands on, spelled out. *)
Lemma buildFunction_ok name fo st st' ctx :
  buildFunction E name fo st = (st', Ok ctx) ->
  exists r0 st0,
    functionResource ctx
    = compileLogsAndLayers E name (functionObject ctx) st0
        (compileReservedConcurrency (functionObject ctx) r0)
    /\ (forall j, j = rce \/ j = "Layers" -> lookup j (props r0) = None)
    /\ (forall k, ~ In k ["memory"; "timeout"; "runtime"; "vpc"] ->
                  getP k (functionObject ctx) = getP k fo)
    /\ st' = putFunction name (functionObject ctx)
               (putResource (getLambdaLogicalId E name) (functionResource ctx) st0).
Proof.
  unfold buildFunction.
  destruct (if truthy (getP "image" fo) then _ else _) as [uri sha].
  cbv zeta.
  match goal with
  | |- context [let '(_, _) := ?x in _] => destruct x as [[fo1 afp] r1] eqn:H1
  end.
  destruct (compileOnError fo1 st (commonProperties fo1 st r1)) as [s2 r2] eqn:H2.
  destruct (compileKmsKey fo1 s2 r2) as [s3 r3] eqn:H3.
  destruct (compileTracing fo1 s3 r3) as [s4 r4] eqn:H4.
  destruct (compileRole _ _) as [rr|er] eqn:Hrole; [|discriminate].
  apply compileRole_ok in Hrole. subst rr.
  match goal with
  | |- context [compileVpc ?f ?s ?r] =>
      destruct (compileVpc f s r) as [[fo5 s5] r5] eqn:H5
  end.
  destruct (compileFileSystem name fo5 s5 r5) as [s6 [r6|e6]] eqn:H6;
    intros H; inversion H; subst; clear H. simpl.
  exists r6, s6. split; [reflexivity|]. split; [|split; [|reflexivity]].
  - intros j Hj.
    rewrite (compileFileSystem_keeps j Hj _ _ _ _ _ _ H6).
    replace r5 with (snd (compileVpc fo1 s4
                            (roleOf (compileEnvironment fo1 s4 r4)
                               (or_ (getCustomExecutionRole E (provider s4)
                                       (getP "role" fo1))
                                    (VStr "IamRoleLambdaExecution")))))
      by now rewrite H5.
    rewrite (compileVpc_keeps j Hj), (compileRole_keeps j Hj),
      (compileEnvironment_keeps j Hj).
    replace r4 with (snd (compileTracing fo1 s3 r3)) by now rewrite H4.
    rewrite (compileTracing_keeps j Hj).
    replace r3 with (snd (compileKmsKey fo1 s2 r2)) by now rewrite H3.
    rewrite (compileKmsKey_keeps j Hj).
    replace r2 with (snd (compileOnError fo1 st (commonProperties fo1 st r1)))
      by now rewrite H2.
    rewrite (compileOnError_keeps j Hj), (commonProperties_keeps j Hj).
    revert H1.
    repeat match goal with
           | |- context [if ?b then _ else _] => destruct b
           | |- context [match ?x with _ => _ end] => destruct x
           end; intros H1; inversion H1; subst;
      rewrite ?(handlerProperties_keeps E j Hj);
      destruct Hj as [-> | ->]; reflexivity.
  - intros k Hk.
    replace fo5 with (fst (fst (compileVpc fo1 s4
                            (roleOf (compileEnvironment fo1 s4 r4)
                               (or_ (getCustomExecutionRole E (provider s4)
                                       (getP "role" fo1))
                                    (VStr "IamRoleLambdaExecution"))))))
      by now rewrite H5.
    rewrite compileVpc_functionObject by (intros ->; apply Hk; simpl; tauto).
    assert (Hm : k <> "memory") by (intros ->; apply Hk; simpl; tauto).
    assert (Ht : k <> "timeout") by (intros ->; apply Hk; simpl; tauto).
    assert (Hr : k <> "runtime") by (intros ->; apply Hk; simpl; tauto).
    revert H1.
    repeat match goal with
           | |- context [if ?b then _ else _] => destruct b
           end; intros H1; inversion H1; subst;
      rewrite ?getP_setP_ne by auto; reflexivity.
Qed.
Lemma validate_ok name st fo st1 fo1 :
  getFunction name st = Some fo ->
  validate name st = (st1, Ok fo1) ->
  fo1 = setP "package" (or_ (getP "package" fo) (VObj [])) fo
  /\ st1 = putFunction name fo1 st
  /\ xorb (truthy (getP "handler" fo)) (truthy (getP "image" fo)) = true.
Proof.
  intros Hf. rewrite (validate_reads name st fo Hf). cbv zeta.
  destruct (truthy (getP "handler" fo)), (truthy (getP "image" fo)); simpl;
    intros H; inversion H; auto.
Qed.

(** C10.  For a declared function that gets past the guards, the compute
    resource put into the template carries [ReservedConcurrentExecutions]
    equal to 0 when [reservedConcurrency] is the number 0, and has no such
    property when [reservedConcurrency] is unset. *)
Theorem reservedConcurrency_zero_is_kept name st fo st1 fo1 st2 ctx :
  getFunction name st = Some fo ->
  validate name st = (st1, Ok fo1) ->
  buildFunction E name fo1 st1 = (st2, Ok ctx) ->
  lookup (getLambdaLogicalId E name) (Resources st2)
    = Some (VObj (functionResource ctx))
  /\ (getP "reservedConcurrency" fo = VNum 0 ->
      lookup "ReservedConcurrentExecutions" (props (functionResource ctx))
        = Some (VNum 0))
  /\ (isNullish (getP "reservedConcurrency" fo) = true ->
      lookup "ReservedConcurrentExecutions" (props (functionResource ctx))
        = None).
Proof.
  intros Hf Hv Hb.
  destruct (validate_ok _ _ _ _ _ Hf Hv) as (-> & -> & _).
  destruct (buildFunction_ok _ _ _ _ _ Hb) as (r0 & st0 & Hr & Hr0 & Hfo & ->).
  assert (Hrc : getP "reservedConcurrency" (functionObject ctx)
                = getP "reservedConcurrency" fo).
  { rewrite Hfo by (simpl; intuition discriminate).
    now rewrite getP_setP_ne by discriminate. }
  split; [|split].
  - simpl. apply lookup_setP_eq.
  - intros H0. rewrite Hr. fold rce. rewrite compileLogsAndLayers_rce.
    unfold compileReservedConcurrency. cbv zeta. rewrite Hrc, H0. simpl.
    rewrite props_setProp. apply lookup_setP_eq.
  - intros Hn. rewrite Hr. fold rce. rewrite compileLogsAndLayers_rce.
    unfold compileReservedConcurrency. cbv zeta. rewrite Hrc.
    destruct (getP "reservedConcurrency" fo); try discriminate; simpl;
      apply Hr0; now left.
Qed.
End ReservedConcurrency.

(** The sample function with [reservedConcurrency: 0]. *)
Lemma reservedConcurrency_zero_is_kept_witness :
  exists st1 fo1 st2 ctx,
    let fo := setP "reservedConcurrency" (VNum 0) (entries Fixture.hello) in
    let st := Fixture.service [("hello", VObj fo)] in
    getFunction "hello" st = Some fo
    /\ validate "hello" st = (st1, Ok fo1)
    /\ buildFunction Fixture.env "hello" fo1 st1 = (st2, Ok ctx)
    /\ lookup "ReservedConcurrentExecutions" (props (functionResource ctx))
       = Some (VNum 0).
Proof.
  do 4 eexists. cbv zeta.
  split; [reflexivity|]. split; [reflexivity|]. split; [reflexivity|].
  refine (proj1 (proj2
            (reservedConcurrency_zero_is_kept Fixture.env "hello"
               (Fixture.service
                  [("hello", VObj (setP "reservedConcurrency" (VNum 0)
                                     (entries Fixture.hello)))])
               (setP "reservedConcurrency" (VNum 0) (entries Fixture.hello))
               _ _ _ _ eq_refl eq_refl eq_refl)) _).
  reflexivity.
Defined.

(** ** Provisioned concurrency against SnapStart *)

Section Conflict.
Variable E : Env.

Lemma versionStart_functionObject name ctx st :
  functionObject (snd (fst (versionStart E name ctx st))) = functionObject ctx.
Proof. unfold versionStart. destruct (truthy _); reflexivity. Qed.

Lemma versionFinish_conflict name ctx lcs st :
  truthy (getP "provisionedConcurrency" (functionObject ctx)) = true ->
  truthy (getP "snapStart" (functionObject ctx)) = true ->
  (exists e, snd (versionFinish E name ctx lcs st) = Err e
             /\ isTypeError e = true
             /\ versionDigest E (functionObject ctx) ctx lcs st = Err e)
  \/ (snd (versionFinish E name ctx lcs st)
        = Err (provisionedConcurrencyAndSnapStartError name)
      /\ exists d, versionDigest E (functionObject ctx) ctx lcs st = Ok d).
Proof.
  intros Hp Hs. unfold versionFinish.
  destruct (versionDigest E (functionObject ctx) ctx lcs st) as [d|e] eqn:Hd.
  - right. cbv zeta. rewrite !getP_setP_ne by discriminate.
    rewrite Hp, Hs. simpl. eauto.
  - left. exists e. simpl. repeat split; auto.
    eapply versionDigest_error; eauto.
Qed.

(** C8.  A declared function with both [provisionedConcurrency] and
    [snapStart] set never compiles: compilation ends in an error, which
    is the provisioned-concurrency-and-SnapStart error naming the function
    unless one of the checks before line 577 (handler / image, a role that
    is no string and no object, file system without VPC, a layer reference
    without content) has thrown first; and
    it is that error whenever the function gets as far as its version
    digest. *)
Theorem provisionedConcurrency_excludes_snapStart name st fo :
  getFunction name st = Some fo ->
  truthy (getP "provisionedConcurrency" fo) = true ->
  truthy (getP "snapStart" fo) = true ->
  (exists e,
      snd (compileFunction E name st) = Err e
      /\ (e = provisionedConcurrencyAndSnapStartError name
          \/ e = neitherHandlerNorImageError name
          \/ e = bothHandlerAndImageError name
          \/ e = missingVpcError name
          \/ isTypeError e = true))
  /\ (forall st1 fo1 st2 ctx d,
        validate name st = (st1, Ok fo1) ->
        buildFunction E name fo1 st1 = (st2, Ok ctx) ->
        versionDigest E (functionObject ctx)
          (snd (fst (versionStart E name ctx st2)))
          (snd (versionStart E name ctx st2))
          (fst (fst (versionStart E name ctx st2))) = Ok d ->
        snd (compileFunction E name st)
          = Err (provisionedConcurrencyAndSnapStartError name)).
Proof.
  intros Hf Hp Hs.
  assert (Hreach : forall st1 fo1 st2 ctx,
             validate name st = (st1, Ok fo1) ->
             buildFunction E name fo1 st1 = (st2, Ok ctx) ->
             truthy (getP "provisionedConcurrency" (functionObject ctx)) = true
             /\ truthy (getP "snapStart" (functionObject ctx)) = true).
  { intros st1 fo1 st2 ctx Hv Hb.
    destruct (validate_ok _ _ _ _ _ Hf Hv) as (-> & -> & _).
    destruct (buildFunction_ok E _ _ _ _ _ Hb) as (_ & _ & _ & _ & Hfo & _).
    rewrite !Hfo by (simpl; intuition discriminate).
    rewrite !getP_setP_ne by discriminate. auto. }
  split.
  - unfold compileFunction.
    pose proof (validate_reads name st fo Hf) as Hv. cbv zeta in Hv.
    destruct (validate name st) as [st1 [fo1|e1]] eqn:Hv1.
    + destruct (buildFunction E name fo1 st1) as [st2 [ctx|e2]] eqn:Hb.
      * destruct (Hreach _ _ _ _ eq_refl Hb) as [Hp' Hs'].
        unfold mintsVersion. rewrite Hp', orb_true_r. simpl.
        pose proof (versionStart_functionObject name ctx st2) as Hvs.
        destruct (versionStart E name ctx st2) as [[st3 ctx3] lcs].
        simpl in Hvs. unfold finishFunction.
        rewrite <- Hvs in Hp', Hs'.
        destruct (versionFinish_conflict name ctx3 lcs st3 Hp' Hs')
          as [(e & He & Ht & _)|[He _]];
          destruct (versionFinish E name ctx3 lcs st3) as [st4 [u|e4]];
          simpl in He; try discriminate; simpl; eauto 8.
      * simpl. exists e2. split; auto.
        destruct (buildFunction_error _ _ _ _ _ _ Hb) as [->|Ht]; auto 6.
    + simpl. exists e1. split; auto.
      destruct (truthy (getP "handler" fo)), (truthy (getP "image" fo));
        simpl in Hv; inversion Hv; auto.
  - intros st1 fo1 st2 ctx d Hv Hb Hd.
    destruct (Hreach _ _ _ _ Hv Hb) as [Hp' Hs'].
    unfold compileFunction. rewrite Hv, Hb.
    unfold mintsVersion. rewrite Hp', orb_true_r. simpl.
    pose proof (versionStart_functionObject name ctx st2) as Hvs.
    destruct (versionStart E name ctx st2) as [[st3 ctx3] lcs].
    simpl in Hvs, Hd. unfold finishFunction.
    rewrite <- Hvs in Hp', Hs', Hd.
    destruct (versionFinish_conflict name ctx3 lcs st3 Hp' Hs')
      as [(e & He & Ht & Hde)|[He _]].
    + congruence.
    + destruct (versionFinish E name ctx3 lcs st3) as [st4 [u|e4]];
        simpl in He; try discriminate; simpl; auto.
Qed.
End Conflict.

(** The sample function with both settings: the conflict is what stops
    it. *)
Lemma provisionedConcurrency_excludes_snapStart_witness :
  let fo := setP "snapStart" (VBool true)
              (setP "provisionedConcurrency" (VNum 2) (entries Fixture.hello)) in
  snd (compileFunction Fixture.env "hello" (Fixture.service [("hello", VObj fo)]))
  = Err (provisionedConcurrencyAndSnapStartError "hello").
Proof.
  intros fo.
  refine (proj2 (provisionedConcurrency_excludes_snapStart Fixture.env "hello"
                   (Fixture.service [("hello", VObj fo)]) fo
                   eq_refl eq_refl eq_refl) _ _ _ _ _ eq_refl eq_refl _).
  reflexivity.
Defined.

(** ** De-duplication *)

Module UniqFacts.

Lemma sameValueZero_eq a b : sameValueZero a b = true -> a = b.
Proof.
  destruct a, b; simpl; try discriminate; intros H; f_equal; auto.
  - now apply Bool.eqb_prop.
  - now apply Z.eqb_eq.
  - now apply String.eqb_eq.
Qed.

Lemma sameValueZero_refl a : isPrimitive a = true -> sameValueZero a a = true.
Proof.
  destruct a; simpl; try discriminate; intros _; auto.
  - apply Bool.eqb_reflx.
  - apply Z.eqb_refl.
  - apply String.eqb_refl.
Qed.

Section By.
Context {A : Type} (eqb : A -> A -> bool).

Lemma uniqBy_incl seen l x : In x (uniqBy eqb seen l) -> In x l.
Proof.
  revert seen. induction l as [|y r IH]; intros seen; simpl; [tauto|].
  destruct (existsb (eqb y) seen).
  - intros H. right. eapply IH; eauto.
  - intros [H|H]; [now left|]. right. eapply IH; eauto.
Qed.

(** Whatever equals itself is represented among what is kept or was seen. *)
Lemma uniqBy_covered seen l x :
  In x l -> eqb x x = true ->
  existsb (eqb x) (uniqBy eqb seen l ++ seen) = true.
Proof.
  revert seen. induction l as [|y r IH]; intros seen; simpl; [tauto|].
  intros Hin Hx.
  destruct (existsb (eqb y) seen) eqn:Hy.
  - destruct Hin as [->|Hin]; [|now apply IH].
    rewrite existsb_app, Hy. apply orb_true_r.
  - destruct Hin as [->|Hin]; simpl; [now rewrite Hx|].
    specialize (IH (y :: seen) Hin Hx).
    rewrite existsb_app in IH. simpl in IH.
    rewrite existsb_app.
    destruct (eqb x y); [reflexivity|]. exact IH.
Qed.

(** What is kept equals nothing seen and nothing kept before it. *)
Lemma uniqBy_unseen seen l :
  Forall (fun y => existsb (eqb y) seen = false) (uniqBy eqb seen l).
Proof.
  revert seen. induction l as [|y r IH]; intros seen; simpl; [constructor|].
  destruct (existsb (eqb y) seen) eqn:Hy; [apply IH|].
  constructor; [exact Hy|].
  eapply Forall_impl; [|apply (IH (y :: seen))].
  simpl. intros z Hz. apply orb_false_iff in Hz. tauto.
Qed.

Lemma uniqBy_snoc seen l s :
  uniqBy eqb seen (l ++ [s])
  = if existsb (eqb s) (uniqBy eqb seen l ++ seen) then uniqBy eqb seen l
    else (uniqBy eqb seen l ++ [s])%list.
Proof.
  revert seen. induction l as [|y r IH]; intros seen; simpl.
  - destruct (existsb (eqb s) seen); reflexivity.
  - destruct (existsb (eqb y) seen) eqn:Hy; [apply IH|].
    rewrite IH. simpl.
    rewrite !existsb_app. simpl.
    destruct (eqb s y); simpl.
    + now rewrite orb_true_r.
    + now destruct (_ || _).
Qed.
End By.

(** *** [_.uniq] *)

Lemma uniqBy_keeps seen l x :
  In x l -> In x (uniqBy sameValueZero seen l) \/ In x seen.
Proof.
  revert seen. induction l as [|y r IH]; intros seen; simpl; [tauto|].
  intros Hin.
  destruct (existsb (sameValueZero y) seen) eqn:Hy.
  - destruct Hin as [->|Hin]; [|now apply IH].
    right. apply existsb_exists in Hy as (z & Hz & He).
    apply sameValueZero_eq in He. now subst.
  - destruct Hin as [->|Hin]; [left; now left|].
    destruct (IH (y :: seen) Hin) as [H|[->|H]]; simpl; auto.
Qed.

Lemma uniqBy_fresh seen l x :
  forallb isPrimitive l = true ->
  In x (uniqBy sameValueZero seen l) -> ~ In x seen.
Proof.
  revert seen. induction l as [|y r IH]; intros seen; simpl; [tauto|].
  intros Hp. apply andb_true_iff in Hp as [Hy Hr].
  destruct (existsb (sameValueZero y) seen) eqn:He; [now apply IH|].
  intros [->|Hin] Hs.
  - assert (Ht : existsb (sameValueZero x) seen = true).
    { apply existsb_exists. exists x. split; auto.
      now apply sameValueZero_refl. }
    congruence.
  - apply (IH (y :: seen) Hr Hin). now right.
Qed.

Lemma uniqBy_NoDup seen l :
  forallb isPrimitive l = true -> NoDup (uniqBy sameValueZero seen l).
Proof.
  revert seen. induction l as [|y r IH]; intros seen; simpl; [constructor|].
  intros Hp. apply andb_true_iff in Hp as [Hy Hr].
  destruct (existsb (sameValueZero y) seen); [now apply IH|].
  constructor; [|now apply IH].
  intros Hin. apply (uniqBy_fresh _ _ _ Hr Hin). now left.
Qed.

Lemma uniqList_In l x : In x (uniqList l) <-> In x l.
Proof.
  unfold uniqList. split; [apply uniqBy_incl|].
  intros H. destruct (uniqBy_keeps [] l x H) as [H'|[]]. exact H'.
Qed.

Lemma uniqList_NoDup l : forallb isPrimitive l = true -> NoDup (uniqList l).
Proof. apply uniqBy_NoDup. Qed.

(** *** [_.isEqual] *)

Lemma lookup_own k u (l : obj) :
  (fix each (l : obj) : bool :=
     match l with
     | [] => true
     | (k, u) :: r =>
         negb (existsb (fun kv => String.eqb (fst kv) k) r)
         && wellFormed u && each r
     end) l = true ->
  In (k, u) l -> lookup k l = Some u.
Proof.
  induction l as [|[j w] r IH]; simpl; [tauto|].
  intros Hw. apply andb_true_iff in Hw as [Hw Hr].
  apply andb_true_iff in Hw as [Hj _].
  intros [H|Hin].
  - inversion H; subst. now rewrite String.eqb_refl.
  - destruct (String.eqb j k) eqn:Hjk.
    + apply String.eqb_eq in Hjk. subst j.
      apply negb_true_iff in Hj.
      assert (Ht : existsb (fun kv => String.eqb (fst kv) k) r = true).
      { apply existsb_exists. exists (k, u). split; auto.
        apply String.eqb_refl. }
      congruence.
    + now apply IH.
Qed.

Lemma isEqual_refl v : wellFormed v = true -> isEqual v v = true.
Proof.
  induction v as [| | b | n | s | l IH | l IH] using value_ind';
    simpl; auto.
  - intros _. apply Bool.eqb_reflx.
  - intros _. apply Z.eqb_refl.
  - intros _. apply String.eqb_refl.
  - induction IH as [|x r Hx _ IHr]; simpl; auto.
    intros Hw. apply andb_true_iff in Hw as [H1 H2].
    now rewrite Hx, IHr.
  - intros Hw. rewrite Nat.eqb_refl. simpl.
    pose proof (fun k u => lookup_own k u l Hw) as Hown.
    assert (Hall : Forall (fun kv => wellFormed (snd kv) = true) l).
    { clear IH Hown. induction l as [|[k u] r IHr]; constructor.
      - simpl in *. apply andb_true_iff in Hw as [Hw _].
        apply andb_true_iff in Hw as [_ Hw]. exact Hw.
      - apply IHr. simpl in Hw. apply andb_true_iff in Hw as [_ Hw]. exact Hw. }
    clear Hw. revert Hown. generalize l at 2 3 as y. intros y Hown.
    induction IH as [|[k u] r Hu _ IHr]; [reflexivity|].
    inversion Hall as [|? ? Hwu Hwr]; subst. simpl in Hu, Hwu.
    rewrite (Hown k u) by (now left).
    rewrite (Hu Hwu). simpl. apply IHr; auto.
    intros k' u' Hin. apply Hown. now right.
Qed.

Lemma uniqBy_apart seen l : apart (uniqBy isEqual seen l).
Proof.
  revert seen. induction l as [|y r IH]; intros seen; simpl; [exact I|].
  destruct (existsb (isEqual y) seen) eqn:Hy; [apply IH|].
  simpl. split; [|apply IH].
  eapply Forall_impl; [|apply (uniqBy_unseen isEqual (y :: seen) r)].
  simpl. intros z Hz. apply orb_false_iff in Hz. tauto.
Qed.

Lemma uniqBy_fixed seen l :
  apart l -> Forall (fun y => existsb (isEqual y) seen = false) l ->
  uniqBy isEqual seen l = l.
Proof.
  revert seen. induction l as [|y r IH]; intros seen Ha Hs; simpl; auto.
  destruct Ha as [Hy Hr]. inversion Hs as [|? ? Hys Hrs]; subst.
  rewrite Hys. f_equal. apply IH; auto.
  apply Forall_forall. intros z Hz. simpl.
  rewrite Forall_forall in Hy, Hrs.
  now rewrite (Hy z Hz), (Hrs z Hz).
Qed.

End UniqFacts.

(** ** CORS of a function URL *)

Section Cors.
Variable E : Env.

Lemma overrideCors_cases field urlCors cors :
  overrideCors field urlCors cors = setP field (uniq (get field urlCors)) cors
  \/ overrideCors field urlCors cors = deleteP field cors
  \/ overrideCors field urlCors cors = cors.
Proof.
  unfold overrideCors.
  destruct (truthy (get field urlCors)); auto.
  destruct (get field urlCors); auto.
Qed.

Lemma overrideCors_list field urlCors cors l :
  get field urlCors = VArr l ->
  overrideCors field urlCors cors = setP field (VArr (uniqList l)) cors.
Proof. intros H. unfold overrideCors. now rewrite H. Qed.

Lemma overrideCors_null field urlCors cors :
  get field urlCors = VNull -> overrideCors field urlCors cors = deleteP field cors.
Proof. intros H. unfold overrideCors. now rewrite H. Qed.

Lemma overrideCors_absent field urlCors cors :
  get field urlCors = VUndef -> overrideCors field urlCors cors = cors.
Proof. intros H. unfold overrideCors. now rewrite H. Qed.

(** Settles the field at hand with [rw], tries every outcome for the two
    others and for the two optional settings, and reads the result off. *)
Ltac corsField rw :=
  unfold resolveCors; cbv zeta;
  change (assign [] defaultCors) with defaultCors;
  rewrite ?rw;
  repeat match goal with
         | |- context [overrideCors ?f ?c ?x] =>
             destruct (overrideCors_cases f c x) as [-> | [-> | ->]]
         end;
  repeat match goal with
         | |- context [if ?b then _ else _] => destruct b
         end;
  reflexivity.

Lemma corsProperties_override urlCors field Field dflt l :
  In (field, Field, dflt) corsFields ->
  get field urlCors = VArr l ->
  lookup Field (corsProperties (resolveCors urlCors))
  = Some (VArr (uniqList l)).
Proof.
  intros Hin Hg. simpl in Hin.
  pose proof (fun cors => overrideCors_list field urlCors cors l Hg) as Hrw.
  destruct Hin as [H|[H|[H|[]]]]; inversion H; subst; clear H; corsField Hrw.
Qed.

Lemma corsProperties_removed urlCors field Field dflt :
  In (field, Field, dflt) corsFields ->
  get field urlCors = VNull ->
  lookup Field (corsProperties (resolveCors urlCors)) = Some VUndef.
Proof.
  intros Hin Hg. simpl in Hin.
  pose proof (fun cors => overrideCors_null field urlCors cors Hg) as Hrw.
  destruct Hin as [H|[H|[H|[]]]]; inversion H; subst; clear H; corsField Hrw.
Qed.

Lemma corsProperties_default urlCors field Field dflt :
  In (field, Field, dflt) corsFields ->
  get field urlCors = VUndef ->
  lookup Field (corsProperties (resolveCors urlCors)) = Some dflt.
Proof.
  intros Hin Hg. simpl in Hin.
  pose proof (fun cors => overrideCors_absent field urlCors cors Hg) as Hrw.
  destruct Hin as [H|[H|[H|[]]]]; inversion H; subst; clear H; corsField Hrw.
Qed.

Lemma urlResource_cors name fo :
  truthy (get "cors" (getP "url" fo)) = true ->
  getP "Cors" (props (urlResource E name fo))
  = VObj (corsProperties (resolveCors (get "cors" (getP "url" fo)))).
Proof.
  intros Hc. unfold urlResource. cbv zeta. rewrite Hc.
  destruct (isStr (get "invokeMode" (getP "url" fo)) "RESPONSE_STREAM");
    rewrite ?props_setProp; rewrite ?getP_setP_ne by discriminate;
    rewrite ?props_setProp; apply getP_setP_eq.
Qed.

(** A member that holds [undefined] is not written out. *)
Lemma members_undefined {B} (f : string * value -> list B) k (o : obj) :
  lookup k o = Some VUndef ->
  (forall j, f (j, VUndef) = []) ->
  flat_map f (deleteP k o) = flat_map f o.
Proof.
  intros Hk Hf.
  induction o as [|[j w] r IH]; simpl in *; [discriminate|].
  destruct (String.eqb j k).
  - inversion Hk; subst. now rewrite Hf.
  - simpl. now rewrite IH.
Qed.

Lemma stringify_undefined_member quote k (o : obj) :
  lookup k o = Some VUndef ->
  Json.stringify quote (VObj (deleteP k o)) = Json.stringify quote (VObj o).
Proof.
  intros Hk. cbn [Json.stringify].
  now rewrite (members_undefined _ k o Hk).
Qed.

(** C7.  In the URL resource of a function whose [url.cors] is enabled,
    each of the three CORS fields with a default is settled on its own.
    A list of strings (or other primitives) given for the field replaces
    the default by that list with repeated entries removed: the same
    members, each once.  A field left out keeps its default.  An explicit
    [null] takes the default away, yet the compiled [Cors] object keeps
    the field: lines 693-698 write its key in every case, here with the
    value [undefined], and only the serialised resource lacks it. *)
Theorem cors_fields_override_the_default name fo field Field dflt :
  truthy (get "cors" (getP "url" fo)) = true ->
  In (field, Field, dflt) corsFields ->
  let given := get field (get "cors" (getP "url" fo)) in
  let cors := entries (getP "Cors" (props (urlResource E name fo))) in
  (forall l, given = VArr l -> forallb isPrimitive l = true ->
             lookup Field cors = Some (VArr (uniqList l))
             /\ NoDup (uniqList l)
             /\ (forall x, In x (uniqList l) <-> In x l))
  /\ (given = VNull ->
      lookup Field cors = Some VUndef
      /\ forall quote,
           Json.stringify quote (VObj cors)
           = Json.stringify quote (VObj (deleteP Field cors)))
  /\ (given = VUndef -> lookup Field cors = Some dflt).
Proof.
  intros Hc Hin given cors. subst given cors.
  rewrite (urlResource_cors name fo Hc). cbn [entries].
  split; [|split].
  - intros l Hl Hp. split; [|split].
    + eapply corsProperties_override; eauto.
    + now apply UniqFacts.uniqList_NoDup.
    + apply UniqFacts.uniqList_In.
  - intros Hn.
    assert (Hu : lookup Field
                   (corsProperties (resolveCors (get "cors" (getP "url" fo))))
                 = Some VUndef)
      by (eapply corsProperties_removed; eauto).
    split; [exact Hu|].
    intros quote. symmetry. now apply stringify_undefined_member.
  - eapply corsProperties_default; eauto.
Qed.
End Cors.

(** The override law on the sample function: origins nulled, headers
    overridden with a repeated entry, methods left out. *)
Lemma cors_fields_override_the_default_witness :
  let fo :=
    setP "url"
      (VObj [("cors",
              VObj [("allowedOrigins", VNull);
                    ("allowedHeaders",
                     VArr [VStr "X-A"; VStr "X-B"; VStr "X-A"])])])
      (entries Fixture.hello) in
  let cors := entries (getP "Cors" (props (urlResource Fixture.env "hello" fo))) in
  lookup "AllowOrigins" cors = Some VUndef
  /\ lookup "AllowHeaders" cors = Some (VArr [VStr "X-A"; VStr "X-B"])
  /\ lookup "AllowMethods" cors = Some (VArr [VStr "*"]).
Proof.
  intros fo cors.
  split; [|split].
  - exact (proj1 (proj1 (proj2
             (cors_fields_override_the_default Fixture.env "hello" fo
                "allowedOrigins" "AllowOrigins" _ eq_refl (or_introl eq_refl)))
             eq_refl)).
  - exact (proj1 (proj1
             (cors_fields_override_the_default Fixture.env "hello" fo
                "allowedHeaders" "AllowHeaders" _ eq_refl
                (or_intror (or_introl eq_refl)))
             [VStr "X-A"; VStr "X-B"; VStr "X-A"] eq_refl eq_refl)).
  - exact (proj2 (proj2
             (cors_fields_override_the_default Fixture.env "hello" fo
                "allowedMethods" "AllowMethods" _ eq_refl
                (or_intror (or_intror (or_introl eq_refl)))))
             eq_refl).
Defined.

(** C7 fails as stated: with [allowedOrigins: null] the compiled [Cors]
    object is not without an origins field.  It has the property
    [AllowOrigins], which holds [undefined]. *)
Lemma cors_null_field_is_kept_counterexample :
  let fo :=
    setP "url" (VObj [("cors", VObj [("allowedOrigins", VNull)])])
      (entries Fixture.hello) in
  let cors := entries (getP "Cors" (props (urlResource Fixture.env "hello" fo))) in
  get "allowedOrigins" (get "cors" (getP "url" fo)) = VNull
  /\ hasP "AllowOrigins" cors = true
  /\ lookup "AllowOrigins" cors = Some VUndef
  /\ map fst cors
     = ["AllowCredentials"; "AllowHeaders"; "AllowMethods"; "AllowOrigins";
        "ExposeHeaders"; "MaxAge"].
Proof.
  cbv zeta. repeat split; vm_compute; reflexivity.
Qed.

(** ** What the phases change in the service *)

Section Frames.
Variable E : Env.

Lemma setIamStatements_same st : setIamStatements (iamStatements st) st = st.
Proof. now destruct st. Qed.

Lemma pushStatement_frame s st :
  pushStatement s st = setIamStatements (iamStatements (pushStatement s st)) st.
Proof.
  unfold pushStatement. destruct (iamStatements st) eqn:Hi; simpl; auto.
  symmetry. apply setIamStatements_same.
Qed.

Lemma unionStatement_frame s st :
  unionStatement s st = setIamStatements (iamStatements (unionStatement s st)) st.
Proof.
  unfold unionStatement. destruct (iamStatements st) eqn:Hi; simpl; auto.
  symmetry. apply setIamStatements_same.
Qed.

Lemma compileOnError_frame fo st r :
  exists iam, fst (compileOnError fo st r) = setIamStatements iam st.
Proof.
  unfold compileOnError. cbv zeta.
  destruct (truthy _); [destruct (getP "onError" fo)|]; simpl;
    try (exists (iamStatements st); now rewrite setIamStatements_same).
  eexists. apply pushStatement_frame.
Qed.

Lemma compileKmsKey_frame fo st r :
  exists iam, fst (compileKmsKey fo st r) = setIamStatements iam st.
Proof.
  unfold compileKmsKey. cbv zeta.
  destruct (truthy (if truthy (getP "kmsKeyArn" fo) then _ else _));
    [destruct (if truthy (getP "kmsKeyArn" fo) then _ else _)|]; simpl;
    try (exists (iamStatements st); now rewrite setIamStatements_same).
  eexists. apply unionStatement_frame.
Qed.

Lemma compileTracing_frame fo st r :
  exists iam, fst (compileTracing fo st r) = setIamStatements iam st.
Proof.
  unfold compileTracing. cbv zeta.
  destruct (truthy _); simpl.
  - eexists. apply unionStatement_frame.
  - exists (iamStatements st). now rewrite setIamStatements_same.
Qed.

Lemma setProvider_same st : setProvider (provider st) st = st.
Proof. now destruct st. Qed.

Lemma compileVpc_frame fo st r :
  exists p, snd (fst (compileVpc fo st r)) = setProvider p st
            /\ forall k, k <> "vpc" -> getP k p = getP k (provider st).
Proof.
  unfold compileVpc. cbv zeta.
  assert (Hid : exists p, st = setProvider p st
                 /\ forall k, k <> "vpc" -> getP k p = getP k (provider st)).
  { exists (provider st). now rewrite setProvider_same. }
  assert (Hset : forall k : string, k <> "vpc" ->
            getP k (setP "vpc" (VObj []) (provider st)) = getP k (provider st)).
  { intros k Hk. now rewrite getP_setP_ne. }
  destruct (getP "vpc" fo) as [| |[]| | | |]; simpl; auto;
    repeat match goal with
           | |- context [if ?b then _ else _] => destruct b
           end; simpl; eauto.
Qed.

Lemma compileFileSystem_frame name fo st r st' x :
  compileFileSystem name fo st r = (st', x) ->
  exists iam, st' = setIamStatements iam st.
Proof.
  unfold compileFileSystem. cbv zeta.
  repeat match goal with
         | |- context [if ?b then _ else _] => destruct b
         end; intros H; inversion H; subst; eexists;
    first [apply pushStatement_frame | symmetry; apply setIamStatements_same].
Qed.
End Frames.

Section BuildState.
Variable E : Env.

(** The service after [buildFunction]: the function object and its resource
    written, statements possibly added, [provider.vpc] possibly
    defaulted; nothing else. *)
Lemma buildFunction_state name fo st st' ctx :
  buildFunction E name fo st = (st', Ok ctx) ->
  exists iam p,
    st' = putFunction name (functionObject ctx)
            (putResource (getLambdaLogicalId E name) (functionResource ctx)
               (setIamStatements iam (setProvider p st)))
    /\ (forall k, k <> "vpc" -> getP k p = getP k (provider st))
    /\ shouldVersionFunction ctx = resolveShouldVersion (functionObject ctx) st.
Proof.
  unfold buildFunction.
  destruct (if truthy (getP "image" fo) then _ else _) as [uri sha].
  cbv zeta.
  match goal with
  | |- context [let '(_, _) := ?x in _] => destruct x as [[fo1 afp] r1] eqn:H1
  end.
  destruct (compileOnError_frame fo1 st (commonProperties fo1 st r1)) as [i2 F2].
  destruct (compileOnError fo1 st (commonProperties fo1 st r1)) as [s2 r2].
  destruct (compileKmsKey_frame fo1 s2 r2) as [i3 F3].
  destruct (compileKmsKey fo1 s2 r2) as [s3 r3].
  destruct (compileTracing_frame fo1 s3 r3) as [i4 F4].
  destruct (compileTracing fo1 s3 r3) as [s4 r4].
  destruct (compileRole _ _) as [rr|er]; [|discriminate].
  match goal with
  | |- context [compileVpc ?f ?s ?r] =>
      destruct (compileVpc_frame f s r) as (p & F5 & Hp);
      destruct (compileVpc f s r) as [[fo5 s5] r5]
  end.
  destruct (compileFileSystem name fo5 s5 r5) as [s6 [r6|e6]] eqn:H6;
    intros H; inversion H; subst; clear H.
  destruct (compileFileSystem_frame _ _ _ _ _ _ H6) as [i6 F6].
  simpl in *. subst.
  exists i6, p. split; [reflexivity|]. split.
  - intros k Hk. rewrite Hp by auto. reflexivity.
  - unfold resolveShouldVersion. simpl.
    rewrite Hp by discriminate. reflexivity.
Qed.
End BuildState.

(** ** The version resource *)

Section VersionResource.
Variable E : Env.

Lemma lookup_putFunction name fo st :
  getFunction name (putFunction name fo st) = Some fo.
Proof. unfold getFunction, putFunction. simpl. now rewrite lookup_setP_eq. Qed.

Lemma versionResourceOf_shape name ctx :
  let vr := versionResourceOf E name ctx in
  isVersion (VObj vr) = true
  /\ getP "DeletionPolicy" vr = VStr "Retain"
  /\ isVersion (VObj (deleteP "DeletionPolicy" vr)) = true
  /\ lookup "DeletionPolicy" (deleteP "DeletionPolicy" vr) = None.
Proof.
  unfold versionResourceOf. cbv zeta.
  destruct (truthy (getP "description" (functionObject ctx)));
    repeat split; reflexivity.
Qed.

(** A successful [versionFinish]: the digest was computed, the version id
    is recorded on the function object, one version resource has been
    assigned, and unless an alias took its id the template holds it, with
    [DeletionPolicy: Retain] exactly when versioning is on. *)
Lemma versionFinish_ok name ctx lcs st st' :
  versionFinish E name ctx lcs st = (st', Ok tt) ->
  exists d fo',
    versionDigest E (functionObject ctx) ctx lcs st = Ok d
    /\ getFunction name st' = Some fo'
    /\ getP "versionLogicalId" fo' = VStr (getLambdaVersionLogicalId E name d)
    /\ countVersions (journal st') = S (countVersions (journal st))
    /\ (getLambdaVersionLogicalId E name d
          <> getLambdaProvisionedConcurrencyAliasLogicalId E name ->
        getLambdaVersionLogicalId E name d
          <> getLambdaSnapStartAliasLogicalId E name ->
        exists r,
          lookup (getLambdaVersionLogicalId E name d) (Resources st')
            = Some (VObj r)
          /\ isVersion (VObj r) = true
          /\ (truthy (shouldVersionFunction ctx) = true ->
              getP "DeletionPolicy" r = VStr "Retain")
          /\ (truthy (shouldVersionFunction ctx) = false ->
              truthy (getP "provisionedConcurrency" (functionObject ctx))
              || truthy (getP "snapStart" (functionObject ctx)) = true ->
              lookup "DeletionPolicy" r = None)).
Proof.
  unfold versionFinish.
  destruct (versionDigest E (functionObject ctx) ctx lcs st) as [d|e];
    [|discriminate].
  cbv zeta. rewrite !getP_setP_ne by discriminate.
  destruct (versionResourceOf_shape name ctx) as (Hv & Hr & Hv' & Hr').
  cbv zeta in Hv, Hr, Hv', Hr'.
  set (vr := versionResourceOf E name ctx) in *.
  set (vid := getLambdaVersionLogicalId E name d).
  assert (Hcount : isVersion (VObj vr) = true ->
            countVersions ((vid, VObj vr) :: journal st)
            = S (countVersions (journal st))).
  { intros Hx. unfold countVersions. simpl. now rewrite Hx. }
  destruct (truthy (getP "provisionedConcurrency" (functionObject ctx))) eqn:Hp;
    destruct (truthy (getP "snapStart" (functionObject ctx))) eqn:Hs;
    simpl andb; cbv iota; try discriminate.
  - (* provisioned concurrency *)
    unfold compileProvisionedConcurrency. cbv zeta.
    rewrite !getP_setP_ne by discriminate. rewrite Hs.
    intros H; inversion H; clear H.
    exists d. eexists. split; [reflexivity|].
    split; [apply lookup_putFunction|].
    split; [rewrite getP_setP_ne by discriminate; apply getP_setP_eq|].
    split; [simpl; unfold countVersions at 1; simpl; now apply Hcount|].
    intros Ha _. simpl.
    rewrite lookup_setP_ne by auto. rewrite lookup_setP_eq.
    eexists. split; [reflexivity|].
    destruct (truthy (shouldVersionFunction ctx)); simpl;
      repeat split; intros; try discriminate; auto.
  - (* SnapStart *)
    rewrite !getP_setP_ne by discriminate. rewrite Hs.
    unfold compileSnapStart. cbv zeta.
    destruct (String.eqb vid (getLambdaLogicalId E name)) eqn:Hvf;
      intros H; inversion H; clear H;
      (exists d; eexists; split; [reflexivity|];
       split; [apply lookup_putFunction|];
       split; [rewrite getP_setP_ne by discriminate; apply getP_setP_eq|];
       split; [simpl; unfold countVersions at 1; simpl; now apply Hcount|]);
      intros _ Ha; simpl.
    + rewrite lookup_setP_ne by auto. rewrite lookup_setP_eq.
      eexists. split; [reflexivity|].
      destruct (truthy (shouldVersionFunction ctx)); simpl;
        repeat split; intros; try discriminate; auto.
    + apply String.eqb_neq in Hvf.
      rewrite lookup_setP_ne by auto. rewrite lookup_setP_ne by auto.
      rewrite lookup_setP_eq.
      eexists. split; [reflexivity|].
      destruct (truthy (shouldVersionFunction ctx)); simpl;
        repeat split; intros; try discriminate; auto.
  - (* versioning alone *)
    rewrite !getP_setP_ne by discriminate. rewrite Hs.
    intros H; inversion H; clear H.
    exists d. eexists. split; [reflexivity|].
    split; [apply lookup_putFunction|].
    split; [apply getP_setP_eq|].
    split; [simpl; now apply Hcount|].
    intros _ _. simpl. rewrite lookup_setP_eq.
    eexists. split; [reflexivity|].
    repeat split; auto. discriminate.
Qed.
End VersionResource.

(** ** URL and event-invoke phases: what they leave alone *)

Section TailFrames.
Variable E : Env.

Lemma urlResource_not_version name fo :
  isVersion (VObj (urlResource E name fo)) = false.
Proof.
  unfold urlResource. cbv zeta.
  repeat match goal with
         | |- context [if ?b then _ else _] => destruct b
         end; reflexivity.
Qed.

Lemma compileFunctionUrl_frame name st st' x :
  compileFunctionUrl E name st = (st', x) ->
  functions st' = functions st
  /\ countVersions (journal st') = countVersions (journal st)
  /\ (forall id,
        id <> getLambdaFunctionUrlLogicalId E name ->
        id <> getLambdaFnUrlPermissionLogicalId E name ->
        lookup id (Resources st') = lookup id (Resources st)).
Proof.
  unfold compileFunctionUrl.
  destruct (getFunction name st) as [fo|]; [|intros H; inversion H; auto].
  destruct (truthy (getP "url" fo)); simpl; [|intros H; inversion H; auto].
  destruct (isStr _ "aws_iam"); intros H; inversion H; clear H; simpl;
    unfold countVersions; simpl; rewrite urlResource_not_version;
    (split; [reflexivity|]; split; [reflexivity|]);
    intros id Hu Hq; rewrite ?lookup_setP_ne by auto; reflexivity.
Qed.

Lemma ensureTargetExecutionPermission_frame name slot d st st' x :
  ensureTargetExecutionPermission E name slot d st = (st', x) ->
  functions st' = functions st /\ journal st' = journal st
  /\ Resources st' = Resources st.
Proof.
  unfold ensureTargetExecutionPermission, ensureTargetExecutionPermission_body.
  destruct (existsb _ _); [intros H; inversion H; auto|].
  destruct (iamStatements st); [|intros H; inversion H; auto].
  destruct (destinationAction d); [|intros H; inversion H; auto].
  destruct d; try (intros H; inversion H; auto; fail).
  destruct (startsWith "arn:" s); [intros H; inversion H; auto|].
  destruct (getFunction s st); intros H; inversion H; auto.
Qed.

Lemma compileDestination_frame name slot key d ext c st st' x :
  compileDestination E name slot key d ext c st = (st', x) ->
  functions st' = functions st /\ journal st' = journal st
  /\ Resources st' = Resources st.
Proof.
  unfold compileDestination.
  destruct (truthy (get slot d)); [|intros H; inversion H; auto].
  destruct (getDestinationsArn E (get slot d)); [|intros H; inversion H; auto].
  destruct ext; [intros H; inversion H; auto|].
  destruct (ensureTargetExecutionPermission E name slot (get slot d) st)
    as [s1 [u|e]] eqn:He; intros H; inversion H; subst;
    eapply ensureTargetExecutionPermission_frame; eauto.
Qed.

Lemma compileFunctionEventInvokeConfig_frame name st st' x :
  compileFunctionEventInvokeConfig E name st = (st', x) ->
  functions st' = functions st
  /\ countVersions (journal st') = countVersions (journal st)
  /\ (forall id,
        id <> getLambdaEventConfigLogicalId E name ->
        lookup id (Resources st') = lookup id (Resources st)).
Proof.
  unfold compileFunctionEventInvokeConfig.
  destruct (getFunction name st) as [fo|]; [|intros H; inversion H; auto].
  match goal with
  | |- context [if ?b then (st, Ok tt) else _] => destruct b
  end; [intros H; inversion H; auto|].
  assert (Hc : exists s2 y,
             (if truthy (getP "destinations" fo)
              then
                match compileDestination E name "onSuccess" "OnSuccess"
                        (getP "destinations" fo)
                        (truthy (getCustomExecutionRole E (provider st)
                                   (getP "role" fo))) [] st with
                | (st0, Ok c) =>
                    compileDestination E name "onFailure" "OnFailure"
                      (getP "destinations" fo)
                      (truthy (getCustomExecutionRole E (provider st)
                                 (getP "role" fo))) c st0
                | (st0, Err e) => (st0, Err e)
                end
              else (st, Ok [])) = (s2, y)
             /\ functions s2 = functions st /\ journal s2 = journal st
             /\ Resources s2 = Resources st).
  { destruct (truthy (getP "destinations" fo)); [|eauto 6].
    destruct (compileDestination E name "onSuccess" "OnSuccess" _ _ [] st)
      as [s1 [c1|e1]] eqn:H1;
      destruct (compileDestination_frame _ _ _ _ _ _ _ _ _ H1) as (F1 & J1 & R1).
    - destruct (compileDestination E name "onFailure" "OnFailure" _ _ c1 s1)
        as [s2 y] eqn:H2.
      destruct (compileDestination_frame _ _ _ _ _ _ _ _ _ H2) as (F2 & J2 & R2).
      exists s2, y. repeat split; congruence.
    - exists s1, (Err e1). repeat split; congruence. }
  destruct Hc as (s2 & y & -> & F & J & R).
  destruct y as [c|e]; intros H; inversion H; clear H; simpl.
  - rewrite F, J, R. unfold countVersions. simpl.
    replace (isVersion _) with false
      by (repeat match goal with
                 | |- context [if ?b then _ else _] => destruct b
                 end; reflexivity).
    split; [reflexivity|]. split; [reflexivity|].
    intros id Hid. now rewrite lookup_setP_ne by auto.
  - subst. rewrite F, J, R. auto.
Qed.

Lemma compileUrlAndEvents_frame name st st' x :
  compileUrlAndEvents E name st = (st', x) ->
  functions st' = functions st
  /\ countVersions (journal st') = countVersions (journal st)
  /\ (forall id,
        id <> getLambdaFunctionUrlLogicalId E name ->
        id <> getLambdaFnUrlPermissionLogicalId E name ->
        id <> getLambdaEventConfigLogicalId E name ->
        lookup id (Resources st') = lookup id (Resources st)).
Proof.
  unfold compileUrlAndEvents.
  destruct (compileFunctionUrl E name st) as [s1 [u|e]] eqn:H1;
    destruct (compileFunctionUrl_frame _ _ _ _ H1) as (F1 & J1 & R1).
  - intros H2.
    destruct (compileFunctionEventInvokeConfig_frame _ _ _ _ H2) as (F2 & J2 & R2).
    repeat split; try congruence.
    intros id Ha Hb Hc. rewrite R2, R1; auto.
  - intros H; inversion H; subst. repeat split; auto.
Qed.
End TailFrames.

(** ** A successful compilation, phase by phase *)

Ltac throughType :=
  repeat first
    [ rewrite getP_setProp by discriminate
    | rewrite getP_setP_ne by discriminate ].

Ltac splitCases :=
  repeat match goal with
         | |- context [if ?b then _ else _] => destruct b
         | |- context [match ?x with _ => _ end] => destruct x
         end.

Section Phases.
Variable E : Env.

Lemma buildFunction_type name fo st st' ctx :
  buildFunction E name fo st = (st', Ok ctx) ->
  getP "Type" (functionResource ctx) = VStr "AWS::Lambda::Function".
Proof.
  unfold buildFunction.
  destruct (if truthy (getP "image" fo) then _ else _) as [uri sha].
  cbv zeta.
  match goal with
  | |- context [let '(_, _) := ?x in _] => destruct x as [[fo1 afp] r1] eqn:H1
  end.
  assert (T1 : getP "Type" r1 = VStr "AWS::Lambda::Function").
  { revert H1. unfold handlerProperties, setCode. cbv zeta.
    splitCases; intros H1; inversion H1; subst; throughType; reflexivity. }
  assert (T2 : forall r, getP "Type" (commonProperties fo1 st r) = getP "Type" r).
  { intros r. unfold commonProperties. cbv zeta. splitCases; throughType; reflexivity. }
  assert (T3 : forall s r, getP "Type" (snd (compileOnError fo1 s r)) = getP "Type" r).
  { intros s r. unfold compileOnError. cbv zeta.
    splitCases; simpl; throughType; reflexivity. }
  assert (T4 : forall s r, getP "Type" (snd (compileKmsKey fo1 s r)) = getP "Type" r).
  { intros s r. unfold compileKmsKey. cbv zeta.
    splitCases; simpl; throughType; reflexivity. }
  assert (T5 : forall s r, getP "Type" (snd (compileTracing fo1 s r)) = getP "Type" r).
  { intros s r. unfold compileTracing. cbv zeta.
    splitCases; simpl; throughType; reflexivity. }
  assert (T6 : forall s r, getP "Type" (compileEnvironment fo1 s r) = getP "Type" r).
  { intros s r. unfold compileEnvironment. splitCases; throughType; reflexivity. }
  assert (T7 : forall r v, getP "Type" (roleOf r v) = getP "Type" r).
  { intros r v.
    destruct (roleOf_cases r v) as [-> | [[w ->] | (w & d & ->)]];
      throughType; reflexivity. }
  assert (T8 : forall f s r, getP "Type" (snd (compileVpc f s r)) = getP "Type" r).
  { intros f s r. unfold compileVpc. cbv zeta.
    splitCases; simpl; throughType; reflexivity. }
  assert (T9 : forall f s r s' r',
             compileFileSystem name f s r = (s', Ok r') ->
             getP "Type" r' = getP "Type" r).
  { intros f s r s' r'. unfold compileFileSystem. cbv zeta.
    splitCases; intros H; inversion H; subst; throughType; reflexivity. }
  assert (T10 : forall f s r,
             getP "Type" (compileLogsAndLayers E name f s
                            (compileReservedConcurrency f r)) = getP "Type" r).
  { intros f s r. unfold compileLogsAndLayers, compileReservedConcurrency.
    cbv zeta. splitCases; throughType; reflexivity. }
  destruct (compileOnError fo1 st (commonProperties fo1 st r1)) as [s2 r2] eqn:H2.
  destruct (compileKmsKey fo1 s2 r2) as [s3 r3] eqn:H3.
  destruct (compileTracing fo1 s3 r3) as [s4 r4] eqn:H4.
  destruct (compileRole _ _) as [rr|er] eqn:Hrole; [|discriminate].
  apply compileRole_ok in Hrole. subst rr.
  match goal with
  | |- context [compileVpc ?f ?s ?r] =>
      destruct (compileVpc f s r) as [[fo5 s5] r5] eqn:H5
  end.
  destruct (compileFileSystem name fo5 s5 r5) as [s6 [r6|e6]] eqn:H6;
    intros H; inversion H; subst; clear H. simpl.
  rewrite T10, (T9 _ _ _ _ _ H6).
  replace r5 with (snd (compileVpc fo1 s4
                          (roleOf (compileEnvironment fo1 s4 r4)
                             (or_ (getCustomExecutionRole E (provider s4)
                                     (getP "role" fo1))
                                  (VStr "IamRoleLambdaExecution")))))
    by now rewrite H5.
  rewrite T8, T7, T6.
  replace r4 with (snd (compileTracing fo1 s3 r3)) by now rewrite H4.
  rewrite T5.
  replace r3 with (snd (compileKmsKey fo1 s2 r2)) by now rewrite H3.
  rewrite T4.
  replace r2 with (snd (compileOnError fo1 st (commonProperties fo1 st r1)))
    by now rewrite H2.
  rewrite T3, T2. exact T1.
Qed.

Lemma versionStart_frame name ctx st :
  let '(st3, ctx3, lcs) := versionStart E name ctx st in
  functionObject ctx3 = functionObject ctx
  /\ shouldVersionFunction ctx3 = shouldVersionFunction ctx
  /\ journal st3 = journal st
  /\ functions st3 = functions st.
Proof.
  unfold versionStart. destruct (truthy _); simpl; auto.
Qed.
End Phases.

Section Minting.
Variable E : Env.

Lemma countVersions_cons id v j :
  countVersions ((id, v) :: j)
  = ((if isVersion v then 1 else 0) + countVersions j)%nat.
Proof. unfold countVersions. simpl. now destruct (isVersion v). Qed.

(** The phases of a successful [compileFunction] and what each hands on. *)
Lemma compileFunction_ok name st st' fo :
  getFunction name st = Some fo ->
  compileFunction E name st = (st', Ok tt) ->
  exists st2 ctx,
    (forall k, ~ In k ["memory"; "timeout"; "runtime"; "vpc"; "package"] ->
               getP k (functionObject ctx) = getP k fo)
    /\ resolveShouldVersion (functionObject ctx) st = versioningEnabled fo st
    /\ shouldVersionFunction ctx = versioningEnabled fo st
    /\ mintsVersion (shouldVersionFunction ctx) (functionObject ctx)
       = mustMintVersion fo st
    /\ countVersions (journal st2) = countVersions (journal st)
    /\ if mustMintVersion fo st
       then exists st4,
           versionFinish E name (snd (fst (versionStart E name ctx st2)))
             (snd (versionStart E name ctx st2))
             (fst (fst (versionStart E name ctx st2))) = (st4, Ok tt)
           /\ journal (fst (fst (versionStart E name ctx st2))) = journal st2
           /\ shouldVersionFunction (snd (fst (versionStart E name ctx st2)))
              = shouldVersionFunction ctx
           /\ functionObject (snd (fst (versionStart E name ctx st2)))
              = functionObject ctx
           /\ compileUrlAndEvents E name st4 = (st', Ok tt)
       else compileUrlAndEvents E name st2 = (st', Ok tt).
Proof.
  intros Hf. unfold compileFunction.
  destruct (validate name st) as [st1 [fo1|e1]] eqn:Hv; [|discriminate].
  destruct (validate_ok _ _ _ _ _ Hf Hv) as (-> & -> & _).
  destruct (buildFunction E name _ _) as [st2 [ctx|e2]] eqn:Hb; [|discriminate].
  destruct (buildFunction_ok E _ _ _ _ _ Hb) as (_ & _ & _ & _ & Hfo & _).
  destruct (buildFunction_state E _ _ _ _ _ Hb) as (iam & p & Hst & Hp & Hsv).
  pose proof (buildFunction_type E _ _ _ _ _ Hb) as Hty.
  assert (Hk : forall k,
             ~ In k ["memory"; "timeout"; "runtime"; "vpc"; "package"] ->
             getP k (functionObject ctx) = getP k fo).
  { intros k Hk. rewrite Hfo by (simpl in *; tauto).
    apply getP_setP_ne. intros ->. apply Hk. simpl. tauto. }
  assert (Hen : resolveShouldVersion (functionObject ctx) st
                = versioningEnabled fo st).
  { unfold resolveShouldVersion, versioningEnabled.
    rewrite Hk by (simpl; intuition discriminate).
    destruct (isNullish (getP "versionFunction" fo)); reflexivity. }
  assert (Hsv' : shouldVersionFunction ctx = versioningEnabled fo st).
  { rewrite Hsv, <- Hen. reflexivity. }
  assert (Hm : mintsVersion (shouldVersionFunction ctx) (functionObject ctx)
               = mustMintVersion fo st).
  { unfold mintsVersion, mustMintVersion.
    rewrite Hsv', !Hk by (simpl; intuition discriminate). reflexivity. }
  intros Hc. exists st2, ctx.
  repeat (split; [assumption|]).
  split.
  { rewrite Hst. simpl. rewrite countVersions_cons.
    unfold isVersion. simpl get. rewrite Hty. reflexivity. }
  rewrite Hm in Hc. destruct (mustMintVersion fo st); [|exact Hc].
  pose proof (versionStart_frame E name ctx st2) as Hvs.
  destruct (versionStart E name ctx st2) as [[st3 ctx3] lcs].
  destruct Hvs as (Hvo & Hvv & Hvj & _). simpl.
  unfold finishFunction in Hc.
  destruct (versionFinish E name ctx3 lcs st3) as [st4 [[]|e4]] eqn:Hvf;
    [|discriminate].
  exists st4. auto.
Qed.

(** C6.  For a declared function that compiles, exactly one version
    resource is assigned into the template when versioning is enabled (the
    function's [versionFunction] when set, else the provider's
    [versionFunctions]) or provisioned concurrency is set or SnapStart is
    set, and none otherwise; and the constructor switches the provider's
    [versionFunctions] on when the [aws] provider leaves it unset. *)
Theorem version_minted_iff_versioning_or_alias_setting name st st' fo :
  getFunction name st = Some fo ->
  compileFunction E name st = (st', Ok tt) ->
  let versioning :=
    if isNullish (getP "versionFunction" fo)
    then getP "versionFunctions" (provider st)
    else getP "versionFunction" fo in
  (truthy versioning
   || truthy (getP "provisionedConcurrency" fo)
   || truthy (getP "snapStart" fo) = true
   <-> countVersions (journal st') = S (countVersions (journal st)))
  /\ (truthy versioning
      || truthy (getP "provisionedConcurrency" fo)
      || truthy (getP "snapStart" fo) = false
      <-> countVersions (journal st') = countVersions (journal st))
  /\ (forall st0,
        isStr (getP "name" (provider st0)) "aws" = true ->
        isNullish (getP "versionFunctions" (provider st0)) = true ->
        getP "versionFunctions" (provider (constructor st0)) = VBool true).
Proof.
  intros Hf Hc versioning.
  destruct (compileFunction_ok name st st' fo Hf Hc)
    as (st2 & ctx & _ & _ & _ & _ & Hj & Hrest).
  fold (versioningEnabled fo st) in versioning. subst versioning.
  fold (mustMintVersion fo st).
  assert (Hcount : countVersions (journal st')
                   = ((if mustMintVersion fo st then 1 else 0)
                      + countVersions (journal st))%nat).
  { destruct (mustMintVersion fo st).
    - destruct Hrest as (st4 & Hvf & Hvj & _ & _ & Htail).
      destruct (versionFinish_ok E _ _ _ _ _ Hvf) as (d & fo' & _ & _ & _ & Hn & _).
      destruct (compileUrlAndEvents_frame E _ _ _ _ Htail) as (_ & Ht & _).
      rewrite Ht, Hn. unfold countVersions in *. rewrite Hvj, Hj. reflexivity.
    - destruct (compileUrlAndEvents_frame E _ _ _ _ Hrest) as (_ & Ht & _).
      rewrite Ht, Hj. reflexivity. }
  split; [|split].
  - rewrite Hcount. destruct (mustMintVersion fo st); simpl; split; intros;
      try reflexivity; try discriminate; lia.
  - rewrite Hcount. destruct (mustMintVersion fo st); simpl; split; intros;
      try reflexivity; try discriminate; lia.
  - intros st0 Ha Hn. unfold constructor. simpl. rewrite Ha, Hn. simpl.
    apply getP_setP_eq.
Qed.
End Minting.

(** The sample function under the default policy: a version is minted. *)
Lemma version_minted_iff_versioning_or_alias_setting_witness :
  let st := Fixture.service [("hello", Fixture.hello)] in
  countVersions (journal (fst (compileFunction Fixture.env "hello" st)))
  = S (countVersions (journal st)).
Proof.
  intros st.
  refine (proj1 (proj1
            (version_minted_iff_versioning_or_alias_setting Fixture.env "hello"
               st (fst (compileFunction Fixture.env "hello" st))
               (entries Fixture.hello) eq_refl _)) _);
    vm_compute; reflexivity.
Defined.

(** ** Retention of version resources *)

Section Retention.
Variable E : Env.

(** C2, as the code has it.  For a declared function that compiles and
    for which a version is minted, the template holds the version resource
    under the id recorded on the function object (the naming scheme keeps
    that id apart from the aliases', the URL's and the event config's); it
    carries [DeletionPolicy: Retain] when versioning is enabled for the
    function, and no [DeletionPolicy] at all when the version exists only
    for provisioned concurrency or SnapStart. *)
Theorem version_retained_iff_versioning_enabled name st st' fo :
  getFunction name st = Some fo ->
  compileFunction E name st = (st', Ok tt) ->
  mustMintVersion fo st = true ->
  (forall d, ~ In (getLambdaVersionLogicalId E name d) (otherLogicalIds E name)) ->
  exists fo' vid r,
    getFunction name st' = Some fo'
    /\ getP "versionLogicalId" fo' = VStr vid
    /\ lookup vid (Resources st') = Some (VObj r)
    /\ isVersion (VObj r) = true
    /\ (truthy (versioningEnabled fo st) = true ->
        getP "DeletionPolicy" r = VStr "Retain")
    /\ (truthy (versioningEnabled fo st) = false ->
        lookup "DeletionPolicy" r = None).
Proof.
  intros Hf Hc Hm Hn.
  destruct (compileFunction_ok E name st st' fo Hf Hc)
    as (st2 & ctx & Hk & _ & Hsv & _ & _ & Hrest).
  rewrite Hm in Hrest.
  destruct Hrest as (st4 & Hvf & _ & Hsv3 & Hfo3 & Htail).
  destruct (versionFinish_ok E _ _ _ _ _ Hvf)
    as (d & fo' & _ & Hg & Hid & _ & Hres).
  destruct (compileUrlAndEvents_frame E _ _ _ _ Htail) as (Hfun & _ & Hlk).
  specialize (Hn d). unfold otherLogicalIds in Hn. simpl in Hn.
  assert (Hne : forall id, In id (otherLogicalIds E name) ->
                           getLambdaVersionLogicalId E name d <> id).
  { intros id Hin Heq. unfold otherLogicalIds in Hin. simpl in Hin.
    rewrite Heq in Hn. tauto. }
  destruct Hres as (r & Hr & Hv & Hret & Hdel);
    [apply Hne; simpl; tauto | apply Hne; simpl; tauto |].
  exists fo', (getLambdaVersionLogicalId E name d), r.
  split; [unfold getFunction in *; now rewrite Hfun|].
  split; [assumption|].
  split; [rewrite Hlk by (apply Hne; simpl; tauto); assumption|].
  split; [assumption|].
  rewrite Hsv3, Hsv in Hret, Hdel. rewrite Hfo3 in Hdel.
  split; [assumption|].
  intros Hoff. apply Hdel; auto.
  rewrite !Hk by (simpl; intuition discriminate).
  unfold mustMintVersion in Hm. rewrite Hoff in Hm. exact Hm.
Qed.
End Retention.


Lemma fixture_ids_apart name d :
  ~ In (getLambdaVersionLogicalId Fixture.env name d)
       (otherLogicalIds Fixture.env name).
Proof.
  unfold otherLogicalIds. simpl.
  assert (Hc : forall a b c : string, a ++ b = a ++ c -> b = c).
  { induction a; simpl; intros b c H; auto. inversion H. auto. }
  intros [H|[H|[H|[H|[H|[]]]]]]; apply Hc in H; discriminate.
Qed.

Lemma version_retained_iff_versioning_enabled_witness :
  let st := Fixture.service [("hello", VObj Fixture.helloProvisioned)] in
  let st' := fst (compileFunction Fixture.env "hello" st) in
  exists fo' vid r,
    getFunction "hello" st' = Some fo'
    /\ getP "versionLogicalId" fo' = VStr vid
    /\ lookup vid (Resources st') = Some (VObj r)
    /\ isVersion (VObj r) = true
    /\ lookup "DeletionPolicy" r = None.
Proof.
  intros st st'.
  destruct (version_retained_iff_versioning_enabled Fixture.env "hello" st st'
              Fixture.helloProvisioned eq_refl)
    as (fo' & vid & r & H1 & H2 & H3 & H4 & _ & H5).
  - vm_compute; reflexivity.
  - reflexivity.
  - apply fixture_ids_apart.
  - exists fo', vid, r. repeat split; auto.
Defined.

(** C2 fails as stated: this compiled function has a minted version
    resource in the template, and that resource has no [DeletionPolicy]. *)
Lemma version_without_retention_counterexample :
  let st := Fixture.service [("hello", VObj Fixture.helloProvisioned)] in
  let st' := fst (compileFunction Fixture.env "hello" st) in
  snd (compileFunction Fixture.env "hello" st) = Ok tt
  /\ countVersions (journal st') = S (countVersions (journal st))
  /\ exists vid r,
       get "versionLogicalId" (getP "hello" (functions st')) = VStr vid
       /\ lookup vid (Resources st') = Some (VObj r)
       /\ isVersion (VObj r) = true
       /\ getP "DeletionPolicy" r <> VStr "Retain".
Proof.
  cbv zeta. split; [vm_compute; reflexivity|].
  split; [vm_compute; reflexivity|].
  eexists. eexists.
  split; [vm_compute; reflexivity|].
  split; [vm_compute; reflexivity|].
  split; [vm_compute; reflexivity|].
  vm_compute. discriminate.
Qed.

(** ** Destination permissions *)

Section Destinations.
Variable E : Env.



End Destinations.




(** ** [Promise.all] over the functions *)

Section Concurrency.
Variable E : Env.

Lemma keepsOrder_refl st : keepsOrder st st.
Proof. exists []. now rewrite app_nil_r. Qed.

Lemma keepsOrder_trans a b c : keepsOrder a b -> keepsOrder b c -> keepsOrder a c.
Proof.
  intros [s1 H1] [s2 H2]. exists (s1 ++ s2)%list.
  now rewrite H2, H1, app_assoc.
Qed.

Lemma keys_setP k v o :
  exists suffix, map fst (setP k v o) = (map fst o ++ suffix)%list.
Proof.
  induction o as [|[j w] r [s IH]]; simpl.
  - now exists [k].
  - destruct (String.eqb j k); simpl.
    + exists []. now rewrite app_nil_r.
    + exists s. now rewrite IH.
Qed.

Lemma keepsOrder_touch id r st : keepsOrder st (touchResource id r st).
Proof. unfold keepsOrder, touchResource. simpl. apply keys_setP. Qed.

Lemma keepsOrder_put id r st : keepsOrder st (putResource id r st).
Proof. unfold keepsOrder, putResource. simpl. apply keys_setP. Qed.

Lemma keepsOrder_same st st' : Resources st' = Resources st -> keepsOrder st st'.
Proof. intros H. exists []. now rewrite H, app_nil_r. Qed.

Create HintDb order.
#[local] Hint Resolve keepsOrder_refl keepsOrder_touch keepsOrder_put : order.

Lemma validate_keepsOrder name st : keepsOrder st (fst (validate name st)).
Proof.
  unfold validate. destruct (getFunction name st); simpl; auto with order.
  repeat match goal with
         | |- context [if ?b then _ else _] => destruct b
         end; simpl; apply keepsOrder_same; reflexivity.
Qed.

Lemma buildFunction_keepsOrder name fo st :
  keepsOrder st (fst (buildFunction E name fo st)).
Proof.
  destruct (buildFunction E name fo st) as [st' [ctx|e]] eqn:Hb.
  - destruct (buildFunction_state E _ _ _ _ _ Hb) as (iam & p & -> & _).
    simpl. unfold keepsOrder. simpl. apply keys_setP.
  - simpl. revert Hb. unfold buildFunction.
    destruct (if truthy (getP "image" fo) then _ else _) as [uri sha].
    cbv zeta.
    match goal with
    | |- context [let '(_, _) := ?x in _] => destruct x as [[fo1 afp] r1]
    end.
    destruct (compileOnError_frame fo1 st (commonProperties fo1 st r1)) as [i2 F2].
    destruct (compileOnError fo1 st (commonProperties fo1 st r1)) as [s2 r2].
    destruct (compileKmsKey_frame fo1 s2 r2) as [i3 F3].
    destruct (compileKmsKey fo1 s2 r2) as [s3 r3].
    destruct (compileTracing_frame fo1 s3 r3) as [i4 F4].
    destruct (compileTracing fo1 s3 r3) as [s4 r4].
    destruct (compileRole _ _) as [rr|er].
    + match goal with
      | |- context [compileVpc ?f ?s ?r] =>
          destruct (compileVpc_frame f s r) as (p & F5 & Hp);
          destruct (compileVpc f s r) as [[fo5 s5] r5]
      end.
      destruct (compileFileSystem name fo5 s5 r5) as [s6 [r6|e6]] eqn:H6;
        intros H; inversion H; subst; clear H.
      destruct (compileFileSystem_frame _ _ _ _ _ _ H6) as [i6 F6].
      simpl in *. subst. apply keepsOrder_same. reflexivity.
    + intros H; inversion H; subst; clear H.
      simpl in *. subst. apply keepsOrder_same. reflexivity.
Qed.

Lemma versionStart_keepsOrder name ctx st :
  keepsOrder st (fst (fst (versionStart E name ctx st))).
Proof.
  unfold versionStart. destruct (truthy _); simpl; auto with order.
Qed.

Lemma versionFinish_keepsOrder name ctx lcs st :
  keepsOrder st (fst (versionFinish E name ctx lcs st)).
Proof.
  unfold versionFinish.
  destruct (versionDigest E (functionObject ctx) ctx lcs st) as [d|e]; simpl;
    auto with order.
  cbv zeta.
  set (vr := versionResourceOf E name ctx).
  set (vid := getLambdaVersionLogicalId E name d).
  set (fo := setP "versionLogicalId" (VStr vid) (functionObject ctx)).
  assert (H0 : keepsOrder st (insertVersion E name vid vr fo st)).
  { unfold insertVersion, keepsOrder. simpl. apply keys_setP. }
  destruct (truthy (getP "provisionedConcurrency" fo) && truthy (getP "snapStart" fo));
    [exact H0|].
  set (un := if negb (truthy (shouldVersionFunction ctx))
             then deleteP "DeletionPolicy" vr else vr).
  assert (H1 : forall f s0, keepsOrder st s0 ->
             keepsOrder st (snd (compileProvisionedConcurrency E name vid un f s0))).
  { intros f s0 Hs. unfold compileProvisionedConcurrency. simpl.
    eapply keepsOrder_trans; [exact Hs|].
    eapply keepsOrder_trans; [apply (keepsOrder_touch vid un)|].
    unfold keepsOrder. simpl. apply keys_setP. }
  assert (H2 : forall f s0, keepsOrder st s0 ->
             keepsOrder st (snd (compileSnapStart E name vid un
                                   (functionResource ctx) f s0))).
  { intros f s0 Hs. unfold compileSnapStart. cbv zeta.
    eapply keepsOrder_trans; [exact Hs|].
    eapply keepsOrder_trans; [apply (keepsOrder_touch vid un)|].
    destruct (String.eqb vid (getLambdaLogicalId E name)); simpl.
    - unfold keepsOrder. simpl. apply keys_setP.
    - eapply keepsOrder_trans; [apply keepsOrder_touch|].
      unfold keepsOrder. simpl. apply keys_setP. }
  destruct (truthy (getP "provisionedConcurrency" fo)).
  - specialize (H1 fo _ H0).
    destruct (compileProvisionedConcurrency E name vid un fo _) as [f1 s1].
    cbn [snd] in H1. cbv beta iota.
    destruct (truthy (getP "snapStart" f1)).
    + specialize (H2 f1 _ H1).
      destruct (compileSnapStart E name vid un _ f1 s1) as [f2 s2].
      exact H2.
    + exact H1.
  - cbv beta iota.
    destruct (truthy (getP "snapStart" fo)).
    + specialize (H2 fo _ H0).
      destruct (compileSnapStart E name vid un _ fo _) as [f2 s2].
      exact H2.
    + exact H0.
Qed.

Lemma compileUrlAndEvents_keepsOrder name st :
  keepsOrder st (fst (compileUrlAndEvents E name st)).
Proof.
  assert (Hu : forall s, keepsOrder s (fst (compileFunctionUrl E name s))).
  { intros s. unfold compileFunctionUrl.
    destruct (getFunction name s); simpl; auto with order.
    destruct (truthy (getP "url" o)); simpl; auto with order.
    destruct (isStr _ "aws_iam"); simpl.
    - unfold keepsOrder. simpl. apply keys_setP.
    - eapply keepsOrder_trans; [|apply keepsOrder_put].
      unfold keepsOrder. simpl. apply keys_setP. }
  assert (He : forall s, keepsOrder s (fst (compileFunctionEventInvokeConfig E name s))).
  { intros s.
    destruct (compileFunctionEventInvokeConfig E name s) as [s' x] eqn:Hx.
    simpl. revert Hx. unfold compileFunctionEventInvokeConfig.
    destruct (getFunction name s) as [fo|];
      [|intros H; inversion H; auto with order].
    match goal with
    | |- context [if ?b then (s, Ok tt) else _] => destruct b
    end; [intros H; inversion H; auto with order|].
    assert (Hc : exists s2 y,
               (if truthy (getP "destinations" fo)
                then
                  match compileDestination E name "onSuccess" "OnSuccess"
                          (getP "destinations" fo)
                          (truthy (getCustomExecutionRole E (provider s)
                                     (getP "role" fo))) [] s with
                  | (st0, Ok c) =>
                      compileDestination E name "onFailure" "OnFailure"
                        (getP "destinations" fo)
                        (truthy (getCustomExecutionRole E (provider s)
                                   (getP "role" fo))) c st0
                  | (st0, Err e) => (st0, Err e)
                  end
                else (s, Ok [])) = (s2, y)
               /\ Resources s2 = Resources s).
    { destruct (truthy (getP "destinations" fo)); [|eauto].
      destruct (compileDestination E name "onSuccess" "OnSuccess" _ _ [] s)
        as [s1 [c1|e1]] eqn:H1;
        destruct (compileDestination_frame _ _ _ _ _ _ _ _ _ _ H1) as (_ & _ & R1).
      - destruct (compileDestination E name "onFailure" "OnFailure" _ _ c1 s1)
          as [s2 y] eqn:H2.
        destruct (compileDestination_frame _ _ _ _ _ _ _ _ _ _ H2) as (_ & _ & R2).
        exists s2, y. split; congruence.
      - exists s1, (Err e1). split; congruence. }
    destruct Hc as (s2 & y & -> & R).
    destruct y as [c|e]; intros H; inversion H; subst; clear H.
    - unfold keepsOrder. simpl. rewrite R. apply keys_setP.
    - now apply keepsOrder_same. }
  unfold compileUrlAndEvents.
  specialize (Hu st).
  destruct (compileFunctionUrl E name st) as [s1 [u|e]]; simpl in *; auto.
  eapply keepsOrder_trans; [exact Hu|apply He].
Qed.

Lemma finishFunction_keepsOrder name ctx lcs st :
  keepsOrder st (fst (finishFunction E name ctx lcs st)).
Proof.
  unfold finishFunction.
  pose proof (versionFinish_keepsOrder name ctx lcs st) as H.
  destruct (versionFinish E name ctx lcs st) as [s1 [u|e]]; simpl in *; auto.
  eapply keepsOrder_trans; [exact H|apply compileUrlAndEvents_keepsOrder].
Qed.

Lemma lift_orderly x : orderly (snd (lift x)).
Proof. constructor. Qed.

Lemma buildTask_spec name fo st :
  keepsOrder st (fst (buildTask E name fo st))
  /\ orderly (snd (buildTask E name fo st))
  /\ runProc (snd (buildTask E name fo st)) (fst (buildTask E name fo st))
     = match buildFunction E name fo st with
       | (st, Err e) => (st, Err e)
       | (st, Ok ctx) =>
           if mintsVersion (shouldVersionFunction ctx) (functionObject ctx)
           then
             let '(st, ctx, layerConfigurations) := versionStart E name ctx st in
             finishFunction E name ctx layerConfigurations st
           else compileUrlAndEvents E name st
       end.
Proof.
  unfold buildTask.
  pose proof (buildFunction_keepsOrder name fo st) as Hb.
  destruct (buildFunction E name fo st) as [s1 [ctx|e]]; simpl in Hb;
    [|simpl; repeat split; auto; constructor].
  destruct (mintsVersion _ _).
  - pose proof (versionStart_keepsOrder name ctx s1) as Hv.
    destruct (versionStart E name ctx s1) as [[s2 ctx2] lcs]. simpl in Hv.
    destruct (readsFiles ctx2 lcs); simpl.
    + split; [eapply keepsOrder_trans; eauto|]. split.
      * constructor; intros s; simpl;
          [apply finishFunction_keepsOrder|constructor].
      * now destruct (finishFunction E name ctx2 lcs s2).
    + split.
      * eapply keepsOrder_trans; [exact Hb|].
        eapply keepsOrder_trans; [exact Hv|apply finishFunction_keepsOrder].
      * split; [constructor|].
        now destruct (finishFunction E name ctx2 lcs s2).
  - simpl. split.
    + eapply keepsOrder_trans; [exact Hb|apply compileUrlAndEvents_keepsOrder].
    + split; [constructor|].
      now destruct (compileUrlAndEvents E name s1).
Qed.

Lemma compileFunctionTask_spec name st :
  keepsOrder st (fst (compileFunctionTask E name st))
  /\ orderly (snd (compileFunctionTask E name st))
  /\ runProc (snd (compileFunctionTask E name st))
             (fst (compileFunctionTask E name st))
     = compileFunction E name st.
Proof.
  unfold compileFunctionTask, compileFunction.
  pose proof (validate_keepsOrder name st) as Hv.
  destruct (validate name st) as [s1 [fo|e]]; simpl in Hv;
    [|simpl; repeat split; auto; constructor].
  destruct (truthy (getP "image" fo)); simpl.
  - split; [assumption|]. split.
    + constructor; intros s; apply buildTask_spec.
    + pose proof (buildTask_spec name fo s1) as (_ & _ & Hr).
      destruct (buildTask E name fo s1). exact Hr.
  - destruct (buildTask_spec name fo s1) as (Hk & Ho & Hr).
    split; [eapply keepsOrder_trans; eauto|]. split; assumption.
Qed.

Lemma startAll_spec names st :
  keepsOrder st (fst (startAll E names st))
  /\ Forall orderly (snd (startAll E names st)).
Proof.
  revert st. induction names as [|n r IH]; intros st; simpl.
  - split; [apply keepsOrder_refl|constructor].
  - destruct (compileFunctionTask_spec n st) as (Hk & Ho & _).
    destruct (compileFunctionTask E n st) as [s1 p]. simpl in *.
    destruct (IH s1) as [Hk' Ho'].
    destruct (startAll E r s1) as [s2 ps]. simpl in *.
    split; [eapply keepsOrder_trans; eauto|constructor; auto].
Qed.

Lemma eventLoop_keepsOrder st pool stF poolF :
  eventLoop st pool stF poolF -> Forall orderly pool -> keepsOrder st stF.
Proof.
  induction 1 as [st pool Hs|st pool before k after st' p' stF poolF Hp Hk _ IH];
    intros Ho.
  - apply keepsOrder_refl.
  - subst pool.
    assert (Hok : orderly (Await k)).
    { rewrite Forall_forall in Ho. apply Ho. apply in_or_app. right. now left. }
    inversion Hok as [|k' H1 H2]; subst.
    specialize (H1 st). specialize (H2 st). rewrite Hk in H1, H2. simpl in *.
    eapply keepsOrder_trans; [exact H1|]. apply IH.
    apply Forall_app in Ho as [Hb Ha]. inversion Ha; subst.
    apply Forall_app. split; auto.
Qed.

Lemma eventLoop_settled st pool stF poolF :
  eventLoop st pool stF poolF -> Forall settled pool -> stF = st /\ poolF = pool.
Proof.
  intros [st0 pool0 Hs|st0 pool0 before k after st' p' stF0 poolF0 Hp Hk Hl] Ha;
    auto.
  subst. apply Forall_app in Ha as [_ Ha]. inversion Ha; subst. contradiction.
Qed.

(** Induction on a suspended call, through its resumptions. *)
Lemma proc_ind' (P : proc -> Prop) :
  (forall r, P (Return r)) ->
  (forall k, (forall s, P (snd (k s))) -> P (Await k)) ->
  forall p, P p.
Proof.
  intros HR HA. fix IH 1. intros [r|k].
  - apply HR.
  - apply HA. intros s. apply IH.
Qed.

(** Every pool of suspended calls settles: resuming them one after the
    other is one way to get there. *)
Lemma eventLoop_settles pool :
  forall done st, Forall settled done ->
    exists stF poolF, eventLoop st (done ++ pool) stF poolF.
Proof.
  induction pool as [|p pool IH]; intros done st Hd.
  - rewrite app_nil_r. exists st, done. now constructor.
  - revert st. induction p as [r|k IHk] using proc_ind'; intros st.
    + destruct (IH (done ++ [Return r])%list st) as (stF & poolF & Hl).
      { apply Forall_app. split; auto. constructor; simpl; auto. }
      rewrite <- app_assoc in Hl. simpl in Hl. eauto.
    + destruct (k st) as [st' p'] eqn:Hk.
      specialize (IHk st st'). rewrite Hk in IHk. simpl in IHk.
      destruct IHk as (stF & poolF & Hl).
      exists stF, poolF. eapply loop_resume; eauto.
Qed.

Lemma compileFunctions_settles st :
  exists stF poolF, compileFunctions E st stF poolF.
Proof. unfold compileFunctions. apply (eventLoop_settles _ []). constructor. Qed.

(** C4, as the code has it.  [compileFunctions] starts the compilation of
    every declared function, in declaration order, and runs each only up
    to its first suspension before any suspended one is resumed: whatever
    the order of resumption, the resources the start phase has written
    stay first in the template, in that order, and everything a resumed
    compilation adds comes after them.  When no compilation suspends, the
    result is the start phase's; and one function's own phases, resumed
    one after the other, are [compileFunction] run in one piece. *)
Theorem compileFunctions_starts_all_before_resuming_any st stF poolF :
  compileFunctions E st stF poolF ->
  keepsOrder (fst (startAll E (getAllFunctions st) st)) stF
  /\ keepsOrder st (fst (startAll E (getAllFunctions st) st))
  /\ (Forall settled (snd (startAll E (getAllFunctions st) st)) ->
      stF = fst (startAll E (getAllFunctions st) st))
  /\ (forall name s,
        runProc (snd (compileFunctionTask E name s))
                (fst (compileFunctionTask E name s))
        = compileFunction E name s).
Proof.
  unfold compileFunctions. intros Hl.
  destruct (startAll_spec (getAllFunctions st) st) as [Hk Ho].
  split; [eapply eventLoop_keepsOrder; eauto|].
  split; [assumption|].
  split.
  - intros Hs. now destruct (eventLoop_settled _ _ _ _ Hl Hs).
  - intros name s. apply compileFunctionTask_spec.
Qed.
End Concurrency.

Lemma compileFunctions_starts_all_before_resuming_any_witness :
  let st := Fixture.service Fixture.twoSenders in
  exists stF poolF,
    compileFunctions Fixture.env st stF poolF
    /\ keepsOrder (fst (startAll Fixture.env (getAllFunctions st) st)) stF.
Proof.
  intros st.
  destruct (compileFunctions_settles Fixture.env st) as (stF & poolF & Hrun).
  exists stF, poolF. split; [exact Hrun|].
  exact (proj1 (compileFunctions_starts_all_before_resuming_any
                  Fixture.env st stF poolF Hrun)).
Defined.

(** C4 fails as stated.  With two functions that both get a version, the
    second function's resource is in the template before the first
    function's version, however the suspended calls are resumed; compiled
    one after the other, the first function's version comes second. *)
Lemma compileFunctions_not_sequential_counterexample :
  let st := Fixture.service Fixture.twoSenders in
  (exists stF poolF, compileFunctions Fixture.env st stF poolF)
  /\ (forall stF poolF,
        compileFunctions Fixture.env st stF poolF ->
        nth 1 (map fst (Resources stF)) "" = "secondLambdaFunction")
  /\ nth 1 (map fst (Resources
                       (fst (compileSequentially Fixture.env
                               (getAllFunctions st) st)))) ""
     <> "secondLambdaFunction"
  /\ snd (compileSequentially Fixture.env (getAllFunctions st) st) = Ok tt.
Proof.
  intros st. split; [apply compileFunctions_settles|]. split; [|split].
  - intros stF poolF Hrun. unfold compileFunctions in Hrun.
    destruct (startAll_spec Fixture.env (getAllFunctions st) st) as [_ Ho].
    destruct (eventLoop_keepsOrder _ _ _ _ Hrun Ho) as [suffix Hs].
    rewrite Hs.
    replace (map fst (Resources (fst (startAll Fixture.env (getAllFunctions st) st))))
      with ["firstLambdaFunction"; "secondLambdaFunction"]
      by (vm_compute; reflexivity).
    reflexivity.
  - vm_compute. discriminate.
  - vm_compute. reflexivity.
Qed.

(** ** Strings and numbers *)

Module StringFacts.

Lemma append_assoc (a b c : string) : (a ++ b) ++ c = a ++ (b ++ c).
Proof. induction a; simpl; congruence. Qed.

Lemma append_nil_r (a : string) : a ++ "" = a.
Proof. induction a; simpl; congruence. Qed.

Lemma append_inv_head (a b c : string) : a ++ b = a ++ c -> b = c.
Proof. induction a; simpl; intros H; auto. inversion H. auto. Qed.

Lemma list_of_append (a b : string) :
  list_ascii_of_string (a ++ b)
  = (list_ascii_of_string a ++ list_ascii_of_string b)%list.
Proof. induction a; simpl; congruence. Qed.

Lemma append_inv_tail (a b c : string) : a ++ c = b ++ c -> a = b.
Proof.
  intros H. apply (f_equal list_ascii_of_string) in H.
  rewrite !list_of_append in H. apply app_inv_tail in H.
  apply (f_equal string_of_list_ascii) in H.
  now rewrite !string_of_list_ascii_of_string in H.
Qed.

(** A list joined around one of its elements. *)
Lemma concat_hole sep (before after : list string) :
  exists p s, forall x,
    String.concat sep (before ++ x :: after) = p ++ x ++ s.
Proof.
  induction before as [|a r (p & s & IH)]; simpl.
  - destruct after as [|y l].
    + exists "", "". intros x. simpl. now rewrite append_nil_r.
    + exists "", (sep ++ String.concat sep (y :: l)). reflexivity.
  - exists (a ++ sep ++ p), s. intros x.
    destruct (r ++ x :: after)%list eqn:Hl.
    + now destruct r.
    + rewrite <- Hl, IH. now rewrite !append_assoc.
Qed.

(** Decimal rendering can be read back. *)
Lemma toNumber_numToString n : toNumber (VStr (numToString n)) = Some n.
Proof.
  unfold toNumber, numToString.
  destruct (Z.to_int n) as [d|d] eqn:Hn;
    (destruct d;
     try (rewrite NilZero.isi by discriminate; now rewrite <- Hn, DecimalZ.of_to));
    apply (f_equal Z.of_int) in Hn; rewrite DecimalZ.of_to in Hn; now subst.
Qed.

Lemma numToString_inj n m : numToString n = numToString m -> n = m.
Proof.
  intros H. apply (f_equal (fun s => toNumber (VStr s))) in H.
  rewrite !toNumber_numToString in H. now inversion H.
Qed.

End StringFacts.


(** ** One property changed *)

Section OneProperty.
Import StringFacts.

Lemma setP_differAt k v1 v2 o : differAt (k, v1) (k, v2) (setP k v1 o) (setP k v2 o).
Proof.
  induction o as [|[j w] r (b & a & H1 & H2)]; simpl.
  - exists [], []. auto.
  - destruct (String.eqb j k) eqn:Hj.
    + apply String.eqb_eq in Hj. subst. exists [], r. auto.
    + exists ((j, w) :: b), a. simpl. now rewrite H1, H2.
Qed.

Lemma differAt_setP c1 c2 j x o1 o2 :
  fst c1 = fst c2 -> j <> fst c1 -> differAt c1 c2 o1 o2 ->
  differAt c1 c2 (setP j x o1) (setP j x o2).
Proof.
  intros Hc Hj (b & a & -> & ->).
  induction b as [|[i w] b IH]; simpl.
  - destruct c1 as [k1 v1], c2 as [k2 v2]. simpl in *. subst k2.
    destruct (String.eqb k1 j) eqn:Hk.
    { apply String.eqb_eq in Hk. congruence. }
    exists [], (setP j x a). auto.
  - destruct (String.eqb i j).
    + exists ((i, x) :: b), a. auto.
    + destruct IH as (b' & a' & H1 & H2).
      exists ((i, w) :: b'), a'. simpl. now rewrite H1, H2.
Qed.

Lemma differAt_deleteP c1 c2 j o1 o2 :
  fst c1 = fst c2 -> j <> fst c1 -> differAt c1 c2 o1 o2 ->
  differAt c1 c2 (deleteP j o1) (deleteP j o2).
Proof.
  intros Hc Hj (b & a & -> & ->).
  induction b as [|[i w] b IH]; simpl.
  - destruct c1 as [k1 v1], c2 as [k2 v2]. simpl in *. subst k2.
    destruct (String.eqb k1 j) eqn:Hk.
    { apply String.eqb_eq in Hk. congruence. }
    exists [], (deleteP j a). auto.
  - destruct (String.eqb i j).
    + exists b, a. auto.
    + destruct IH as (b' & a' & H1 & H2).
      exists ((i, w) :: b'), a'. simpl. now rewrite H1, H2.
Qed.

Lemma deleteP_setP k v o : deleteP k (setP k v o) = deleteP k o.
Proof.
  induction o as [|[j w] r IH]; simpl.
  - now rewrite String.eqb_refl.
  - destruct (String.eqb j k) eqn:Hj; simpl; rewrite Hj; congruence.
Qed.

Lemma deleteP_setP_ne j k v o :
  j <> k -> deleteP j (setP k v o) = setP k v (deleteP j o).
Proof.
  intros Hjk. induction o as [|[i w] r IH]; simpl.
  - destruct (String.eqb k j) eqn:H; auto.
    apply String.eqb_eq in H. congruence.
  - destruct (String.eqb i k) eqn:Hik; destruct (String.eqb i j) eqn:Hij; simpl;
      rewrite ?Hik, ?Hij; try congruence.
    apply String.eqb_eq in Hik, Hij. congruence.
Qed.

Section Sorted.
Variable cmp : string -> string -> comparison.

Lemma insertBy_cell c1 c2 acc :
  fst c1 = fst c2 ->
  differAt c1 c2 (insertBy (Json.keyGt cmp) c1 acc)
                 (insertBy (Json.keyGt cmp) c2 acc).
Proof.
  intros Hc. induction acc as [|y r (b & a & H1 & H2)]; simpl.
  - exists [], []. auto.
  - unfold Json.keyGt at 1 3. rewrite Hc.
    destruct (cmp (fst y) (fst c2)).
    + exists (y :: b), a. simpl. now rewrite H1, H2.
    + exists (y :: b), a. simpl. now rewrite H1, H2.
    + exists [], (y :: r). auto.
Qed.

Lemma insertBy_differAt c1 c2 x o1 o2 :
  fst c1 = fst c2 -> differAt c1 c2 o1 o2 ->
  differAt c1 c2 (insertBy (Json.keyGt cmp) x o1)
                 (insertBy (Json.keyGt cmp) x o2).
Proof.
  intros Hc (b & a & -> & ->).
  induction b as [|y b (b' & a' & H1 & H2)]; simpl.
  - unfold Json.keyGt at 1 3. rewrite Hc.
    destruct (cmp (fst c2) (fst x)).
    + exists [], (insertBy (Json.keyGt cmp) x a). auto.
    + exists [], (insertBy (Json.keyGt cmp) x a). auto.
    + exists [x], a. auto.
  - destruct (Json.keyGt cmp y x).
    + exists (x :: y :: b), a. auto.
    + exists (y :: b'), a'. simpl. now rewrite H1, H2.
Qed.

Lemma sortEntries_differAt c1 c2 o1 o2 :
  fst c1 = fst c2 -> differAt c1 c2 o1 o2 ->
  differAt c1 c2 (Json.sortEntries cmp o1) (Json.sortEntries cmp o2).
Proof.
  intros Hc (b & a & -> & ->).
  unfold Json.sortEntries, sortBy. rewrite !fold_left_app. simpl.
  generalize (fold_left (fun acc x => insertBy (Json.keyGt cmp) x acc) b []).
  intros acc.
  pose proof (insertBy_cell c1 c2 acc Hc) as H.
  revert H.
  generalize (insertBy (Json.keyGt cmp) c1 acc)
             (insertBy (Json.keyGt cmp) c2 acc).
  induction a as [|x a IH]; intros l1 l2 H; simpl; auto.
  apply IH. now apply insertBy_differAt.
Qed.
End Sorted.

(** Serialisations of two objects that differ in one number. *)
Lemma stringifyObj_differAt quote k n1 n2 o1 o2 :
  differAt (k, VNum n1) (k, VNum n2) o1 o2 ->
  exists p s,
    Json.stringifyObj quote o1 = p ++ numToString n1 ++ s
    /\ Json.stringifyObj quote o2 = p ++ numToString n2 ++ s.
Proof.
  intros (b & a & -> & ->).
  unfold Json.stringifyObj. cbn [Json.stringify].
  rewrite !flat_map_app. cbn [flat_map Json.stringify snd fst].
  set (item := fun kv : string * value =>
                 match Json.stringify quote (snd kv) with
                 | Some s => [quote (fst kv) ++ ":" ++ s]
                 | None => []
                 end).
  destruct (concat_hole "," (flat_map item b) (flat_map item a)) as (p & s & H).
  exists ("{" ++ p ++ quote k ++ ":"), (s ++ "}").
  split; cbn [app]; rewrite H, !append_assoc; reflexivity.
Qed.
End OneProperty.

(** ** Sensitivity of the version digest *)

Section Sensitivity.
Variable E : Env.
Import StringFacts.

Lemma differAt_map (f : string * value -> string * value) c1 c2 o1 o2 :
  differAt c1 c2 o1 o2 -> differAt (f c1) (f c2) (map f o1) (map f o2).
Proof.
  intros (b & a & -> & ->). exists (map f b), (map f a).
  now rewrite !map_app.
Qed.

Lemma configurationText_differAt st k n1 n2 p1 p2 stripped :
  k <> "layerConfigurations" ->
  differAt (k, VNum n1) (k, VNum n2) p1 p2 ->
  exists p s,
    configurationText E st p1 stripped = p ++ numToString n1 ++ s
    /\ configurationText E st p2 stripped = p ++ numToString n2 ++ s.
Proof.
  intros Hk Hd. unfold configurationText.
  destruct (legacyHashing st).
  - apply (stringifyObj_differAt _ k).
    apply sortEntries_differAt; [reflexivity|].
    apply differAt_setP; auto.
  - cbn [Json.deepSortObjectByKey entries].
    apply (stringifyObj_differAt _ k).
    apply sortEntries_differAt; [reflexivity|].
    apply (differAt_map
             (fun kv => (fst kv, Json.deepSortObjectByKey (localeCompare E) (snd kv)))
             (k, VNum n1) (k, VNum n2)).
    apply differAt_setP; auto.
Qed.

Lemma versionedProperties_excluded fo k v p :
  excludedFromSnapshot fo k = true ->
  versionedProperties fo (setP k v p) = versionedProperties fo p.
Proof.
  unfold excludedFromSnapshot, versionedProperties. intros H.
  apply orb_true_iff in H as [H|H]; [apply orb_true_iff in H as [H|H]|].
  - apply String.eqb_eq in H. subst.
    destruct (negb (truthy (getP "image" fo)));
      rewrite ?(deleteP_setP_ne "Code" "ReservedConcurrentExecutions")
        by discriminate;
      now rewrite deleteP_setP.
  - apply String.eqb_eq in H. subst.
    destruct (negb (truthy (getP "image" fo)));
      rewrite ?(deleteP_setP_ne "Code" "Tags") by discriminate;
      rewrite (deleteP_setP_ne "ReservedConcurrentExecutions" "Tags")
        by discriminate;
      now rewrite deleteP_setP.
  - apply andb_true_iff in H as [H Hi]. apply String.eqb_eq in H. subst.
    rewrite Hi. now rewrite deleteP_setP.
Qed.

Lemma versionedProperties_differAt fo k n1 n2 p :
  excludedFromSnapshot fo k = false ->
  differAt (k, VNum n1) (k, VNum n2)
    (versionedProperties fo (setP k (VNum n1) p))
    (versionedProperties fo (setP k (VNum n2) p)).
Proof.
  unfold excludedFromSnapshot, versionedProperties. intros H.
  apply orb_false_iff in H as [H Hc]. apply orb_false_iff in H as [Hr Ht].
  apply String.eqb_neq in Hr, Ht.
  apply differAt_deleteP; [reflexivity|simpl; congruence|].
  apply differAt_deleteP; [reflexivity|simpl; congruence|].
  destruct (negb (truthy (getP "image" fo))) eqn:Hi.
  - rewrite andb_true_r in Hc. apply String.eqb_neq in Hc.
    apply differAt_deleteP; [reflexivity|simpl; congruence|].
    apply setP_differAt.
  - apply setP_differAt.
Qed.

Lemma extract_withProperty k v ctx st :
  k <> "Layers" ->
  extractLayerConfigurationsFromFunction
    (props (functionResource (withProperty k v ctx))) st
  = extractLayerConfigurationsFromFunction (props (functionResource ctx)) st.
Proof.
  intros Hk. unfold withProperty, extractLayerConfigurationsFromFunction. simpl.
  rewrite props_setProp, !getP_setP_ne by congruence. reflexivity.
Qed.

(** X1.  Changing a property of the compute resource that the snapshot
    leaves out -- the reserved-concurrency count, the tag list, and the
    code location of a handler-based function -- leaves the version digest
    as it was.  Changing the number held by a property the snapshot keeps,
    such as the memory size, changes the text that is hashed, and with it
    the digest of any hash that tells those two texts apart. *)
Theorem versionDigest_ignores_excluded_properties_only fo ctx st :
  (forall k v,
      excludedFromSnapshot fo k = true ->
      digestOf E fo (withProperty k v ctx) st = digestOf E fo ctx st)
  /\ (forall k n1 n2 t1 t2,
        excludedFromSnapshot fo k = false ->
        k <> "Layers" -> k <> "layerConfigurations" ->
        n1 <> n2 ->
        hashInputOf E fo (withProperty k (VNum n1) ctx) st = Ok t1 ->
        hashInputOf E fo (withProperty k (VNum n2) ctx) st = Ok t2 ->
        t1 <> t2
        /\ (sha256_base64 E t1 <> sha256_base64 E t2 ->
            digestOf E fo (withProperty k (VNum n1) ctx) st
            <> digestOf E fo (withProperty k (VNum n2) ctx) st)).
Proof.
  split.
  - intros k v Hx. unfold digestOf.
    assert (Hk : k <> "Layers").
    { intros ->. unfold excludedFromSnapshot in Hx. simpl in Hx. discriminate. }
    rewrite extract_withProperty by assumption.
    unfold versionDigest, versionHashInput, artifactWrites, withProperty.
    cbn [functionResource functionImageSha artifactFilePath].
    rewrite props_setProp, versionedProperties_excluded by assumption.
    reflexivity.
  - intros k n1 n2 t1 t2 Hx Hl Hc Hn. unfold hashInputOf, digestOf.
    rewrite !extract_withProperty by assumption.
    unfold versionDigest, versionHashInput, artifactWrites, withProperty.
    cbn [functionResource functionImageSha artifactFilePath].
    rewrite !props_setProp.
    destruct (stripAll _) as [stripped|e]; [|discriminate].
    destruct (configurationText_differAt st k n1 n2 _ _ stripped Hc
                (versionedProperties_differAt fo k n1 n2
                   (props (functionResource ctx)) Hx))
      as (p & s & -> & ->).
    match goal with
    | |- Ok (String.concat "" (?w ++ _)) = _ -> _ =>
        destruct (concat_hole "" w []) as (p0 & s0 & Hw)
    end.
    rewrite !Hw. intros H1 H2. inversion H1; inversion H2; subst.
    assert (Hne : p0 ++ (p ++ numToString n1 ++ s) ++ s0
                  <> p0 ++ (p ++ numToString n2 ++ s) ++ s0).
    { intros H. apply append_inv_head, append_inv_tail, append_inv_head,
        append_inv_tail, numToString_inj in H. contradiction. }
    split; [assumption|].
    intros Hsha H. inversion H. contradiction.
Qed.
End Sensitivity.


Lemma versionDigest_ignores_excluded_properties_only_witness :
  let st := Fixture.service [("hello", Fixture.hello)] in
  digestOf Fixture.env (entries Fixture.hello)
    (withProperty "ReservedConcurrentExecutions" (VNum 5) Fixture.helloContext) st
  = digestOf Fixture.env (entries Fixture.hello) Fixture.helloContext st
  /\ digestOf Fixture.env (entries Fixture.hello)
       (withProperty "MemorySize" (VNum 512) Fixture.helloContext) st
     <> digestOf Fixture.env (entries Fixture.hello)
          (withProperty "MemorySize" (VNum 1024) Fixture.helloContext) st.
Proof.
  intros st.
  destruct (versionDigest_ignores_excluded_properties_only Fixture.env
              (entries Fixture.hello) Fixture.helloContext st) as [Hx Hi].
  split.
  - apply Hx. reflexivity.
  - refine (proj2 (Hi "MemorySize" 512 1024 _ _ eq_refl _ _ _ eq_refl eq_refl) _);
      discriminate.
Defined.

(** ** Statements merged by deep equality *)

Section Statements.
Import UniqFacts.

Lemma unionWith1_eq l s :
  unionWith1 l s
  = if existsb (isEqual s) (uniqWith l) then uniqWith l
    else (uniqWith l ++ [s])%list.
Proof.
  unfold unionWith1, uniqWith. now rewrite uniqBy_snoc, app_nil_r.
Qed.

Lemma unionWith1_spec l s :
  isEqual s s = true ->
  existsb (isEqual s) (unionWith1 l s) = true
  /\ (forall x, In x (unionWith1 l s) -> In x l \/ x = s)
  /\ (forall x, In x l -> wellFormed x = true ->
                existsb (isEqual x) (unionWith1 l s) = true)
  /\ apart (unionWith1 l s).
Proof.
  intros Hs. unfold unionWith1, uniqWith.
  split; [|split; [|split]].
  - rewrite <- (app_nil_r (uniqBy isEqual [] (l ++ [s]))).
    apply uniqBy_covered; [|exact Hs].
    apply in_or_app. right. now left.
  - intros x Hx. apply uniqBy_incl in Hx.
    apply in_app_or in Hx as [H|[H|[]]]; auto.
  - intros x Hx Hw.
    rewrite <- (app_nil_r (uniqBy isEqual [] (l ++ [s]))).
    apply uniqBy_covered; [|now apply isEqual_refl].
    apply in_or_app. now left.
  - apply uniqBy_apart.
Qed.

Lemma unionWith1_again l s :
  isEqual s s = true -> unionWith1 (unionWith1 l s) s = unionWith1 l s.
Proof.
  intros Hs.
  destruct (unionWith1_spec l s Hs) as (He & _ & _ & Ha).
  rewrite (unionWith1_eq (unionWith1 l s)).
  unfold uniqWith at 1 2 3.
  rewrite uniqBy_fixed; [now rewrite He|exact Ha|].
  apply Forall_forall. reflexivity.
Qed.

Lemma unionStatement_spec stmt st l :
  iamStatements st = Some l ->
  isEqual stmt stmt = true ->
  exists l',
    iamStatements (unionStatement stmt st) = Some l'
    /\ existsb (isEqual stmt) l' = true
    /\ (forall x, In x l' -> In x l \/ x = stmt)
    /\ (forall x, In x l -> wellFormed x = true ->
                  existsb (isEqual x) l' = true)
    /\ apart l'
    /\ unionStatement stmt (unionStatement stmt st) = unionStatement stmt st.
Proof.
  intros Hl Hs. unfold unionStatement at 1 2. rewrite Hl. simpl.
  exists (unionWith1 l stmt).
  destruct (unionWith1_spec l stmt Hs) as (H1 & H2 & H3 & H4).
  repeat (split; [first [reflexivity | assumption]|]).
  unfold unionStatement. rewrite Hl. simpl. now rewrite unionWith1_again.
Qed.

(** X2.  Lines 311-339 and 341-372.  The statement for tracing is merged
    into the default role's policy by [_.unionWith] under [_.isEqual],
    which compares objects whatever the order of their keys.  Once a
    function with tracing is compiled the policy holds a statement the
    X-Ray statement deep-equals; nothing else was added; every earlier
    statement still deep-equals one that is there; no statement
    deep-equals an earlier one (earlier duplicates collapse as well); and
    tracing on another function leaves the policy as it is.  The same
    holds of the [kms:Decrypt] statement of a KMS key given as a
    string. *)
Theorem tracing_and_kms_statements_are_merged fo st r l :
  iamStatements st = Some l ->
  (truthy (or_ (getP "tracing" fo)
               (and_ (getP "tracing" (provider st))
                     (get "lambda" (getP "tracing" (provider st))))) = true ->
   let xray := allow (VArr [VStr "xray:PutTraceSegments";
                            VStr "xray:PutTelemetryRecords"])
                     (VArr [VStr "*"]) in
   let st' := fst (compileTracing fo st r) in
   exists l',
     iamStatements st' = Some l'
     /\ existsb (isEqual xray) l' = true
     /\ (forall x, In x l' -> In x l \/ x = xray)
     /\ (forall x, In x l -> wellFormed x = true ->
                   existsb (isEqual x) l' = true)
     /\ apart l'
     /\ (forall fo2 r2,
           truthy (or_ (getP "tracing" fo2)
                       (and_ (getP "tracing" (provider st))
                             (get "lambda" (getP "tracing" (provider st)))))
           = true ->
           iamStatements (fst (compileTracing fo2 st' r2)) = Some l'))
  /\ (forall key,
        getP "kmsKeyArn" fo = VStr key -> key <> "" ->
        let decrypt := allow (VArr [VStr "kms:Decrypt"]) (VArr [VStr key]) in
        let st' := fst (compileKmsKey fo st r) in
        exists l',
          iamStatements st' = Some l'
          /\ existsb (isEqual decrypt) l' = true
          /\ (forall x, In x l' -> In x l \/ x = decrypt)
          /\ (forall x, In x l -> wellFormed x = true ->
                        existsb (isEqual x) l' = true)
          /\ apart l'
          /\ (forall r2, iamStatements (fst (compileKmsKey fo st' r2)) = Some l')).
Proof.
  intros Hl. split.
  - intros Ht xray st'. subst st'.
    assert (Heq : fst (compileTracing fo st r) = unionStatement xray st).
    { unfold compileTracing. cbv zeta. now rewrite Ht. }
    rewrite Heq.
    destruct (unionStatement_spec xray st l Hl eq_refl)
      as (l' & H1 & H2 & H3 & H4 & H5 & H6).
    exists l'. repeat (split; [assumption|]).
    intros fo2 r2 Ht2. unfold compileTracing. cbv zeta.
    assert (Hp : provider (unionStatement xray st) = provider st).
    { unfold unionStatement. now rewrite Hl. }
    rewrite Hp, Ht2. cbn [fst]. fold xray. now rewrite H6.
  - intros key Hk Hne decrypt st'. subst st'.
    assert (Hs : forall s r0, provider s = provider st ->
               fst (compileKmsKey fo s r0) = unionStatement decrypt s).
    { intros s r0 Hp. unfold compileKmsKey. cbv zeta. rewrite Hk.
      assert (Htr : truthy (VStr key) = true).
      { simpl. destruct (String.eqb key "") eqn:He; auto.
        apply String.eqb_eq in He. contradiction. }
      rewrite Htr. cbv beta iota. rewrite Htr. reflexivity. }
    rewrite Hs by reflexivity.
    assert (Hd : isEqual decrypt decrypt = true).
    { unfold decrypt, allow. simpl. now rewrite String.eqb_refl. }
    destruct (unionStatement_spec decrypt st l Hl Hd)
      as (l' & H1 & H2 & H3 & H4 & H5 & H6).
    exists l'. repeat (split; [assumption|]).
    intros r2. rewrite Hs; [now rewrite H6|].
    unfold unionStatement. now rewrite Hl.
Qed.
End Statements.

(** An X-Ray statement written with its keys in another order, as a
    hand-written policy may have it, is the X-Ray statement: tracing adds
    no second one. *)
Lemma tracing_and_kms_statements_are_merged_witness :
  let xray := allow (VArr [VStr "xray:PutTraceSegments"; VStr "xray:PutTelemetryRecords"])
                    (VArr [VStr "*"]) in
  let written :=
    VObj [("Action", VArr [VStr "xray:PutTraceSegments";
                           VStr "xray:PutTelemetryRecords"]);
          ("Resource", VArr [VStr "*"]);
          ("Effect", VStr "Allow")] in
  let fo := setP "tracing" (VBool true) (entries Fixture.hello) in
  let st := setIamStatements (Some [written; written])
              (Fixture.service [("hello", VObj fo)]) in
  iamStatements (fst (compileTracing fo st cfLambdaFunctionTemplate))
  = Some [written]
  /\ existsb (isEqual xray) [written] = true
  /\ apart [written].
Proof.
  intros xray written fo st.
  destruct (proj1 (tracing_and_kms_statements_are_merged fo st
                     cfLambdaFunctionTemplate [written; written] eq_refl)
              eq_refl)
    as (l' & Hl & He & _ & _ & Ha & _).
  assert (Hc : iamStatements (fst (compileTracing fo st cfLambdaFunctionTemplate))
               = Some [written]) by (vm_compute; reflexivity).
  rewrite Hc in Hl. inversion Hl; subst l'.
  split; [exact Hc|]. split; [exact He|exact Ha].
Defined.

(** ** The event-invoke configuration *)

Section EventInvokeConfig.
Variable E : Env.

(** X3.  A function with none of [destinations], [maximumEventAge] and
    [maximumRetryAttempts] gets no event-invoke configuration, and a
    maximum age of zero counts as none; a retry count of zero is a setting
    like any other and is written into the resource. *)
Theorem eventInvokeConfig_zero_retries_kept_zero_age_dropped name st fo :
  getFunction name st = Some fo ->
  truthy (getP "destinations" fo) = false ->
  (isNullish (getP "maximumRetryAttempts" fo) = true ->
   truthy (getP "maximumEventAge" fo) = false ->
   compileFunctionEventInvokeConfig E name st = (st, Ok tt))
  /\ (getP "maximumRetryAttempts" fo = VNum 0 ->
      truthy (getP "maximumEventAge" fo) = false ->
      exists r,
        compileFunctionEventInvokeConfig E name st
        = (putResource (getLambdaEventConfigLogicalId E name) r st, Ok tt)
        /\ getP "Type" r = VStr "AWS::Lambda::EventInvokeConfig"
        /\ lookup "MaximumRetryAttempts" (props r) = Some (VNum 0)
        /\ lookup "MaximumEventAgeInSeconds" (props r) = None
        /\ getP "DestinationConfig" (props r) = VObj []).
Proof.
  intros Hf Hd. split.
  - intros Hr Ha. unfold compileFunctionEventInvokeConfig.
    rewrite Hf. cbv zeta. now rewrite Hd, Hr, Ha.
  - intros Hr Ha. unfold compileFunctionEventInvokeConfig.
    rewrite Hf. cbv zeta. rewrite Hd, Hr, Ha. cbn [negb andb isNullish].
    eexists. split; [reflexivity|].
    repeat split; reflexivity.
Qed.

(** X4.  With an execution role of its own -- on the function or on the
    provider -- a function's destinations are compiled without touching
    the default role's policy or the cache of granted targets. *)
Theorem destinations_leave_policy_alone_under_custom_role name st fo :
  getFunction name st = Some fo ->
  truthy (getCustomExecutionRole E (provider st) (getP "role" fo)) = true ->
  iamStatements (fst (compileFunctionEventInvokeConfig E name st))
    = iamStatements st
  /\ memoized (fst (compileFunctionEventInvokeConfig E name st)) = memoized st.
Proof.
  intros Hf Hr. unfold compileFunctionEventInvokeConfig. rewrite Hf. cbv zeta.
  rewrite Hr.
  match goal with
  | |- context [if ?b then (st, Ok tt) else _] => destruct b
  end; [auto|].
  assert (Hd : forall slot key c s,
             exists y, compileDestination E name slot key
                         (getP "destinations" fo) true c s = (s, y)).
  { intros slot key c s. unfold compileDestination.
    destruct (truthy (get slot (getP "destinations" fo))); [|eauto].
    destruct (getDestinationsArn E (get slot (getP "destinations" fo))); eauto. }
  destruct (truthy (getP "destinations" fo)).
  - destruct (Hd "onSuccess" "OnSuccess" [] st) as [y1 ->].
    destruct y1 as [c1|e1]; [|auto].
    destruct (Hd "onFailure" "OnFailure" c1 st) as [y2 ->].
    destruct y2; auto.
  - auto.
Qed.

(** X5.  Lines 729-761 and 798-845.  A destination that cannot be compiled
    stops the function before line 785: no event-invoke configuration and
    no other resource is assigned, no output is written, the declared
    functions and every resource but the default role are as they were.
    The default role is the exception: the statement pushed for an
    [onSuccess] target stays in its policy when [onFailure] fails
    afterwards, so the policy is the earlier one with at most one
    statement added. *)
Theorem failed_destination_writes_no_resource name st st' e :
  compileFunctionEventInvokeConfig E name st = (st', Err e) ->
  journal st' = journal st
  /\ (forall id, id <> "IamRoleLambdaExecution" ->
                 lookup id (Resources st') = lookup id (Resources st))
  /\ Outputs st' = Outputs st
  /\ functions st' = functions st
  /\ exists added,
       iamStatements st'
       = option_map (fun l => (l ++ added)%list) (iamStatements st)
       /\ (length added <= 1)%nat.
Proof.
  assert (Hnil : forall s, iamStatements s
                           = option_map (fun l => (l ++ [])%list) (iamStatements s)).
  { intros s. destruct (iamStatements s); simpl; [|reflexivity].
    now rewrite app_nil_r. }
  assert (He : forall slot d s s' x,
             ensureTargetExecutionPermission E name slot d s = (s', x) ->
             Outputs s' = Outputs s
             /\ (exists added,
                    iamStatements s'
                    = option_map (fun l => (l ++ added)%list) (iamStatements s)
                    /\ (length added <= 1)%nat)
             /\ (forall e', x = Err e' -> iamStatements s' = iamStatements s)).
  { intros slot d s s' x.
    unfold ensureTargetExecutionPermission, ensureTargetExecutionPermission_body.
    destruct (existsb _ _).
    { intros H; inversion H; subst. split; [reflexivity|].
      split; [exists []; split; [apply Hnil|simpl; lia]|reflexivity]. }
    destruct (iamStatements s) as [l|] eqn:Hl.
    2:{ intros H; inversion H; subst. rewrite Hl. split; [reflexivity|].
        split; [exists []; split; [reflexivity|simpl; lia]|reflexivity]. }
    destruct (destinationAction d).
    2:{ intros H; inversion H; subst. rewrite Hl. split; [reflexivity|].
        split; [exists []; split; [simpl; now rewrite app_nil_r|simpl; lia]
               |reflexivity]. }
    assert (Hpush : forall arn s1 x1,
               (setMemoized
                  (memoKeyOf E name slot d
                     :: memoized
                          (setIamStatements
                             (Some (l ++ [allow (VStr a) arn])%list) s))
                  (setIamStatements (Some (l ++ [allow (VStr a) arn])%list) s),
                @Ok unit tt) = (s1, x1) ->
               Outputs s1 = Outputs s
               /\ (exists added,
                      iamStatements s1
                      = option_map (fun l => (l ++ added)%list) (Some l)
                      /\ (length added <= 1)%nat)
               /\ (forall e', x1 = Err e' -> iamStatements s1 = Some l)).
    { intros arn s1 x1 H; inversion H; subst. split; [reflexivity|].
      split; [eexists; split; [reflexivity|simpl; lia]|discriminate]. }
    assert (Hsame : forall e0 s1 x1,
               (s, @Err unit e0) = (s1, x1) ->
               Outputs s1 = Outputs s
               /\ (exists added,
                      iamStatements s1
                      = option_map (fun l => (l ++ added)%list) (Some l)
                      /\ (length added <= 1)%nat)
               /\ (forall e', x1 = Err e' -> iamStatements s1 = Some l)).
    { intros e0 s1 x1 H; inversion H; subst. rewrite Hl.
      split; [reflexivity|].
      split; [exists []; split; [simpl; now rewrite app_nil_r|simpl; lia]
             |reflexivity]. }
    destruct d; try (apply Hpush).
    destruct (startsWith "arn:" s0); [apply Hpush|].
    destruct (getFunction s0 s); [apply Hpush|apply Hsame]. }
  assert (Hd : forall slot key d ext c s s' x,
             compileDestination E name slot key d ext c s = (s', x) ->
             (Outputs s' = Outputs s /\ Resources s' = Resources s
              /\ journal s' = journal s /\ functions s' = functions s)
             /\ (exists added,
                    iamStatements s'
                    = option_map (fun l => (l ++ added)%list) (iamStatements s)
                    /\ (length added <= 1)%nat)
             /\ (forall e', x = Err e' -> iamStatements s' = iamStatements s)).
  { intros slot key d ext c s s' x H.
    destruct (compileDestination_frame _ _ _ _ _ _ _ _ _ _ H) as (F & J & R).
    assert (Hstay : forall (y : result obj),
               (s, y) = (s', x) ->
               Outputs s' = Outputs s
               /\ (exists added,
                      iamStatements s'
                      = option_map (fun l => (l ++ added)%list) (iamStatements s)
                      /\ (length added <= 1)%nat)
               /\ (forall e', x = Err e' -> iamStatements s' = iamStatements s)).
    { intros y Hy; inversion Hy; subst. split; [reflexivity|].
      split; [exists []; split; [apply Hnil|simpl; lia]|reflexivity]. }
    assert (Hall : Outputs s' = Outputs s
               /\ (exists added,
                      iamStatements s'
                      = option_map (fun l => (l ++ added)%list) (iamStatements s)
                      /\ (length added <= 1)%nat)
               /\ (forall e', x = Err e' -> iamStatements s' = iamStatements s)).
    { revert H. unfold compileDestination.
      destruct (truthy (get slot d)); [|apply Hstay].
      destruct (getDestinationsArn E (get slot d)); [|apply Hstay].
      destruct ext; [apply Hstay|].
      destruct (ensureTargetExecutionPermission E name slot (get slot d) s)
        as [s1 [u|e1]] eqn:Hx; intros H; inversion H; subst;
        destruct (He _ _ _ _ _ Hx) as (O & A & S);
        (split; [exact O|split; [exact A|]]).
      - discriminate.
      - intros e' _. now apply (S e1). }
    destruct Hall as (O & A & S). repeat split; auto. }
  unfold compileFunctionEventInvokeConfig.
  destruct (getFunction name st) as [fo|].
  2:{ intros H; inversion H; subst. repeat (split; [reflexivity|]).
      exists []. split; [apply Hnil|simpl; lia]. }
  match goal with
  | |- context [if ?b then (st, Ok tt) else _] => destruct b
  end; [discriminate|].
  destruct (truthy (getP "destinations" fo)); [|discriminate].
  destruct (compileDestination E name "onSuccess" "OnSuccess" _ _ [] st)
    as [s1 [c1|e1]] eqn:H1;
    destruct (Hd _ _ _ _ _ _ _ _ H1) as ((O1 & R1 & J1 & F1) & A1 & S1).
  - destruct (compileDestination E name "onFailure" "OnFailure" _ _ c1 s1)
      as [s2 [c2|e2]] eqn:H2; [discriminate|].
    destruct (Hd _ _ _ _ _ _ _ _ H2) as ((O2 & R2 & J2 & F2) & _ & S2).
    intros H; inversion H; subst.
    split; [congruence|]. split; [intros id _; congruence|].
    split; [congruence|]. split; [congruence|].
    rewrite (S2 e eq_refl). exact A1.
  - intros H; inversion H; subst.
    split; [congruence|]. split; [intros id _; congruence|].
    split; [congruence|]. split; [congruence|].
    exact A1.
Qed.
End EventInvokeConfig.


Lemma eventInvokeConfig_zero_retries_kept_zero_age_dropped_witness :
  let st := Fixture.service [("hello", VObj Fixture.helloNoRetries)] in
  exists r,
    compileFunctionEventInvokeConfig Fixture.env "hello" st
    = (putResource "helloLambdaEvConf" r st, Ok tt)
    /\ lookup "MaximumRetryAttempts" (props r) = Some (VNum 0).
Proof.
  intros st.
  destruct (proj2 (eventInvokeConfig_zero_retries_kept_zero_age_dropped
                     Fixture.env "hello" st Fixture.helloNoRetries
                     eq_refl eq_refl) eq_refl eq_refl)
    as (r & H1 & _ & H2 & _).
  exists r. split; assumption.
Defined.

Lemma destinations_leave_policy_alone_under_custom_role_witness :
  let st := Fixture.service [("hello", VObj Fixture.helloOwnRole)] in
  iamStatements (fst (compileFunctionEventInvokeConfig Fixture.env "hello" st))
  = Some [].
Proof.
  intros st.
  exact (proj1 (destinations_leave_policy_alone_under_custom_role Fixture.env
                  "hello" st Fixture.helloOwnRole eq_refl eq_refl)).
Defined.

(** The [onSuccess] queue of the sample function is granted, its
    [onFailure] stream is of no supported kind: nothing is assigned, and
    the grant stays in the policy. *)
Lemma failed_destination_writes_no_resource_witness :
  let st := Fixture.service [("hello", VObj Fixture.helloBadDestination)] in
  let st' := fst (compileFunctionEventInvokeConfig Fixture.env "hello" st) in
  journal st' = journal st
  /\ Outputs st' = Outputs st
  /\ iamStatements st = Some []
  /\ iamStatements st'
     = Some [allow (VStr "sqs:SendMessage") (VStr Fixture.queue)].
Proof.
  intros st st'.
  assert (Hc : compileFunctionEventInvokeConfig Fixture.env "hello" st
               = (st', Err (unsupportedDestinationError
                              (VObj [("type", VStr "kinesis");
                                     ("arn", VStr Fixture.queue)]))))
    by (vm_compute; reflexivity).
  destruct (failed_destination_writes_no_resource Fixture.env "hello" st st' _ Hc)
    as (Hj & _ & Ho & _).
  split; [exact Hj|]. split; [exact Ho|].
  split; vm_compute; reflexivity.
Defined.

(** ** Authorization of a function URL *)

Section UrlAuthorization.
Variable E : Env.

(** X6.  A function URL is open unless its authorizer is exactly [aws_iam]:
    with any other authorizer, or none, the URL resource gets [AuthType:
    NONE] and a permission that lets everyone invoke the URL is assigned
    right after it; with [aws_iam] the URL resource is the only assignment.
    A function without [url] leaves the template untouched. *)
Theorem function_url_is_public_unless_aws_iam name st fo :
  getFunction name st = Some fo ->
  let iam := isStr (get "authorizer" (getP "url" fo)) "aws_iam" in
  let st' := fst (compileFunctionUrl E name st) in
  (truthy (getP "url" fo) = false -> compileFunctionUrl E name st = (st, Ok tt))
  /\ getP "AuthType" (props (urlResource E name fo))
     = VStr (if iam then "AWS_IAM" else "NONE")
  /\ (truthy (getP "url" fo) = true -> iam = true ->
      journal st'
      = (getLambdaFunctionUrlLogicalId E name, VObj (urlResource E name fo))
          :: journal st)
  /\ (truthy (getP "url" fo) = true -> iam = false ->
      exists permission,
        journal st'
        = (getLambdaFnUrlPermissionLogicalId E name, VObj permission)
            :: (getLambdaFunctionUrlLogicalId E name, VObj (urlResource E name fo))
            :: journal st
        /\ getP "Type" permission = VStr "AWS::Lambda::Permission"
        /\ getP "Action" (props permission) = VStr "lambda:InvokeFunctionUrl"
        /\ getP "Principal" (props permission) = VStr "*"
        /\ getP "FunctionUrlAuthType" (props permission) = VStr "NONE").
Proof.
  intros Hf iam st'. subst iam st'.
  split; [|split; [|split]].
  - intros Hu. unfold compileFunctionUrl. now rewrite Hf, Hu.
  - unfold urlResource. cbv zeta.
    destruct (isStr (get "authorizer" (getP "url" fo)) "aws_iam");
      repeat match goal with
             | |- context [if ?b then _ else _] => destruct b
             end; reflexivity.
  - intros Hu Hi. unfold compileFunctionUrl. rewrite Hf. cbv zeta.
    rewrite Hu, Hi. reflexivity.
  - intros Hu Hi. unfold compileFunctionUrl. rewrite Hf. cbv zeta.
    rewrite Hu, Hi. cbn [negb fst].
    eexists. split; [reflexivity|]. repeat split; reflexivity.
Qed.
End UrlAuthorization.


Lemma function_url_is_public_unless_aws_iam_witness :
  getP "AuthType" (props (urlResource Fixture.env "hello" Fixture.helloUrl))
  = VStr "NONE".
Proof.
  exact (proj1 (proj2
           (function_url_is_public_unless_aws_iam Fixture.env "hello"
              (Fixture.service [("hello", VObj Fixture.helloUrl)])
              Fixture.helloUrl eq_refl))).
Defined.

(** ** The compute resource, property by property *)


(** A property set under a condition, read at another key. *)
Section Conditionals.

Lemma props_if_setProp (b : bool) j v r k :
  k <> j ->
  lookup k (props (if b then setProp j v r else r)) = lookup k (props r).
Proof.
  intros Hk. destruct b; [|reflexivity].
  rewrite props_setProp. now apply lookup_setP_ne.
Qed.

Lemma props_if_setP (b : bool) j v r :
  j <> "Properties" -> props (if b then setP j v r else r) = props r.
Proof. intros Hj. destruct b; [|reflexivity]. now apply props_setP. Qed.

Lemma getP_if_setProp (b : bool) j v r k :
  k <> "Properties" ->
  getP k (if b then setProp j v r else r) = getP k r.
Proof. intros Hk. destruct b; [|reflexivity]. now apply getP_setProp. Qed.

Lemma getP_if_setP (b : bool) j v r k :
  k <> j -> getP k (if b then setP j v r else r) = getP k r.
Proof. intros Hk. destruct b; [|reflexivity]. now apply getP_setP_ne. Qed.
End Conditionals.

Ltac frameK Hk :=
  repeat first
    [ rewrite props_setProp
    | rewrite props_setCode
    | rewrite props_setP by discriminate
    | rewrite lookup_setP_ne by (intros ->; apply Hk; simpl; tauto) ].

Section LateBuilders.
Variable E : Env.
Variable k : string.
Hypothesis Hk : ~ In k lateProperties.

Lemma compileOnError_late fo st r :
  lookup k (props (snd (compileOnError fo st r))) = lookup k (props r).
Proof. unfold compileOnError. cbv zeta. splitCases; simpl; frameK Hk; reflexivity. Qed.

Lemma compileKmsKey_late fo st r :
  lookup k (props (snd (compileKmsKey fo st r))) = lookup k (props r).
Proof. unfold compileKmsKey. cbv zeta. splitCases; simpl; frameK Hk; reflexivity. Qed.

Lemma compileTracing_late fo st r :
  lookup k (props (snd (compileTracing fo st r))) = lookup k (props r).
Proof. unfold compileTracing. cbv zeta. splitCases; simpl; frameK Hk; reflexivity. Qed.

Lemma compileEnvironment_late fo st r :
  lookup k (props (compileEnvironment fo st r)) = lookup k (props r).
Proof. unfold compileEnvironment. splitCases; frameK Hk; reflexivity. Qed.

Lemma compileRole_late r role :
  lookup k (props (roleOf r role)) = lookup k (props r).
Proof.
  destruct (roleOf_cases r role) as [-> | [[v ->] | (v & d & ->)]];
    frameK Hk; reflexivity.
Qed.

Lemma compileVpc_late fo st r :
  lookup k (props (snd (compileVpc fo st r))) = lookup k (props r).
Proof. unfold compileVpc. cbv zeta. splitCases; simpl; frameK Hk; reflexivity. Qed.

Lemma compileFileSystem_late name fo st r st' r' :
  compileFileSystem name fo st r = (st', Ok r') ->
  lookup k (props r') = lookup k (props r).
Proof.
  unfold compileFileSystem. cbv zeta.
  splitCases; intros H; inversion H; subst; frameK Hk; reflexivity.
Qed.

Lemma compileLast_late name fo st r :
  lookup k (props (compileLogsAndLayers E name fo st
                     (compileReservedConcurrency fo r)))
  = lookup k (props r).
Proof.
  unfold compileLogsAndLayers, compileReservedConcurrency. cbv zeta.
  splitCases; frameK Hk; reflexivity.
Qed.
End LateBuilders.


Section ComputeResource.
Variable E : Env.

(** Everything [buildFunction] writes after the common properties leaves
    the earlier ones alone. *)
Lemma buildFunction_late name fo st st' ctx :
  buildFunction E name fo st = (st', Ok ctx) ->
  artifactFilePath ctx = snd (fst (packageStage E name fo st))
  /\ (forall k, k <> "vpc" ->
        getP k (functionObject ctx)
        = getP k (fst (fst (packageStage E name fo st))))
  /\ forall k, ~ In k lateProperties ->
       lookup k (props (functionResource ctx))
       = lookup k (props (commonProperties (fst (fst (packageStage E name fo st)))
                            st (snd (packageStage E name fo st)))).
Proof.
  unfold buildFunction, packageStage.
  destruct (if truthy (getP "image" fo) then _ else _) as [uri sha].
  cbv zeta. cbn [fst].
  match goal with
  | |- context [let '(_, _) := ?x in _] => destruct x as [[fo1 afp] r1] eqn:H1
  end.
  destruct (compileOnError fo1 st (commonProperties fo1 st r1)) as [s2 r2] eqn:H2.
  destruct (compileKmsKey fo1 s2 r2) as [s3 r3] eqn:H3.
  destruct (compileTracing fo1 s3 r3) as [s4 r4] eqn:H4.
  destruct (compileRole _ _) as [rr|er] eqn:Hrole; [|discriminate].
  apply compileRole_ok in Hrole. subst rr.
  match goal with
  | |- context [compileVpc ?f ?s ?r] =>
      destruct (compileVpc f s r) as [[fo5 s5] r5] eqn:H5
  end.
  destruct (compileFileSystem name fo5 s5 r5) as [s6 [r6|e6]] eqn:H6;
    intros H; inversion H; subst; clear H. cbn [artifactFilePath functionResource snd fst].
  split; [reflexivity|]. split.
  { intros k Hk.
    replace fo5 with (fst (fst (compileVpc fo1 s4
                          (roleOf (compileEnvironment fo1 s4 r4)
                             (or_ (getCustomExecutionRole E (provider s4)
                                     (getP "role" fo1))
                                  (VStr "IamRoleLambdaExecution"))))))
      by now rewrite H5.
    now apply compileVpc_functionObject. }
  intros k Hk.
  rewrite (compileLast_late E k Hk).
  rewrite (compileFileSystem_late k Hk _ _ _ _ _ _ H6).
  replace r5 with (snd (compileVpc fo1 s4
                          (roleOf (compileEnvironment fo1 s4 r4)
                             (or_ (getCustomExecutionRole E (provider s4)
                                     (getP "role" fo1))
                                  (VStr "IamRoleLambdaExecution")))))
    by now rewrite H5.
  rewrite (compileVpc_late k Hk), (compileRole_late k Hk),
    (compileEnvironment_late k Hk).
  replace r4 with (snd (compileTracing fo1 s3 r3)) by now rewrite H4.
  rewrite (compileTracing_late k Hk).
  replace r3 with (snd (compileKmsKey fo1 s2 r2)) by now rewrite H3.
  rewrite (compileKmsKey_late k Hk).
  replace r2 with (snd (compileOnError fo1 st (commonProperties fo1 st r1)))
    by now rewrite H2.
  rewrite (compileOnError_late k Hk). reflexivity.
Qed.

Lemma commonProperties_early fo st r k :
  ~ In k ["FunctionName"; "MemorySize"; "Timeout"; "Architectures";
          "Description"; "Tags"; "EphemeralStorage"] ->
  lookup k (props (commonProperties fo st r)) = lookup k (props r).
Proof.
  intros Hk. unfold commonProperties. cbv zeta.
  repeat first
    [ rewrite props_if_setProp by (intros ->; apply Hk; simpl; tauto)
    | rewrite props_if_setP by discriminate
    | rewrite props_setProp
    | rewrite lookup_setP_ne by (intros ->; apply Hk; simpl; tauto) ].
  reflexivity.
Qed.

Lemma commonProperties_sizes fo st r :
  lookup "FunctionName" (props (commonProperties fo st r))
    = Some (getP "name" fo)
  /\ lookup "MemorySize" (props (commonProperties fo st r))
    = Some (getP "memory" fo)
  /\ lookup "Timeout" (props (commonProperties fo st r))
    = Some (getP "timeout" fo).
Proof.
  unfold commonProperties. cbv zeta.
  repeat first
    [ rewrite props_if_setProp by discriminate
    | rewrite props_if_setP by discriminate ].
  rewrite !props_setProp.
  split; [|split]; rewrite ?lookup_setP_ne by discriminate;
    apply lookup_setP_eq.
Qed.

Lemma or_l a b : truthy a = true -> or_ a b = a.
Proof. unfold or_. now intros ->. Qed.

Lemma or_r a b : truthy a = false -> or_ a b = b.
Proof. unfold or_. now intros ->. Qed.

Lemma packageStage_sizes name fo st :
  getP "memory" (fst (fst (packageStage E name fo st)))
  = or_ (getP "memorySize" fo)
        (or_ (getP "memorySize" (provider st)) (VNum 1024))
  /\ getP "timeout" (fst (fst (packageStage E name fo st)))
     = or_ (getP "timeout" fo) (or_ (getP "timeout" (provider st)) (VNum 6)).
Proof.
  unfold packageStage. cbv zeta.
  rewrite !(getP_setP_ne "timeout" "memory") by discriminate.
  destruct (truthy (getP "timeout" fo)) eqn:Ht; cbn [negb];
    rewrite ?(getP_setP_ne "handler") by discriminate;
    destruct (truthy (getP "handler" fo)); cbn [fst];
    rewrite ?(getP_setP_ne _ "runtime") by discriminate;
    rewrite ?getP_setP_eq, ?(getP_setP_ne "memory" "timeout") by discriminate;
    rewrite ?getP_setP_eq, ?(getP_setP_ne "timeout" "memory") by discriminate;
    (split; [reflexivity|]);
    first [ rewrite (or_l _ _ Ht) | rewrite (or_r _ _ Ht) ]; reflexivity.
Qed.

Lemma or_default_truthy a b d :
  truthy d = true -> truthy (or_ a (or_ b d)) = true.
Proof.
  intros Hd. unfold or_.
  destruct (truthy a) eqn:Ha; auto. destruct (truthy b) eqn:Hb; auto.
Qed.

(** X7.  Lines 196-200 and 252-253.  The memory size and the timeout of the
    compute resource are the function's own setting when that is truthy,
    else the provider's when that is truthy, else 1024 and 6: a setting
    of 0 counts as unset, so neither property is ever falsy.  The same
    two values are published on the function object kept in the
    service. *)
Theorem memorySize_and_timeout_fall_back name st fo st1 fo1 st2 ctx :
  getFunction name st = Some fo ->
  validate name st = (st1, Ok fo1) ->
  buildFunction E name fo1 st1 = (st2, Ok ctx) ->
  let memory := or_ (getP "memorySize" fo)
                    (or_ (getP "memorySize" (provider st)) (VNum 1024)) in
  let timeout := or_ (getP "timeout" fo)
                     (or_ (getP "timeout" (provider st)) (VNum 6)) in
  lookup "MemorySize" (props (functionResource ctx)) = Some memory
  /\ lookup "Timeout" (props (functionResource ctx)) = Some timeout
  /\ truthy memory = true /\ truthy timeout = true
  /\ getFunction name st2 = Some (functionObject ctx)
  /\ getP "memory" (functionObject ctx) = memory
  /\ getP "timeout" (functionObject ctx) = timeout.
Proof.
  intros Hf Hv Hb memory timeout.
  destruct (validate_ok _ _ _ _ _ Hf Hv) as (-> & -> & _).
  destruct (buildFunction_late _ _ _ _ _ Hb) as (_ & Hfo & Hr).
  destruct (buildFunction_ok _ _ _ _ _ _ Hb) as (r0 & st0 & _ & _ & _ & Hst).
  destruct (packageStage_sizes name
              (setP "package" (or_ (getP "package" fo) (VObj [])) fo)
              (putFunction name
                 (setP "package" (or_ (getP "package" fo) (VObj [])) fo) st))
    as [Hm Ht].
  rewrite !getP_setP_ne in Hm, Ht by discriminate.
  change (provider (putFunction name
            (setP "package" (or_ (getP "package" fo) (VObj [])) fo) st))
    with (provider st) in Hm, Ht.
  fold memory in Hm. fold timeout in Ht.
  destruct (commonProperties_sizes
              (fst (fst (packageStage E name
                 (setP "package" (or_ (getP "package" fo) (VObj [])) fo)
                 (putFunction name
                    (setP "package" (or_ (getP "package" fo) (VObj [])) fo) st))))
              (putFunction name
                 (setP "package" (or_ (getP "package" fo) (VObj [])) fo) st)
              (snd (packageStage E name
                 (setP "package" (or_ (getP "package" fo) (VObj [])) fo)
                 (putFunction name
                    (setP "package" (or_ (getP "package" fo) (VObj [])) fo) st))))
    as (_ & Cm & Ct).
  split; [|split; [|split; [|split; [|split; [|split]]]]].
  - rewrite Hr by (simpl; intuition discriminate). now rewrite Cm, Hm.
  - rewrite Hr by (simpl; intuition discriminate). now rewrite Ct, Ht.
  - now apply or_default_truthy.
  - now apply or_default_truthy.
  - rewrite Hst. apply lookup_putFunction.
  - rewrite Hfo by discriminate. exact Hm.
  - rewrite Hfo by discriminate. exact Ht.
Qed.
End ComputeResource.

(** The sample function with [memorySize: 0]: the resource gets 1024. *)
Lemma memorySize_and_timeout_fall_back_witness :
  exists st1 fo1 st2 ctx,
    let fo := setP "memorySize" (VNum 0) (entries Fixture.hello) in
    let st := Fixture.service [("hello", VObj fo)] in
    validate "hello" st = (st1, Ok fo1)
    /\ buildFunction Fixture.env "hello" fo1 st1 = (st2, Ok ctx)
    /\ lookup "MemorySize" (props (functionResource ctx)) = Some (VNum 1024)
    /\ lookup "Timeout" (props (functionResource ctx)) = Some (VNum 6).
Proof.
  pose (fo := setP "memorySize" (VNum 0) (entries Fixture.hello)).
  pose (st := Fixture.service [("hello", VObj fo)]).
  pose (fo1 := setP "package" (VObj []) fo).
  pose (st1 := putFunction "hello" fo1 st).
  pose (b := buildFunction Fixture.env "hello" fo1 st1).
  pose (ctx := match snd b with
               | Ok c => c
               | Err _ => Fixture.helloContext
               end).
  assert (Hv : validate "hello" st = (st1, Ok fo1)) by (vm_compute; reflexivity).
  assert (Hb : buildFunction Fixture.env "hello" fo1 st1 = (fst b, Ok ctx))
    by (vm_compute; reflexivity).
  exists st1, fo1, (fst b), ctx. cbv zeta.
  split; [exact Hv|]. split; [exact Hb|].
  destruct (memorySize_and_timeout_fall_back Fixture.env "hello" st fo
              st1 fo1 (fst b) ctx eq_refl Hv Hb) as (Hm & Ht & _).
  split; [exact Hm | exact Ht].
Defined.

Section CodeLocation.
Variable E : Env.

Lemma packageStage_handler name fo st :
  truthy (getP "handler" fo) = true ->
  truthy (getP "image" fo) = false ->
  let afp := resolveArtifactFilePath E name fo st in
  let r := snd (packageStage E name fo st) in
  snd (fst (packageStage E name fo st)) = afp
  /\ lookup "Handler" (props r) = Some (getP "handler" fo)
  /\ lookup "Runtime" (props r) = Some (getRuntime E (getP "runtime" fo))
  /\ lookup "Code" (props r)
     = Some (VObj [("S3Bucket",
                    or_ (getP "deploymentBucket" (package st))
                        (ref "ServerlessDeploymentBucket"));
                   ("S3Key",
                    VStr (toStr (getP "artifactDirectoryName" (package st))
                            ++ "/" ++ pathLast E afp))])
  /\ lookup "PackageType" (props r) = None
  /\ lookup "ImageConfig" (props r) = None.
Proof.
  intros Hh Hi. cbv zeta. unfold packageStage. cbv zeta.
  rewrite Hi. cbn [andb].
  assert (Hfo : forall k, k <> "memory" -> k <> "timeout" ->
            getP k (if negb (truthy (getP "timeout"
                      (setP "memory"
                         (or_ (getP "memorySize" fo)
                            (or_ (getP "memorySize" (provider st)) (VNum 1024)))
                         fo)))
                    then setP "timeout"
                           (or_ (getP "timeout" (provider st)) (VNum 6))
                           (setP "memory"
                              (or_ (getP "memorySize" fo)
                                 (or_ (getP "memorySize" (provider st)) (VNum 1024)))
                              fo)
                    else setP "memory"
                           (or_ (getP "memorySize" fo)
                              (or_ (getP "memorySize" (provider st)) (VNum 1024)))
                           fo)
            = getP k fo).
  { intros k K1 K2. destruct (negb _); now rewrite !getP_setP_ne by auto. }
  set (fo2 := if negb _ then _ else _) in *.
  rewrite (Hfo "handler"), Hh by discriminate. cbn [fst snd].
  assert (Ha : resolveArtifactFilePath E name fo2 st
               = resolveArtifactFilePath E name fo st).
  { unfold resolveArtifactFilePath. cbv zeta.
    now rewrite (Hfo "package") by discriminate. }
  rewrite Ha. split; [reflexivity|].
  unfold handlerProperties. cbv zeta.
  rewrite (getP_setP_ne "runtimeManagement" "runtime"),
    (getP_setP_ne "handler" "runtime") by discriminate.
  rewrite getP_setP_eq, (Hfo "handler"), (Hfo "runtime") by discriminate.
  unfold or_.
  destruct (negb (isStr _ "auto")); [destruct (isStr _ "manual")|];
    destruct (truthy (getP "deploymentBucket" (package st)));
    repeat split; vm_compute; reflexivity.
Qed.

Lemma packageStage_image name fo st :
  truthy (getP "handler" fo) = false ->
  truthy (getP "image" fo) = true ->
  let r := snd (packageStage E name fo st) in
  snd (fst (packageStage E name fo st)) = VUndef
  /\ lookup "PackageType" (props r) = Some (VStr "Image")
  /\ lookup "Code" (props r)
     = Some (VObj [("ImageUri", fst (resolveImageUriAndSha E name))])
  /\ lookup "Handler" (props r) = None
  /\ lookup "Runtime" (props r) = None
  /\ lookup "ImageConfig" (props r)
     = if isObject (getP "image" fo)
       then match imageConfigOf (getP "image" fo) with
            | [] => None
            | c => Some (VObj c)
            end
       else None.
Proof.
  intros Hh Hi. cbv zeta. unfold packageStage. cbv zeta.
  rewrite Hi. cbn [andb].
  assert (Hfo : truthy (getP "handler"
                  (if negb (truthy (getP "timeout"
                      (setP "memory"
                         (or_ (getP "memorySize" fo)
                            (or_ (getP "memorySize" (provider st)) (VNum 1024)))
                         fo)))
                    then setP "timeout"
                           (or_ (getP "timeout" (provider st)) (VNum 6))
                           (setP "memory"
                              (or_ (getP "memorySize" fo)
                                 (or_ (getP "memorySize" (provider st)) (VNum 1024)))
                              fo)
                    else setP "memory"
                           (or_ (getP "memorySize" fo)
                              (or_ (getP "memorySize" (provider st)) (VNum 1024)))
                           fo)) = false).
  { destruct (negb _); now rewrite !getP_setP_ne by discriminate. }
  rewrite Hfo. cbn [fst snd].
  destruct (isObject (getP "image" fo));
    [destruct (imageConfigOf (getP "image" fo)) as [|c0 c]|];
    (split; [reflexivity|]); (split; [reflexivity|]);
    (split; [reflexivity|]); (split; [reflexivity|]);
    (split; [reflexivity|]); reflexivity.
Qed.

(** X8.  Lines 171-193 and 204-250.  A function with a handler gets
    [Handler], [Runtime] and a [Code] made of the deployment bucket (the
    configured one, else a reference to the service's own) and of the key
    [artifactDirectoryName/<last segment of the package path>], and
    neither [PackageType] nor [ImageConfig]; a function with an image
    gets [PackageType: Image] and a [Code] holding only the resolved
    image URI, neither [Handler] nor [Runtime], no package path, and an
    [ImageConfig] only when the image is an object with a truthy command,
    entry point or working directory -- never an empty one. *)
Theorem code_location_follows_package_kind name st fo st1 fo1 st2 ctx :
  getFunction name st = Some fo ->
  validate name st = (st1, Ok fo1) ->
  buildFunction E name fo1 st1 = (st2, Ok ctx) ->
  let P := props (functionResource ctx) in
  (truthy (getP "handler" fo) = true ->
     artifactFilePath ctx = resolveArtifactFilePath E name fo1 st
     /\ lookup "Handler" P = Some (getP "handler" fo)
     /\ lookup "Runtime" P = Some (getRuntime E (getP "runtime" fo))
     /\ lookup "Code" P
        = Some (VObj [("S3Bucket",
                       or_ (getP "deploymentBucket" (package st))
                           (ref "ServerlessDeploymentBucket"));
                      ("S3Key",
                       VStr (toStr (getP "artifactDirectoryName" (package st))
                               ++ "/" ++ pathLast E (artifactFilePath ctx)))])
     /\ lookup "PackageType" P = None
     /\ lookup "ImageConfig" P = None)
  /\ (truthy (getP "handler" fo) = false ->
     artifactFilePath ctx = VUndef
     /\ lookup "PackageType" P = Some (VStr "Image")
     /\ lookup "Code" P
        = Some (VObj [("ImageUri", fst (resolveImageUriAndSha E name))])
     /\ lookup "Handler" P = None
     /\ lookup "Runtime" P = None
     /\ lookup "ImageConfig" P
        = if isObject (getP "image" fo)
          then match imageConfigOf (getP "image" fo) with
               | [] => None
               | c => Some (VObj c)
               end
          else None).
Proof.
  intros Hf Hv Hb P.
  destruct (validate_ok _ _ _ _ _ Hf Hv) as (-> & -> & Hx).
  destruct (buildFunction_late _ _ _ _ _ _ Hb) as (Ha & _ & Hr).
  set (fo1 := setP "package" (or_ (getP "package" fo) (VObj [])) fo) in *.
  set (st1 := putFunction name fo1 st) in *.
  assert (Hk : forall k,
             In k ["Handler"; "Runtime"; "Code"; "PackageType"; "ImageConfig"] ->
             lookup k P = lookup k (props (snd (packageStage E name fo1 st1)))).
  { intros k Hk. unfold P.
    rewrite Hr by (simpl in Hk; simpl; intuition (subst; discriminate)).
    apply commonProperties_early.
    simpl in Hk; simpl; intuition (subst; discriminate). }
  assert (Hh1 : getP "handler" fo1 = getP "handler" fo)
    by (unfold fo1; now rewrite getP_setP_ne by discriminate).
  assert (Hi1 : getP "image" fo1 = getP "image" fo)
    by (unfold fo1; now rewrite getP_setP_ne by discriminate).
  assert (Hu1 : getP "runtime" fo1 = getP "runtime" fo)
    by (unfold fo1; now rewrite getP_setP_ne by discriminate).
  split; intros Hh; rewrite Hh in Hx.
  - assert (Hi : truthy (getP "image" fo) = false)
      by (destruct (truthy (getP "image" fo)); [discriminate|reflexivity]).
    rewrite <- Hh1 in Hh. rewrite <- Hi1 in Hi.
    destruct (packageStage_handler name fo1 st1 Hh Hi)
      as (A1 & A2 & A3 & A4 & A5 & A6).
    rewrite !Hk by (simpl; tauto).
    rewrite Ha, A1, A2, A3, A4, A5, A6, Hh1, Hu1.
    split; [reflexivity|]. split; [reflexivity|]. split; [reflexivity|].
    split; [reflexivity|]. split; reflexivity.
  - assert (Hi : truthy (getP "image" fo) = true)
      by (destruct (truthy (getP "image" fo)); [reflexivity|discriminate]).
    rewrite <- Hh1 in Hh. rewrite <- Hi1 in Hi.
    destruct (packageStage_image name fo1 st1 Hh Hi)
      as (A1 & A2 & A3 & A4 & A5 & A6).
    rewrite !Hk by (simpl; tauto).
    rewrite Ha, A1, A2, A3, A4, A5, A6, Hi1.
    split; [reflexivity|]. split; [reflexivity|]. split; [reflexivity|].
    split; [reflexivity|]. split; reflexivity.
Qed.
End CodeLocation.

(** The sample handler function: its package is the service's archive. *)
Lemma code_location_follows_package_kind_witness :
  exists st1 fo1 st2 ctx,
    let st := Fixture.service [("hello", Fixture.hello)] in
    validate "hello" st = (st1, Ok fo1)
    /\ buildFunction Fixture.env "hello" fo1 st1 = (st2, Ok ctx)
    /\ lookup "Code" (props (functionResource ctx))
       = Some (VObj [("S3Bucket", ref "ServerlessDeploymentBucket");
                     ("S3Key", VStr "serverless/svc/dev/1/service.zip")]).
Proof.
  pose (st := Fixture.service [("hello", Fixture.hello)]).
  pose (fo1 := setP "package" (VObj []) (entries Fixture.hello)).
  pose (st1 := putFunction "hello" fo1 st).
  pose (b := buildFunction Fixture.env "hello" fo1 st1).
  pose (ctx := match snd b with
               | Ok c => c
               | Err _ => Fixture.helloContext
               end).
  assert (Hv : validate "hello" st = (st1, Ok fo1)) by (vm_compute; reflexivity).
  assert (Hb : buildFunction Fixture.env "hello" fo1 st1 = (fst b, Ok ctx))
    by (vm_compute; reflexivity).
  exists st1, fo1, (fst b), ctx. cbv zeta.
  split; [exact Hv|]. split; [exact Hb|].
  destruct (proj1 (code_location_follows_package_kind Fixture.env "hello"
                     st (entries Fixture.hello) st1 fo1 (fst b) ctx
                     eq_refl Hv Hb) eq_refl) as (_ & _ & _ & Hc & _).
  rewrite Hc. vm_compute. reflexivity.
Defined.

(** ** VPC and file system *)


Section Vpc.
Variable E : Env.

Lemma get_falsy k v : truthy v = false -> get k v = get k (VObj []).
Proof. destruct v; simpl; try reflexivity; discriminate. Qed.

Lemma compileVpc_config fo st r :
  lookup "VpcConfig" (props r) = None ->
  lookup "VpcConfig" (props (snd (compileVpc fo st r)))
  = vpcConfigOf (getP "vpc" fo) (getP "vpc" (provider st)).
Proof.
  intros Hr. unfold compileVpc, vpcConfigOf. cbv zeta.
  assert (Hf : forall k,
            get k (getP "vpc" (if negb (truthy (getP "vpc" fo))
                               then setP "vpc" (VObj []) fo else fo))
            = get k (getP "vpc" fo)).
  { intros k. destruct (truthy (getP "vpc" fo)) eqn:Ht; cbn [negb];
      [reflexivity|].
    rewrite getP_setP_eq. symmetry. now apply get_falsy. }
  assert (Hp : forall k,
            get k (getP "vpc"
                     (provider (if negb (truthy (getP "vpc" (provider st)))
                                then setProvider
                                       (setP "vpc" (VObj []) (provider st)) st
                                else st)))
            = get k (getP "vpc" (provider st))).
  { intros k. destruct (truthy (getP "vpc" (provider st))) eqn:Ht; cbn [negb];
      [reflexivity|].
    cbn [provider setProvider]. rewrite getP_setP_eq.
    symmetry. now apply get_falsy. }
  destruct (getP "vpc" fo) as [| |[|]| | | |] eqn:Hv; cbn [snd]; auto;
    rewrite !Hf, !Hp;
    match goal with
    | |- context [truthy ?a && truthy ?b] =>
        destruct (truthy a), (truthy b); cbn [negb orb andb snd]; auto
    end;
    rewrite props_setProp; apply lookup_setP_eq.
Qed.

Ltac frameV :=
  repeat first
    [ rewrite props_setProp
    | rewrite props_setCode
    | rewrite props_setP by discriminate
    | rewrite lookup_setP_ne by discriminate ].

Lemma packageStage_no_vpc name fo st :
  lookup "VpcConfig" (props (snd (packageStage E name fo st))) = None.
Proof.
  unfold packageStage. cbv zeta.
  match goal with
  | |- context [setCode "ImageUri" _ ?r] => set (r0 := r)
  end.
  assert (H0 : lookup "VpcConfig" (props r0) = None).
  { subst r0.
    destruct (_ && _); [destruct (imageConfigOf _)|];
      rewrite ?props_setProp; rewrite ?lookup_setP_ne by discriminate;
      reflexivity. }
  clearbody r0.
  match goal with
  | |- context [truthy (getP "handler" ?f)] => generalize f; intros ft
  end.
  destruct (truthy (getP "handler" ft)); cbn [snd];
    unfold handlerProperties, setCode; cbv zeta;
    repeat first
      [ rewrite props_setProp
      | rewrite lookup_setP_ne by discriminate
      | rewrite props_if_setProp by discriminate ];
    exact H0.
Qed.

Lemma packageStage_functionObject name fo st k :
  ~ In k ["memory"; "timeout"; "runtime"] ->
  getP k (fst (fst (packageStage E name fo st))) = getP k fo.
Proof.
  intros Hk. unfold packageStage. cbv zeta.
  splitCases; cbn [fst];
    rewrite ?getP_setP_ne by (intros ->; apply Hk; simpl; tauto); reflexivity.
Qed.

Lemma before_vpc_none fo st r role :
  lookup "VpcConfig" (props r) = None ->
  lookup "VpcConfig"
    (props (roleOf
              (compileEnvironment fo
                 (fst (compileTracing fo
                         (fst (compileKmsKey fo (fst (compileOnError fo st r))
                                 (snd (compileOnError fo st r))))
                         (snd (compileKmsKey fo (fst (compileOnError fo st r))
                                 (snd (compileOnError fo st r))))))
                 (snd (compileTracing fo
                         (fst (compileKmsKey fo (fst (compileOnError fo st r))
                                 (snd (compileOnError fo st r))))
                         (snd (compileKmsKey fo (fst (compileOnError fo st r))
                                 (snd (compileOnError fo st r)))))))
              role))
  = None.
Proof.
  intros Hr.
  assert (H1 : lookup "VpcConfig" (props (snd (compileOnError fo st r))) = None).
  { rewrite <- Hr. unfold compileOnError. cbv zeta.
    splitCases; cbn [snd]; frameV; reflexivity. }
  revert H1. generalize (snd (compileOnError fo st r)) as r1.
  generalize (fst (compileOnError fo st r)) as s1. intros s1 r1 H1.
  assert (H2 : lookup "VpcConfig" (props (snd (compileKmsKey fo s1 r1))) = None).
  { rewrite <- H1. unfold compileKmsKey. cbv zeta.
    splitCases; cbn [snd]; frameV; reflexivity. }
  revert H2. generalize (snd (compileKmsKey fo s1 r1)) as r2.
  generalize (fst (compileKmsKey fo s1 r1)) as s2. intros s2 r2 H2.
  assert (H3 : lookup "VpcConfig" (props (snd (compileTracing fo s2 r2))) = None).
  { rewrite <- H2. unfold compileTracing. cbv zeta.
    splitCases; cbn [snd]; frameV; reflexivity. }
  revert H3. generalize (snd (compileTracing fo s2 r2)) as r3.
  generalize (fst (compileTracing fo s2 r2)) as s3. intros s3 r3 H3.
  rewrite <- H3.
  match goal with
  | |- context [roleOf ?x ?y] =>
      destruct (roleOf_cases x y) as [-> | [[v ->] | (v & d & ->)]]
  end; unfold compileEnvironment; splitCases; frameV; reflexivity.
Qed.

Lemma compileFileSystem_cases name fo st r st' res :
  compileFileSystem name fo st r = (st', res) ->
  match res with
  | Ok r' =>
      lookup "VpcConfig" (props r') = lookup "VpcConfig" (props r)
      /\ (truthy (getP "fileSystemConfig" fo) = true ->
          truthy (getP "VpcConfig" (props r)) = true)
  | Err e =>
      e = missingVpcError name
      /\ truthy (getP "fileSystemConfig" fo) = true
      /\ truthy (getP "VpcConfig" (props r)) = false
  end.
Proof.
  unfold compileFileSystem. cbv zeta.
  destruct (truthy (getP "fileSystemConfig" fo));
    [destruct (truthy (getP "VpcConfig" (props r))) eqn:Hv|];
    cbn [negb]; intros H; inversion H; subst; clear H.
  - split; [|reflexivity]. frameV. reflexivity.
  - auto.
  - split; [reflexivity|discriminate].
Qed.

Lemma compileLast_vpc name fo st r :
  lookup "VpcConfig"
    (props (compileLogsAndLayers E name fo st (compileReservedConcurrency fo r)))
  = lookup "VpcConfig" (props r).
Proof.
  unfold compileLogsAndLayers, compileReservedConcurrency. cbv zeta.
  splitCases; frameV; reflexivity.
Qed.

Lemma buildFunction_vpc name fo st st' res :
  buildFunction E name fo st = (st', res) ->
  let vpc := vpcConfigOf (getP "vpc" fo) (getP "vpc" (provider st)) in
  let role := or_ (getCustomExecutionRole E (provider st) (getP "role" fo))
                  (VStr "IamRoleLambdaExecution") in
  match res with
  | Ok ctx =>
      lookup "VpcConfig" (props (functionResource ctx)) = vpc
      /\ (truthy (getP "fileSystemConfig" fo) = true -> vpc <> None)
  | Err e =>
      ((e = missingVpcError name
        /\ truthy (getP "fileSystemConfig" fo) = true
        /\ vpc = None)
       \/ (isTypeError e = true /\ forall s, role <> VStr s))
      /\ journal st' = journal st
      /\ Resources st' = Resources st
      /\ Outputs st' = Outputs st
  end.
Proof.
  pose proof (packageStage_no_vpc name fo st) as Hn.
  pose proof (packageStage_functionObject name fo st) as Hfo.
  revert Hn Hfo.
  unfold buildFunction, packageStage.
  destruct (if truthy (getP "image" fo) then _ else _) as [uri sha].
  cbv zeta. cbn [fst].
  match goal with
  | |- context [let '(_, _) := ?x in _] => destruct x as [[fo1 afp] r1]
  end.
  cbn [fst snd]. intros Hn Hfo.
  pose proof (before_vpc_none fo1 st (commonProperties fo1 st r1)) as Hb.
  destruct (compileOnError_frame fo1 st (commonProperties fo1 st r1)) as [i2 F2].
  rewrite commonProperties_early in Hb by (simpl; intuition discriminate).
  specialize (fun role => Hb role Hn).
  destruct (compileOnError fo1 st (commonProperties fo1 st r1)) as [s2 r2].
  cbn [fst snd] in Hb, F2.
  destruct (compileKmsKey_frame fo1 s2 r2) as [i3 F3].
  destruct (compileKmsKey fo1 s2 r2) as [s3 r3].
  cbn [fst snd] in Hb, F3.
  destruct (compileTracing_frame fo1 s3 r3) as [i4 F4].
  destruct (compileTracing fo1 s3 r3) as [s4 r4].
  cbn [fst snd] in Hb, F4.
  specialize (Hb (or_ (getCustomExecutionRole E (provider s4) (getP "role" fo1))
                      (VStr "IamRoleLambdaExecution"))).
  assert (Hp : provider s4 = provider st) by (subst s4 s3 s2; reflexivity).
  destruct (compileRole _ _) as [rr|er] eqn:Hrole.
  - apply compileRole_ok in Hrole. subst rr.
    pose proof (compileVpc_config fo1 s4 _ Hb) as Hc.
    clear Hb.
    match goal with
    | |- context [compileVpc ?f ?s ?r] =>
        destruct (compileVpc_frame f s r) as (p & F5 & _);
        pose proof (compileVpc_functionObject f s r "fileSystemConfig") as Hfs;
        destruct (compileVpc f s r) as [[fo5 s5] r5]
    end.
    cbn [fst snd] in Hc, Hfs, F5.
    specialize (Hfs ltac:(discriminate)).
    rewrite (Hfo "fileSystemConfig") in Hfs by (simpl; intuition discriminate).
    rewrite Hp, (Hfo "vpc") in Hc by (simpl; intuition discriminate).
    destruct (compileFileSystem name fo5 s5 r5) as [s6 [r6|e6]] eqn:H6;
      pose proof (compileFileSystem_cases _ _ _ _ _ _ H6) as Hcase;
      cbv beta iota in Hcase;
      intros H; inversion H; subst res st'; clear H; cbv zeta.
    + destruct Hcase as [Hv Ht]. cbn [functionResource].
      rewrite compileLast_vpc, Hv, Hc. split; [reflexivity|].
      intros Hf. rewrite Hfs in Ht. specialize (Ht Hf).
      unfold getP in Ht. rewrite Hc in Ht.
      intros Hnone. rewrite Hnone in Ht. discriminate.
    + destruct Hcase as (-> & Ht & Hv). rewrite Hfs in Ht.
      split.
      * left. split; [reflexivity|]. split; [exact Ht|].
        unfold getP in Hv. rewrite Hc in Hv.
        destruct (vpcConfigOf (getP "vpc" fo) (getP "vpc" (provider st)))
          as [v|] eqn:Hvc; [|reflexivity].
        unfold vpcConfigOf in Hvc. revert Hvc. cbv zeta.
        splitCases; intros Hvc; inversion Hvc; subst v; discriminate.
      * destruct (compileFileSystem_frame _ _ _ _ _ _ H6) as [i6 ->].
        subst s5 s4 s3 s2. repeat split; reflexivity.
  - intros H; inversion H; subst res st'; clear H; cbv zeta.
    split.
    + right. split; [eapply compileRole_error; eauto|].
      intros s Hs.
      rewrite Hp, (Hfo "role") in Hrole by (simpl; intuition discriminate).
      rewrite Hs in Hrole. revert Hrole. unfold compileRole. cbv zeta.
      splitCases; discriminate.
    + subst s4 s3 s2. repeat split; reflexivity.
Qed.

(** X9.  Lines 386-419.  The compute resource carries a [VpcConfig] exactly
    when the function's [vpc] is neither [null] nor [false] and both the
    security groups and the subnets are found, each on the function first
    and on the provider otherwise; a function with a [fileSystemConfig]
    compiles only then: a [vpc] of [null] on a function that mounts a file
    system fails even when the provider has a full VPC.  The missing-VPC
    error names the function; it is raised only for a [fileSystemConfig]
    without a resolved VPC, and it is what such a function fails with
    when its role is given as a string (a name, an ARN, or the default),
    provided the provider's helpers return.  When lines 168-419 throw,
    no resource has been assigned to the template and no output written,
    and every resource but the default role is as it was; the default
    role is not: lines 296-370 have merged their statements into its
    policy by then. *)
Theorem fileSystemConfig_needs_resolved_vpc name st fo st1 fo1 st2 res :
  getFunction name st = Some fo ->
  validate name st = (st1, Ok fo1) ->
  buildFunction E name fo1 st1 = (st2, res) ->
  let vpc := vpcConfigOf (getP "vpc" fo) (getP "vpc" (provider st)) in
  let role := or_ (getCustomExecutionRole E (provider st) (getP "role" fo))
                  (VStr "IamRoleLambdaExecution") in
  match res with
  | Ok ctx =>
      lookup "VpcConfig" (props (functionResource ctx)) = vpc
      /\ (truthy (getP "fileSystemConfig" fo) = true -> vpc <> None)
  | Err e =>
      (e = missingVpcError name ->
       truthy (getP "fileSystemConfig" fo) = true /\ vpc = None)
      /\ journal st2 = journal st
      /\ (forall id, id <> "IamRoleLambdaExecution" ->
                     lookup id (Resources st2) = lookup id (Resources st))
      /\ Outputs st2 = Outputs st
  end
  /\ (truthy (getP "fileSystemConfig" fo) = true -> vpc = None ->
      forall s, role = VStr s -> res = Err (missingVpcError name)).
Proof.
  intros Hf Hv Hb.
  destruct (validate_ok _ _ _ _ _ Hf Hv) as (-> & -> & _).
  pose proof (buildFunction_vpc _ _ _ _ _ Hb) as H. cbv zeta in H.
  rewrite !getP_setP_ne in H by discriminate.
  cbn [provider putFunction setFunctions] in H.
  cbv zeta. destruct res as [ctx|e].
  - split; [exact H|].
    intros Ht Hn. destruct H as [_ H]. now destruct (H Ht).
  - destruct H as (Hcase & Hj & Hr & Ho).
    split.
    + split; [|split; [exact Hj|split; [intros id _; now rewrite Hr|exact Ho]]].
      intros ->. destruct Hcase as [(_ & Ht & Hn)|[He _]]; [auto|discriminate].
    + intros Ht Hn s Hs.
      destruct Hcase as [(-> & _)|[_ He]]; [reflexivity|].
      now destruct (He s).
Qed.
End Vpc.


(** The provider's VPC does not help a function whose own is [null]: the
    sample function, traced and mounting a file system, fails.  Nothing
    was assigned, but the X-Ray statement is in the default role. *)
Lemma fileSystemConfig_needs_resolved_vpc_witness :
  exists st1 fo1 st2,
    let fo := setP "tracing" (VStr "Active") (entries Fixture.helloMount) in
    let st := Fixture.serviceInVpc [("hello", VObj fo)] in
    validate "hello" st = (st1, Ok fo1)
    /\ buildFunction Fixture.env "hello" fo1 st1
       = (st2, Err (missingVpcError "hello"))
    /\ journal st2 = journal st
    /\ Outputs st2 = Outputs st
    /\ iamStatements st = Some []
    /\ iamStatements st2
       = Some [allow (VArr [VStr "xray:PutTraceSegments";
                            VStr "xray:PutTelemetryRecords"])
                     (VArr [VStr "*"])].
Proof.
  do 3 eexists. cbv zeta.
  split; [reflexivity|]. split; [reflexivity|].
  pose proof
    (fileSystemConfig_needs_resolved_vpc Fixture.env "hello"
       (Fixture.serviceInVpc
          [("hello", VObj (setP "tracing" (VStr "Active")
                             (entries Fixture.helloMount)))])
       (setP "tracing" (VStr "Active") (entries Fixture.helloMount))
       _ _ _ _ eq_refl eq_refl eq_refl) as H.
  cbv zeta beta iota in H. destruct H as ((_ & Hj & _ & Ho) & _).
  split; [exact Hj|]. split; [exact Ho|].
  split; reflexivity.
Defined.
(** ** Aliases and what points at them *)


Section Aliases.
Variable E : Env.

Lemma versionFinish_alias name ctx lcs st st' :
  versionFinish E name ctx lcs st = (st', Ok tt) ->
  exists fo',
    getFunction name st' = Some fo'
    /\ (forall k, k <> "versionLogicalId" -> k <> "targetAlias" ->
                  getP k fo' = getP k (functionObject ctx))
    /\ getP "targetAlias" fo' = aliasOf E name (functionObject ctx).
Proof.
  unfold versionFinish, aliasOf.
  destruct (versionDigest E (functionObject ctx) ctx lcs st) as [d|e];
    [|discriminate].
  cbv zeta. rewrite !getP_setP_ne by discriminate.
  destruct (truthy (getP "provisionedConcurrency" (functionObject ctx))) eqn:Hp;
    destruct (truthy (getP "snapStart" (functionObject ctx))) eqn:Hs;
    simpl andb; cbv iota; try discriminate.
  - unfold compileProvisionedConcurrency. cbv zeta.
    rewrite !getP_setP_ne by discriminate. rewrite Hs.
    intros H; inversion H; clear H.
    eexists. split; [apply lookup_putFunction|]. split.
    + intros k K1 K2. now rewrite !getP_setP_ne by auto.
    + apply getP_setP_eq.
  - unfold compileSnapStart. cbv zeta.
    rewrite !getP_setP_ne by discriminate. rewrite Hs.
    intros H; inversion H; clear H.
    eexists. split; [apply lookup_putFunction|]. split.
    + intros k K1 K2. now rewrite !getP_setP_ne by auto.
    + apply getP_setP_eq.
  - rewrite !getP_setP_ne by discriminate. rewrite Hs.
    intros H; inversion H; clear H.
    eexists. split; [unfold insertVersion; apply lookup_putFunction|]. split.
    + intros k K1 K2. now rewrite !getP_setP_ne by auto.
    + now rewrite getP_setP_ne by discriminate.
Qed.

Lemma urlResource_target name fo :
  getP "Type" (urlResource E name fo) = VStr "AWS::Lambda::Url"
  /\ getP "DependsOn" (urlResource E name fo)
     = get "logicalId" (getP "targetAlias" fo)
  /\ getP "TargetFunctionArn" (props (urlResource E name fo))
     = resolveLambdaTarget E name (getP "targetAlias" fo).
Proof.
  unfold urlResource. cbv zeta.
  destruct (truthy (get "cors" (getP "url" fo)));
    destruct (isStr (get "invokeMode" (getP "url" fo)) "RESPONSE_STREAM");
    (split; [|split]);
    rewrite ?getP_setProp by discriminate;
    rewrite ?props_setProp; rewrite ?getP_setP_ne by discriminate;
    reflexivity.
Qed.

Lemma compileFunctionUrl_journal name st st' fo :
  getFunction name st = Some fo ->
  compileFunctionUrl E name st = (st', Ok tt) ->
  getFunction name st' = Some fo
  /\ incl (journal st) (journal st')
  /\ (truthy (getP "url" fo) = true ->
      In (getLambdaFunctionUrlLogicalId E name, VObj (urlResource E name fo))
         (journal st')).
Proof.
  intros Hf. unfold compileFunctionUrl. rewrite Hf. cbv zeta.
  destruct (truthy (getP "url" fo)); cbn [negb].
  - destruct (isStr _ "aws_iam"); intros H; inversion H; clear H;
      (split; [exact Hf|]); (split; [|intros _]); simpl;
      try (intros x Hx; simpl; tauto); tauto.
  - intros H; inversion H; subst.
    split; [exact Hf|]. split; [apply incl_refl|discriminate].
Qed.

Lemma compileFunctionEventInvokeConfig_journal name st st' fo :
  getFunction name st = Some fo ->
  compileFunctionEventInvokeConfig E name st = (st', Ok tt) ->
  incl (journal st) (journal st')
  /\ (hasEventInvokeConfig fo = true ->
      exists r,
        journal st' = (getLambdaEventConfigLogicalId E name, VObj r) :: journal st
        /\ getP "Type" r = VStr "AWS::Lambda::EventInvokeConfig"
        /\ getP "DependsOn" r = get "logicalId" (getP "targetAlias" fo)
        /\ getP "FunctionName" (props r) = ref (getLambdaLogicalId E name)
        /\ getP "Qualifier" (props r)
           = if truthy (getP "targetAlias" fo)
             then get "name" (getP "targetAlias" fo) else VStr "$LATEST").
Proof.
  intros Hf. unfold compileFunctionEventInvokeConfig, hasEventInvokeConfig.
  rewrite Hf. cbv zeta.
  match goal with
  | |- context [if ?b then (st, Ok tt) else _] => destruct b eqn:Hg
  end.
  - intros H; inversion H; subst. split; [apply incl_refl|].
    intros Hh. exfalso. revert Hg Hh.
    destruct (truthy (getP "destinations" fo)),
      (truthy (getP "maximumEventAge" fo)),
      (isNullish (getP "maximumRetryAttempts" fo)); discriminate.
  - assert (Hc : exists s2 y,
               (if truthy (getP "destinations" fo)
                then
                  match compileDestination E name "onSuccess" "OnSuccess"
                          (getP "destinations" fo)
                          (truthy (getCustomExecutionRole E (provider st)
                                     (getP "role" fo))) [] st with
                  | (st0, Ok c) =>
                      compileDestination E name "onFailure" "OnFailure"
                        (getP "destinations" fo)
                        (truthy (getCustomExecutionRole E (provider st)
                                   (getP "role" fo))) c st0
                  | (st0, Err e) => (st0, Err e)
                  end
                else (st, Ok [])) = (s2, y)
               /\ journal s2 = journal st).
    { destruct (truthy (getP "destinations" fo)); [|eauto].
      destruct (compileDestination E name "onSuccess" "OnSuccess" _ _ [] st)
        as [s1 [c1|e1]] eqn:H1;
        destruct (compileDestination_frame _ _ _ _ _ _ _ _ _ _ H1)
          as (_ & J1 & _).
      - destruct (compileDestination E name "onFailure" "OnFailure" _ _ c1 s1)
          as [s2 y] eqn:H2.
        destruct (compileDestination_frame _ _ _ _ _ _ _ _ _ _ H2)
          as (_ & J2 & _).
        exists s2, y. split; congruence.
      - exists s1, (Err e1). split; congruence. }
    destruct Hc as (s2 & y & -> & J).
    destruct y as [c|e]; intros H; inversion H; clear H.
    cbn [journal putResource setJournal]. rewrite J.
    split; [intros x Hx; simpl; tauto|]. intros _.
    eexists. split; [reflexivity|].
    destruct (truthy (getP "maximumEventAge" fo));
      destruct (negb (isNullish (getP "maximumRetryAttempts" fo)));
      (split; [|split; [|split]]);
      rewrite ?getP_setProp by discriminate;
      rewrite ?props_setProp; rewrite ?getP_setP_ne by discriminate;
      reflexivity.
Qed.

Lemma compileUrlAndEvents_alias name st st' fo :
  getFunction name st = Some fo ->
  compileUrlAndEvents E name st = (st', Ok tt) ->
  incl (journal st) (journal st')
  /\ (truthy (getP "url" fo) = true ->
      In (getLambdaFunctionUrlLogicalId E name, VObj (urlResource E name fo))
         (journal st'))
  /\ (hasEventInvokeConfig fo = true ->
      exists r,
        In (getLambdaEventConfigLogicalId E name, VObj r) (journal st')
        /\ getP "Type" r = VStr "AWS::Lambda::EventInvokeConfig"
        /\ getP "DependsOn" r = get "logicalId" (getP "targetAlias" fo)
        /\ getP "FunctionName" (props r) = ref (getLambdaLogicalId E name)
        /\ getP "Qualifier" (props r)
           = if truthy (getP "targetAlias" fo)
             then get "name" (getP "targetAlias" fo) else VStr "$LATEST").
Proof.
  intros Hf. unfold compileUrlAndEvents.
  destruct (compileFunctionUrl E name st) as [s1 [[]|e]] eqn:H1; [|discriminate].
  destruct (compileFunctionUrl_journal _ _ _ _ Hf H1) as (Hf1 & I1 & U1).
  intros H2.
  destruct (compileFunctionEventInvokeConfig_journal _ _ _ _ Hf1 H2) as (I2 & V2).
  split; [|split].
  - intros x Hx. auto.
  - intros Hu. apply I2. auto.
  - intros Hh. destruct (V2 Hh) as (r & J & R).
    exists r. split; [rewrite J; now left|exact R].
Qed.

(** X10.  Lines 591, 619, 635-636 and 682-689, 767-775.  What a function's URL
    and its event-invoke configuration point at is decided by the version
    block that ran before them: with provisioned concurrency they depend
    on and target the provisioned-concurrency alias, with SnapStart the
    SnapStart alias, and otherwise (also when a version was minted for
    versioning alone) they have no alias to target and the event-invoke
    configuration is qualified with [$LATEST]. *)
Theorem url_and_event_config_target_the_alias name st st' fo :
  getFunction name st = Some fo ->
  compileFunction E name st = (st', Ok tt) ->
  let alias := aliasOf E name fo in
  (truthy (getP "url" fo) = true ->
   exists r,
     In (getLambdaFunctionUrlLogicalId E name, VObj r) (journal st')
     /\ getP "Type" r = VStr "AWS::Lambda::Url"
     /\ getP "DependsOn" r = get "logicalId" alias
     /\ getP "TargetFunctionArn" (props r) = resolveLambdaTarget E name alias)
  /\ (hasEventInvokeConfig fo = true ->
      exists r,
        In (getLambdaEventConfigLogicalId E name, VObj r) (journal st')
        /\ getP "Type" r = VStr "AWS::Lambda::EventInvokeConfig"
        /\ getP "DependsOn" r = get "logicalId" alias
        /\ getP "FunctionName" (props r) = ref (getLambdaLogicalId E name)
        /\ getP "Qualifier" (props r)
           = if truthy alias then get "name" alias else VStr "$LATEST").
Proof.
  intros Hf Hc alias.
  assert (Hx : exists fo',
             (forall k, ~ In k ["memory"; "timeout"; "runtime"; "vpc";
                                "package"; "versionLogicalId"; "targetAlias"] ->
                        getP k fo' = getP k fo)
             /\ getP "targetAlias" fo' = alias
             /\ exists s, getFunction name s = Some fo'
                          /\ compileUrlAndEvents E name s = (st', Ok tt)).
  { revert Hc. unfold compileFunction.
    destruct (validate name st) as [st1 [fo1|e1]] eqn:Hv; [|discriminate].
    destruct (validate_ok _ _ _ _ _ Hf Hv) as (-> & -> & _).
    destruct (buildFunction E name _ _) as [st2 [ctx|e2]] eqn:Hb; [|discriminate].
    destruct (buildFunction_ok E _ _ _ _ _ Hb) as (r0 & st0 & _ & _ & Hfo & Hst).
    assert (Hk : forall k,
               ~ In k ["memory"; "timeout"; "runtime"; "vpc"; "package"] ->
               getP k (functionObject ctx) = getP k fo).
    { intros k Hk. rewrite Hfo by (simpl in *; tauto).
      apply getP_setP_ne. intros ->. apply Hk. simpl. tauto. }
    assert (Ha : aliasOf E name (functionObject ctx) = alias).
    { unfold alias, aliasOf.
      now rewrite !Hk by (simpl; intuition discriminate). }
    destruct (mintsVersion _ _) eqn:Hm.
    - pose proof (versionStart_functionObject E name ctx st2) as Hs.
      destruct (versionStart E name ctx st2) as [[st3 ctx3] lcs].
      cbn [fst snd] in Hs. unfold finishFunction.
      destruct (versionFinish E name ctx3 lcs st3) as [st4 [[]|e]] eqn:Hvf;
        [|discriminate].
      intros Ht.
      destruct (versionFinish_alias _ _ _ _ _ Hvf) as (fo4 & Hf4 & Hk4 & Ha4).
      rewrite Hs in Hk4, Ha4.
      exists fo4. split; [|split; [congruence|eauto]].
      intros k Hk'. rewrite Hk4 by (intros ->; apply Hk'; simpl; tauto).
      apply Hk. simpl in *. tauto.
    - intros Ht. exists (functionObject ctx).
      split; [intros k Hk'; apply Hk; simpl in *; tauto|].
      split.
      + rewrite <- Ha. unfold aliasOf. unfold mintsVersion in Hm.
        destruct (truthy (getP "provisionedConcurrency" (functionObject ctx)));
          [now rewrite orb_true_r in Hm|].
        destruct (truthy (getP "snapStart" (functionObject ctx)));
          [now rewrite orb_true_r in Hm|reflexivity].
      + exists st2. split; [|exact Ht]. rewrite Hst. apply lookup_putFunction. }
  destruct Hx as (fo' & Hk & Ha & s & Hs & Ht).
  destruct (compileUrlAndEvents_alias _ _ _ _ Hs Ht) as (_ & U & V).
  rewrite Ha in V.
  assert (Hh : hasEventInvokeConfig fo' = hasEventInvokeConfig fo).
  { unfold hasEventInvokeConfig.
    now rewrite !Hk by (simpl; intuition discriminate). }
  split.
  - intros Hu. exists (urlResource E name fo').
    destruct (urlResource_target name fo') as (T1 & T2 & T3).
    rewrite Ha in T2, T3.
    split; [apply U; now rewrite Hk by (simpl; intuition discriminate)|].
    auto.
  - intros He. apply V. now rewrite Hh.
Qed.
End Aliases.


(** The URL of the sample function waits for the alias. *)
Lemma url_and_event_config_target_the_alias_witness :
  let st := Fixture.service [("hello", VObj Fixture.helloProvisionedUrl)] in
  exists r,
    snd (compileFunction Fixture.env "hello" st) = Ok tt
    /\ In ("helloLambdaFunctionUrl", VObj r)
          (journal (fst (compileFunction Fixture.env "hello" st)))
    /\ getP "DependsOn" r = VStr "helloProvConcLambdaAlias".
Proof.
  intros st.
  assert (Hc : compileFunction Fixture.env "hello" st
               = (fst (compileFunction Fixture.env "hello" st), Ok tt))
    by (vm_compute; reflexivity).
  destruct (proj1 (url_and_event_config_target_the_alias Fixture.env "hello"
                     st _ Fixture.helloProvisionedUrl eq_refl Hc) eq_refl)
    as (r & Hin & _ & Hd & _).
  exists r. split; [vm_compute; reflexivity|]. split; [exact Hin|exact Hd].
Defined.

(** ** One version id for the resource, the output and the alias *)

Section VersionId.
Variable E : Env.

Lemma ensureTargetExecutionPermission_outputs name slot d s s' x :
  ensureTargetExecutionPermission E name slot d s = (s', x) ->
  Outputs s' = Outputs s.
Proof.
  unfold ensureTargetExecutionPermission, ensureTargetExecutionPermission_body.
  destruct (existsb _ _); [intros H; inversion H; auto|].
  destruct (iamStatements s); [|intros H; inversion H; auto].
  destruct (destinationAction d); [|intros H; inversion H; auto].
  destruct d; try (intros H; inversion H; auto; fail).
  destruct (startsWith "arn:" s0); [intros H; inversion H; auto|].
  destruct (getFunction s0 s); intros H; inversion H; auto.
Qed.

Lemma compileDestination_outputs name slot key d ext c s s' x :
  compileDestination E name slot key d ext c s = (s', x) ->
  Outputs s' = Outputs s.
Proof.
  unfold compileDestination.
  destruct (truthy (get slot d)); [|intros H; inversion H; auto].
  destruct (getDestinationsArn E (get slot d)); [|intros H; inversion H; auto].
  destruct ext; [intros H; inversion H; auto|].
  destruct (ensureTargetExecutionPermission E name slot (get slot d) s)
    as [s1 [u|e1]] eqn:Hx; intros H; inversion H; subst;
    eapply ensureTargetExecutionPermission_outputs; eauto.
Qed.

Lemma compileFunctionEventInvokeConfig_outputs name st st' x :
  compileFunctionEventInvokeConfig E name st = (st', x) ->
  Outputs st' = Outputs st.
Proof.
  unfold compileFunctionEventInvokeConfig.
  destruct (getFunction name st) as [fo|]; [|intros H; inversion H; auto].
  match goal with
  | |- context [if ?b then (st, Ok tt) else _] => destruct b
  end; [intros H; inversion H; auto|].
  cbv zeta.
  destruct (truthy (getP "destinations" fo)).
  - destruct (compileDestination E name "onSuccess" "OnSuccess" _ _ [] st)
      as [s1 [c1|e1]] eqn:H1;
      pose proof (compileDestination_outputs _ _ _ _ _ _ _ _ _ H1) as O1.
    + destruct (compileDestination E name "onFailure" "OnFailure" _ _ c1 s1)
        as [s2 [c2|e2]] eqn:H2;
        pose proof (compileDestination_outputs _ _ _ _ _ _ _ _ _ H2) as O2;
        intros H; inversion H; subst; simpl; congruence.
    + intros H; inversion H; subst; congruence.
  - intros H; inversion H; subst; reflexivity.
Qed.

Lemma compileUrlAndEvents_outputs name st st' x id :
  compileUrlAndEvents E name st = (st', x) ->
  id <> getLambdaFunctionUrlOutputLogicalId E name ->
  lookup id (Outputs st') = lookup id (Outputs st).
Proof.
  unfold compileUrlAndEvents. intros H Hid.
  assert (Hu : lookup id (Outputs (fst (compileFunctionUrl E name st)))
               = lookup id (Outputs st)).
  { unfold compileFunctionUrl.
    destruct (getFunction name st) as [fo|]; [|reflexivity].
    destruct (truthy (getP "url" fo)); [|reflexivity]. cbn [negb]. cbv zeta.
    destruct (isStr _ "aws_iam"); simpl;
      now rewrite lookup_setP_ne by auto. }
  destruct (compileFunctionUrl E name st) as [s1 [u|e]]; cbn [fst] in Hu.
  - now rewrite (compileFunctionEventInvokeConfig_outputs _ _ _ _ H).
  - inversion H; subst. exact Hu.
Qed.

Lemma versionFinish_ids name ctx lcs st st' :
  versionFinish E name ctx lcs st = (st', Ok tt) ->
  exists d fo',
    let vid := getLambdaVersionLogicalId E name d in
    versionDigest E (functionObject ctx) ctx lcs st = Ok d
    /\ getFunction name st' = Some fo'
    /\ getP "versionLogicalId" fo' = VStr vid
    /\ In (vid, VObj (versionResourceOf E name ctx)) (journal st')
    /\ getP (getLambdaVersionOutputLogicalId E name) (Outputs st')
       = VObj [("Description", VStr "Current Lambda function version");
               ("Value", ref vid)]
    /\ (truthy (getP "provisionedConcurrency" (functionObject ctx)) = true ->
        In (getLambdaProvisionedConcurrencyAliasLogicalId E name,
            VObj (aliasResource (getLambdaLogicalId E name) vid
                    (getLambdaProvisionedConcurrencyAliasName E)
                    [("ProvisionedConcurrencyConfig",
                      VObj [("ProvisionedConcurrentExecutions",
                             getP "provisionedConcurrency"
                               (functionObject ctx))])]))
           (journal st'))
    /\ (truthy (getP "snapStart" (functionObject ctx)) = true ->
        In (getLambdaSnapStartAliasLogicalId E name,
            VObj (aliasResource (getLambdaLogicalId E name) vid
                    (getLambdaSnapStartEnabledAliasName E) []))
           (journal st')).
Proof.
  unfold versionFinish.
  destruct (versionDigest E (functionObject ctx) ctx lcs st) as [d|e];
    [|discriminate].
  cbv zeta. rewrite !getP_setP_ne by discriminate.
  destruct (truthy (getP "provisionedConcurrency" (functionObject ctx))) eqn:Hp;
    destruct (truthy (getP "snapStart" (functionObject ctx))) eqn:Hs;
    simpl andb; cbv iota; try discriminate.
  - unfold compileProvisionedConcurrency. cbv zeta.
    rewrite !getP_setP_ne by discriminate. rewrite Hs.
    intros H; inversion H; clear H.
    exists d. eexists. cbv zeta.
    split; [reflexivity|]. split; [apply lookup_putFunction|].
    split; [now rewrite getP_setP_ne, getP_setP_eq by discriminate|].
    split; [simpl; tauto|].
    split; [simpl; apply getP_setP_eq|].
    split; [intros _; simpl; tauto|discriminate].
  - unfold compileSnapStart. cbv zeta.
    rewrite !getP_setP_ne by discriminate. rewrite Hs.
    destruct (String.eqb (getLambdaVersionLogicalId E name d)
                (getLambdaLogicalId E name));
      intros H; inversion H; clear H;
      exists d; eexists; cbv zeta;
      (split; [reflexivity|]); (split; [apply lookup_putFunction|]);
      (split; [now rewrite getP_setP_ne, getP_setP_eq by discriminate|]);
      (split; [simpl; tauto|]);
      (split; [simpl; apply getP_setP_eq|]);
      (split; [discriminate|intros _; simpl; tauto]).
  - rewrite !getP_setP_ne by discriminate. rewrite Hs.
    intros H; inversion H; clear H.
    exists d. eexists. cbv zeta.
    split; [reflexivity|].
    split; [unfold insertVersion; apply lookup_putFunction|].
    split; [apply getP_setP_eq|].
    split; [simpl; tauto|].
    split; [simpl; apply getP_setP_eq|].
    split; discriminate.
Qed.

Lemma versionResourceOf_names name ctx :
  getP "FunctionName" (props (versionResourceOf E name ctx))
  = ref (getLambdaLogicalId E name).
Proof.
  unfold versionResourceOf. cbv zeta.
  destruct (truthy (getP "description" (functionObject ctx))); reflexivity.
Qed.

(** X11.  Lines 548-606 and 616-631.  Whenever a version is minted, one id --
    made from the function's name and the digest -- names the version
    resource assigned into the template, is recorded on the function
    object as [versionLogicalId], is what the version output refers to,
    and is the version the alias of provisioned concurrency or of SnapStart
    is pinned to; the version itself belongs to the function's own
    resource, and the alias waits for it. *)
Theorem version_id_is_shared name st st' fo :
  getFunction name st = Some fo ->
  compileFunction E name st = (st', Ok tt) ->
  mustMintVersion fo st = true ->
  getLambdaVersionOutputLogicalId E name
    <> getLambdaFunctionUrlOutputLogicalId E name ->
  exists d vr fo',
    let vid := getLambdaVersionLogicalId E name d in
    In (vid, VObj vr) (journal st')
    /\ isVersion (VObj vr) = true
    /\ getP "FunctionName" (props vr) = ref (getLambdaLogicalId E name)
    /\ getFunction name st' = Some fo'
    /\ getP "versionLogicalId" fo' = VStr vid
    /\ get "Value" (getP (getLambdaVersionOutputLogicalId E name) (Outputs st'))
       = ref vid
    /\ (truthy (getP "provisionedConcurrency" fo) = true ->
        exists a,
          In (getLambdaProvisionedConcurrencyAliasLogicalId E name, VObj a)
             (journal st')
          /\ getP "Type" a = VStr "AWS::Lambda::Alias"
          /\ getP "FunctionVersion" (props a) = getAtt (VStr vid) "Version"
          /\ getP "ProvisionedConcurrencyConfig" (props a)
             = VObj [("ProvisionedConcurrentExecutions",
                      getP "provisionedConcurrency" fo)]
          /\ getP "DependsOn" a = VStr (getLambdaLogicalId E name))
    /\ (truthy (getP "snapStart" fo) = true ->
        exists a,
          In (getLambdaSnapStartAliasLogicalId E name, VObj a) (journal st')
          /\ getP "Type" a = VStr "AWS::Lambda::Alias"
          /\ getP "FunctionVersion" (props a) = getAtt (VStr vid) "Version"
          /\ lookup "ProvisionedConcurrencyConfig" (props a) = None
          /\ getP "DependsOn" a = VStr (getLambdaLogicalId E name)).
Proof.
  intros Hf Hc Hm Hout.
  destruct (compileFunction_ok E _ _ _ _ Hf Hc)
    as (st2 & ctx & Hk & _ & _ & _ & _ & Hif).
  rewrite Hm in Hif.
  destruct Hif as (st4 & Hvf & _ & _ & Hfo & Ht).
  destruct (versionFinish_ids _ _ _ _ _ Hvf)
    as (d & fo4 & _ & Hf4 & Hv4 & Hj & Ho & Hp & Hs).
  rewrite Hfo in Hp, Hs.
  rewrite !Hk in Hp, Hs by (simpl; intuition discriminate).
  destruct (compileUrlAndEvents_frame E _ _ _ _ Ht) as (F & _ & _).
  destruct (compileUrlAndEvents_alias E _ _ _ _ Hf4 Ht) as (I & _ & _).
  exists d, (versionResourceOf E name (snd (fst (versionStart E name ctx st2)))),
    fo4.
  cbv zeta.
  split; [apply I, Hj|].
  split; [apply (versionResourceOf_shape E)|].
  split; [apply versionResourceOf_names|].
  split; [unfold getFunction in *; now rewrite F|].
  split; [exact Hv4|].
  split.
  { unfold getP. rewrite (compileUrlAndEvents_outputs _ _ _ _ _ Ht Hout).
    fold (getP (getLambdaVersionOutputLogicalId E name) (Outputs st4)).
    now rewrite Ho. }
  split.
  - intros Hpc. eexists. split; [apply I, Hp, Hpc|].
    split; [reflexivity|]. split; [reflexivity|].
    split; reflexivity.
  - intros Hsn. eexists. split; [apply I, Hs, Hsn|].
    split; [reflexivity|]. split; [reflexivity|].
    split; reflexivity.
Qed.
End VersionId.

(** The sample function with provisioned concurrency: its alias is
    pinned to the version its output names. *)
Lemma version_id_is_shared_witness :
  let st := Fixture.service [("hello", VObj Fixture.helloProvisioned)] in
  let st' := fst (compileFunction Fixture.env "hello" st) in
  exists d a,
    In ("helloProvConcLambdaAlias", VObj a) (journal st')
    /\ getP "FunctionVersion" (props a)
       = getAtt (VStr ("helloLambdaVersion" ++ d)) "Version"
    /\ get "Value" (getP "helloLambdaFunctionQualifiedArn" (Outputs st'))
       = ref ("helloLambdaVersion" ++ d).
Proof.
  intros st st'.
  assert (Hc : compileFunction Fixture.env "hello" st = (st', Ok tt))
    by (vm_compute; reflexivity).
  assert (Hm : mustMintVersion Fixture.helloProvisioned st = true)
    by (vm_compute; reflexivity).
  assert (Hn : getLambdaVersionOutputLogicalId Fixture.env "hello"
               <> getLambdaFunctionUrlOutputLogicalId Fixture.env "hello")
    by (vm_compute; discriminate).
  destruct (version_id_is_shared Fixture.env "hello" st st'
              Fixture.helloProvisioned eq_refl Hc Hm Hn)
    as (d & vr & fo' & _ & _ & _ & _ & _ & Ho & Hp & _).
  destruct (Hp eq_refl) as (a & Hin & _ & Hv & _).
  exists d, a. split; [exact Hin|]. split; [exact Hv|exact Ho].
Defined.

(** ** Layers in the version digest *)



Section Layers.
Variable E : Env.

Lemma flat_map_agree {A B} (f g : A -> list B) l :
  (forall a, In a l -> f a = g a) -> flat_map f l = flat_map g l.
Proof.
  induction l as [|x r IH]; simpl; intros H; [reflexivity|].
  rewrite H by auto. f_equal. apply IH. auto.
Qed.

Lemma addFileToHash_frame st st' p :
  legacyHashing st' = legacyHashing st ->
  addFileToHash E st' p = addFileToHash E st p.
Proof. unfold addFileToHash. now intros ->. Qed.

Lemma versionHashInput_frame fo ctx lcs st st' :
  legacyHashing st' = legacyHashing st ->
  versionHashInput E fo ctx lcs st' = versionHashInput E fo ctx lcs st.
Proof.
  intros H. unfold versionHashInput, artifactWrites, configurationText.
  cbv zeta. rewrite H, (addFileToHash_frame _ _ _ H).
  rewrite (flat_map_agree (fun p => addFileToHash E st' (VStr p))
             (fun p => addFileToHash E st (VStr p)));
    [reflexivity|].
  intros a _. now apply addFileToHash_frame.
Qed.

(** X12.  Lines 487-543 and 909-929.  Of the service, the digest of a function
    reads the hashing version and the template resources its [Layers]
    refer to, and nothing else: two states that agree on these give the
    same hash input and the same digest.  In particular what other
    functions have put into the template, the policy statements and the
    outputs do not reach the version id. *)
Theorem digest_reads_only_the_referenced_layers fo ctx st st' :
  legacyHashing st' = legacyHashing st ->
  (forall l,
      In l (elems (getP "Layers" (props (functionResource ctx)))) ->
      truthy (get "Ref" l) = true ->
      getP (toStr (get "Ref" l)) (Resources st')
      = getP (toStr (get "Ref" l)) (Resources st)) ->
  hashInputOf E fo ctx st' = hashInputOf E fo ctx st
  /\ digestOf E fo ctx st' = digestOf E fo ctx st.
Proof.
  intros Hl Hr.
  assert (Hx : extractLayerConfigurationsFromFunction
                 (props (functionResource ctx)) st'
               = extractLayerConfigurationsFromFunction
                   (props (functionResource ctx)) st).
  { unfold extractLayerConfigurationsFromFunction.
    destruct (negb (truthy (getP "Layers" (props (functionResource ctx)))));
      [reflexivity|].
    apply flat_map_agree. intros l Hin. cbv zeta.
    destruct (truthy (get "Ref" l)) eqn:Ht; [|reflexivity].
    now rewrite (Hr l Hin Ht). }
  unfold digestOf, hashInputOf, versionDigest.
  rewrite Hx, (versionHashInput_frame _ _ _ _ _ Hl). auto.
Qed.

Lemma setP_setP k a b o : setP k a (setP k b o) = setP k a o.
Proof.
  induction o as [|[j w] r IH]; simpl.
  - now rewrite String.eqb_refl.
  - destruct (String.eqb j k) eqn:Hj; simpl; rewrite Hj; [reflexivity|].
    now rewrite IH.
Qed.


Lemma strip_config name rf p c :
  getP "Content" p = VObj c ->
  stripS3Key (VObj [("name", name); ("ref", rf); ("properties", VObj p)])
  = Ok (VObj [("name", name); ("ref", rf);
              ("properties",
               VObj (setP "Content" (VObj (deleteP "S3Key" c)) p))]).
Proof.
  intros Hc. unfold stripS3Key. cbv zeta.
  change (get "properties"
            (VObj [("name", name); ("ref", rf); ("properties", VObj p)]))
    with (VObj p).
  cbn [isNullish get]. rewrite Hc. reflexivity.
Qed.

Lemma alike_refl l : Forall2 alike l l.
Proof. induction l; constructor; auto. split; reflexivity. Qed.

Lemma flat_map_alike {A} (f g : A -> list value) l :
  (forall a, In a l -> Forall2 alike (f a) (g a)) ->
  Forall2 alike (flat_map f l) (flat_map g l).
Proof.
  induction l as [|x r IH]; simpl; intros H; [constructor|].
  apply Forall2_app; auto.
Qed.

Lemma stripAll_alike l1 l2 :
  Forall2 alike l1 l2 -> stripAll l1 = stripAll l2.
Proof.
  induction 1 as [|x y r1 r2 [_ Hs] _ IH]; simpl; [reflexivity|].
  now rewrite Hs, IH.
Qed.

Lemma names_alike (f : value -> string) l1 l2 :
  Forall2 alike l1 l2 ->
  map (fun layer => f (get "name" layer)) l1
  = map (fun layer => f (get "name" layer)) l2.
Proof.
  induction 1 as [|x y r1 r2 [Hn _] _ IH]; simpl; [reflexivity|].
  now rewrite Hn, IH.
Qed.

Lemma versionHashInput_alike fo ctx l1 l2 st :
  Forall2 alike l1 l2 ->
  versionHashInput E fo ctx l1 st = versionHashInput E fo ctx l2 st.
Proof.
  intros H. unfold versionHashInput, artifactWrites. cbv zeta.
  rewrite (stripAll_alike _ _ H).
  now rewrite (names_alike
                 (fun n => toStr (resolveLayerArtifactName E n)) _ _ H).
Qed.

(** X13.  Lines 513-515.  Where a layer's code lies in the deployment bucket is
    not part of a function's version: moving the [Content.S3Key] of a layer
    the template defines -- as every deployment does, the key holding the
    deployment's timestamp -- leaves the digest of every function as it
    was, whether the function uses the layer or not. *)
Theorem layer_code_location_is_not_hashed fo ctx st id r p c v :
  lookup id (Resources st) = Some (VObj r) ->
  getP "Properties" r = VObj p ->
  getP "Content" p = VObj c ->
  digestOf E fo ctx
    (touchResource id (setProp "Content" (VObj (setP "S3Key" v c)) r) st)
  = digestOf E fo ctx st.
Proof.
  intros Hr Hp Hc.
  unfold digestOf, versionDigest.
  rewrite (versionHashInput_frame fo ctx _ _ st) by reflexivity.
  rewrite (versionHashInput_alike fo ctx _
             (extractLayerConfigurationsFromFunction
                (props (functionResource ctx)) st)); [reflexivity|].
  unfold extractLayerConfigurationsFromFunction.
  destruct (negb (truthy (getP "Layers" (props (functionResource ctx)))));
    [constructor|].
  apply flat_map_alike. intros l _. cbv zeta.
  destruct (truthy (get "Ref" l)); [|constructor].
  cbn [Resources touchResource setResources].
  destruct (String.eqb (toStr (get "Ref" l)) id) eqn:Hid.
  - apply String.eqb_eq in Hid. rewrite Hid.
    assert (Hg : getP id (Resources st) = VObj r)
      by (unfold getP; now rewrite Hr).
    rewrite getP_setP_eq, Hg. cbn [truthy negb get].
    unfold setProp, props. rewrite Hp. cbn [entries].
    rewrite getP_setP_eq, getP_setP_ne by discriminate.
    constructor; [|constructor].
    split; [reflexivity|].
    rewrite (strip_config _ _ _ c Hc).
    rewrite (strip_config _ _ _ (setP "S3Key" v c))
      by apply getP_setP_eq.
    now rewrite deleteP_setP, setP_setP.
  - apply String.eqb_neq in Hid.
    rewrite getP_setP_ne by auto. apply alike_refl.
Qed.

Lemma stripAll_In x l :
  In x l -> (exists e, stripS3Key x = Err e) -> exists e, stripAll l = Err e.
Proof.
  induction l as [|y r IH]; simpl; [tauto|].
  intros [->|Hin] Hx.
  - destruct Hx as [e ->]. eauto.
  - destruct (stripS3Key y); [|eauto].
    destruct (IH Hin Hx) as [e ->]. eauto.
Qed.

(** X14.  Lines 487-515 and 909-929.  Every [Ref] among a function's
    [Layers] that names a resource of the template is taken for a layer.
    When that resource has no [Properties.Content], the loop of lines
    513-515 cannot get past it: its [delete] throws a [TypeError].  The
    function therefore gets no digest and hence no version, whether the
    run ends at line 514 or, for a layer the service does not declare,
    at line 504 already, where the provider resolves the artifact of
    each layer by name. *)
Theorem layer_reference_without_content_has_no_digest fo ctx st l :
  In l (elems (getP "Layers" (props (functionResource ctx)))) ->
  truthy (get "Ref" l) = true ->
  truthy (getP (toStr (get "Ref" l)) (Resources st)) = true ->
  isNullish (get "Content"
               (get "Properties" (getP (toStr (get "Ref" l)) (Resources st))))
  = true ->
  (exists e,
      stripAll (extractLayerConfigurationsFromFunction
                  (props (functionResource ctx)) st) = Err e
      /\ isTypeError e = true)
  /\ (exists e, digestOf E fo ctx st = Err e).
Proof.
  intros Hin Hr Ht Hn.
  assert (Hs : exists e,
             stripAll (extractLayerConfigurationsFromFunction
                         (props (functionResource ctx)) st) = Err e).
  { apply (stripAll_In
             (VObj [("name", get "_serverlessLayerName"
                               (getP (toStr (get "Ref" l)) (Resources st)));
                    ("ref", get "Ref" l);
                    ("properties",
                     get "Properties"
                       (getP (toStr (get "Ref" l)) (Resources st)))])).
    - unfold extractLayerConfigurationsFromFunction.
      destruct (getP "Layers" (props (functionResource ctx)));
        try contradiction.
      cbn [truthy negb]. apply in_flat_map. exists l. split; [exact Hin|].
      cbv zeta. rewrite Hr, Ht. now left.
    - unfold stripS3Key. cbv zeta.
      change (get "properties" (VObj _))
        with (get "Properties" (getP (toStr (get "Ref" l)) (Resources st))).
      destruct (isNullish (get "Properties" _)); [eauto|].
      rewrite Hn. eauto. }
  destruct Hs as [e He]. split; exists e.
  - split; [exact He|eapply stripAll_error; eauto].
  - unfold digestOf, versionDigest, versionHashInput. now rewrite He.
Qed.
End Layers.

(** Another function's resources and a new policy statement leave the
    digest of the layered sample function alone. *)
Lemma digest_reads_only_the_referenced_layers_witness :
  let st := Fixture.serviceWithLayer in
  let st' := pushStatement (VStr "statement")
               (putResource "otherLambdaFunction" cfLambdaFunctionTemplate st) in
  digestOf Fixture.env (entries Fixture.hello) Fixture.layeredContext st'
  = digestOf Fixture.env (entries Fixture.hello) Fixture.layeredContext st.
Proof.
  intros st st'.
  refine (proj2 (digest_reads_only_the_referenced_layers Fixture.env
                   (entries Fixture.hello) Fixture.layeredContext st st'
                   eq_refl _)).
  intros l [<-|[]] _. vm_compute. reflexivity.
Defined.

(** A new deployment moves the layer's archive; the digest stays. *)
Lemma layer_code_location_is_not_hashed_witness :
  digestOf Fixture.env (entries Fixture.hello) Fixture.layeredContext
    (touchResource "SharedLambdaLayer"
       (setProp "Content"
          (VObj [("S3Bucket", ref "ServerlessDeploymentBucket");
                 ("S3Key", VStr "serverless/svc/dev/2/shared.zip")])
          Fixture.sharedLayer)
       Fixture.serviceWithLayer)
  = digestOf Fixture.env (entries Fixture.hello) Fixture.layeredContext
      Fixture.serviceWithLayer.
Proof.
  exact (layer_code_location_is_not_hashed Fixture.env
           (entries Fixture.hello) Fixture.layeredContext
           Fixture.serviceWithLayer "SharedLambdaLayer" Fixture.sharedLayer
           _ _ (VStr "serverless/svc/dev/2/shared.zip")
           eq_refl eq_refl eq_refl).
Defined.

(** The layer of the sample service, declared and named, but with no
    [Content] among its properties. *)
Lemma layer_reference_without_content_has_no_digest_witness :
  let st :=
    touchResource "SharedLambdaLayer"
      [("Type", VStr "AWS::Lambda::LayerVersion");
       ("Properties", VObj [("LayerName", VStr "shared")]);
       ("_serverlessLayerName", VStr "shared")]
      Fixture.serviceWithLayer in
  exists e,
    digestOf Fixture.env (entries Fixture.hello) Fixture.layeredContext st
    = Err e.
Proof.
  intros st.
  exact (proj2 (layer_reference_without_content_has_no_digest Fixture.env
                  (entries Fixture.hello) Fixture.layeredContext st
                  (ref "SharedLambdaLayer")
                  (or_introl eq_refl) eq_refl eq_refl eq_refl)).
Defined.

(** ** The steps of [buildFunction], one after the other *)

Section Trace.
Variable E : Env.

(** A successful [buildFunction], step by step: every intermediate
    resource, and the provider as each step sees it. *)
Lemma buildFunction_trace name fo st st' ctx :
  buildFunction E name fo st = (st', Ok ctx) ->
  exists s4 r4 fo5 s5 r5 s6 r6,
    let fo1 := fst (fst (packageStage E name fo st)) in
    let r1 := commonProperties fo1 st (snd (packageStage E name fo st)) in
    let c2 := compileOnError fo1 st r1 in
    let c3 := compileKmsKey fo1 (fst c2) (snd c2) in
    let c4 := compileTracing fo1 (fst c3) (snd c3) in
    let role := or_ (getCustomExecutionRole E (provider s4) (getP "role" fo1))
                    (VStr "IamRoleLambdaExecution") in
    c4 = (s4, r4)
    /\ provider s4 = provider st
    /\ compileVpc fo1 s4 (roleOf (compileEnvironment fo1 s4 r4) role)
       = (fo5, s5, r5)
    /\ compileFileSystem name fo5 s5 r5 = (s6, Ok r6)
    /\ functionObject ctx = fo5
    /\ functionResource ctx
       = compileLogsAndLayers E name fo5 s6 (compileReservedConcurrency fo5 r6)
    /\ (forall k, getP k (provider s6) = getP k (provider s5))
    /\ st' = putFunction name fo5
               (putResource (getLambdaLogicalId E name) (functionResource ctx)
                  s6).
Proof.
  unfold buildFunction, packageStage.
  destruct (if truthy (getP "image" fo) then _ else _) as [uri sha].
  cbv zeta. cbn [fst].
  match goal with
  | |- context [let '(_, _) := ?x in _] => destruct x as [[fo1 afp] r1]
  end.
  cbn [fst snd].
  destruct (compileOnError_frame fo1 st (commonProperties fo1 st r1)) as [i2 F2].
  destruct (compileOnError fo1 st (commonProperties fo1 st r1)) as [s2 r2].
  cbn [fst snd] in *.
  destruct (compileKmsKey_frame fo1 s2 r2) as [i3 F3].
  destruct (compileKmsKey fo1 s2 r2) as [s3 r3].
  cbn [fst snd] in *.
  destruct (compileTracing_frame fo1 s3 r3) as [i4 F4].
  destruct (compileTracing fo1 s3 r3) as [s4 r4].
  cbn [fst snd] in *.
  destruct (compileRole _ _) as [rr|er] eqn:Hrole; [|discriminate].
  apply compileRole_ok in Hrole. subst rr.
  match goal with
  | |- context [compileVpc ?f ?s ?r] =>
      destruct (compileVpc f s r) as [[fo5 s5] r5] eqn:H5
  end.
  destruct (compileFileSystem name fo5 s5 r5) as [s6 [r6|e6]] eqn:H6;
    intros H; inversion H; subst st' ctx; clear H.
  exists s4, r4, fo5, s5, r5, s6, r6.
  split; [reflexivity|].
  split; [subst s4 s3 s2; reflexivity|].
  split; [exact H5|]. split; [exact H6|].
  split; [reflexivity|]. split; [reflexivity|].
  split; [|reflexivity].
  destruct (compileFileSystem_frame _ _ _ _ _ _ H6) as [i6 ->]. reflexivity.
Qed.

(** What each step leaves alone. *)
Lemma compileOnError_other k fo st r :
  k <> "DeadLetterConfig" ->
  lookup k (props (snd (compileOnError fo st r))) = lookup k (props r)
  /\ getP "DependsOn" (snd (compileOnError fo st r)) = getP "DependsOn" r.
Proof.
  intros Hk. unfold compileOnError. cbv zeta.
  splitCases; cbn [snd]; rewrite ?props_setProp, ?getP_setProp by discriminate;
    rewrite ?lookup_setP_ne by auto; auto.
Qed.

Lemma compileKmsKey_other k fo st r :
  k <> "KmsKeyArn" ->
  lookup k (props (snd (compileKmsKey fo st r))) = lookup k (props r)
  /\ getP "DependsOn" (snd (compileKmsKey fo st r)) = getP "DependsOn" r.
Proof.
  intros Hk. unfold compileKmsKey. cbv zeta.
  splitCases; cbn [snd]; rewrite ?props_setProp, ?getP_setProp by discriminate;
    rewrite ?lookup_setP_ne by auto; auto.
Qed.

Lemma compileTracing_other k fo st r :
  k <> "TracingConfig" ->
  lookup k (props (snd (compileTracing fo st r))) = lookup k (props r)
  /\ getP "DependsOn" (snd (compileTracing fo st r)) = getP "DependsOn" r.
Proof.
  intros Hk. unfold compileTracing. cbv zeta.
  splitCases; cbn [snd]; rewrite ?props_setProp, ?getP_setProp by discriminate;
    rewrite ?lookup_setP_ne by auto; auto.
Qed.

Lemma compileRole_other k r role :
  k <> "Role" -> lookup k (props (roleOf r role)) = lookup k (props r).
Proof.
  intros Hk.
  destruct (roleOf_cases r role) as [-> | [[v ->] | (v & d & ->)]];
    rewrite ?props_setP by discriminate;
    rewrite ?props_setProp; rewrite ?lookup_setP_ne by auto; auto.
Qed.

Lemma compileVpc_other k fo st r :
  k <> "VpcConfig" ->
  lookup k (props (snd (compileVpc fo st r))) = lookup k (props r)
  /\ getP "DependsOn" (snd (compileVpc fo st r)) = getP "DependsOn" r.
Proof.
  intros Hk. unfold compileVpc. cbv zeta.
  splitCases; cbn [snd]; rewrite ?props_setProp, ?getP_setProp by discriminate;
    rewrite ?lookup_setP_ne by auto; auto.
Qed.

Lemma compileFileSystem_other k name fo st r st' r' :
  k <> "FileSystemConfigs" ->
  compileFileSystem name fo st r = (st', Ok r') ->
  lookup k (props r') = lookup k (props r)
  /\ getP "DependsOn" r' = getP "DependsOn" r.
Proof.
  intros Hk. unfold compileFileSystem. cbv zeta.
  splitCases; intros H; inversion H; subst;
    rewrite ?props_setProp, ?getP_setProp by discriminate;
    rewrite ?lookup_setP_ne by auto; auto.
Qed.

Lemma compileLast_other k name fo st r :
  k <> "ReservedConcurrentExecutions" -> k <> "Layers" ->
  lookup k (props (compileLogsAndLayers E name fo st
                     (compileReservedConcurrency fo r)))
  = lookup k (props r).
Proof.
  intros K1 K2. unfold compileLogsAndLayers, compileReservedConcurrency.
  cbv zeta.
  splitCases; rewrite ?props_setProp; rewrite ?props_setP by discriminate;
    rewrite ?props_setProp;
    rewrite ?lookup_setP_ne by auto; auto.
Qed.

Lemma template_fresh k :
  k <> "Code" -> lookup k (props cfLambdaFunctionTemplate) = None.
Proof.
  intros Hk.
  change (props cfLambdaFunctionTemplate) with (setP "Code" (VObj []) []).
  now rewrite lookup_setP_ne by auto.
Qed.

Lemma packageStage_fresh name fo st k :
  ~ In k ["Code"; "ImageConfig"; "RuntimeManagementConfig"; "Handler";
          "Runtime"; "PackageType"] ->
  lookup k (props (snd (packageStage E name fo st))) = None
  /\ getP "DependsOn" (snd (packageStage E name fo st)) = VUndef.
Proof.
  intros Hk. unfold packageStage. cbv zeta.
  match goal with
  | |- context [setCode "ImageUri" _ ?r] => set (r0 := r)
  end.
  assert (H0 : lookup k (props r0) = None /\ getP "DependsOn" r0 = VUndef).
  { assert (Hc : k <> "Code") by (intros ->; apply Hk; simpl; tauto).
    subst r0.
    destruct (_ && _); [destruct (imageConfigOf _)|];
      rewrite ?props_setProp;
      rewrite ?lookup_setP_ne by (intros ->; apply Hk; simpl; tauto);
      (split; [now apply template_fresh|reflexivity]). }
  clearbody r0. destruct H0 as [H0 D0].
  match goal with
  | |- context [truthy (getP "handler" ?f)] =>
      generalize f; intros ft
  end.
  destruct (truthy (getP "handler" ft)); cbn [snd];
    unfold handlerProperties, setCode; cbv zeta;
    (split;
     [ repeat first
         [ rewrite props_setProp
         | rewrite lookup_setP_ne by (intros ->; apply Hk; simpl; tauto)
         | rewrite props_if_setProp by (intros ->; apply Hk; simpl; tauto) ];
       exact H0
     | repeat first
         [ rewrite getP_setProp by discriminate
         | rewrite getP_if_setProp by discriminate ];
       exact D0 ]).
Qed.

(** The function and the state of a validated function as [buildFunction]
    gets them. *)
Lemma validated_reads name fo st k :
  k <> "package" ->
  ~ In k ["memory"; "timeout"; "runtime"] ->
  getP k (fst (fst (packageStage E name
                      (setP "package" (or_ (getP "package" fo) (VObj [])) fo)
                      (putFunction name
                         (setP "package" (or_ (getP "package" fo) (VObj [])) fo)
                         st))))
  = getP k fo.
Proof.
  intros K1 K2. rewrite packageStage_functionObject by exact K2.
  now apply getP_setP_ne.
Qed.
End Trace.

(** ** Tags and environment: the function over the provider *)

Section Merge.
Variable E : Env.

Lemma lookup_none_notin k (o : obj) : ~ In k (map fst o) -> lookup k o = None.
Proof.
  induction o as [|[j v] r IH]; simpl; [reflexivity|]. intros H.
  destruct (String.eqb j k) eqn:Hj.
  - apply String.eqb_eq in Hj. tauto.
  - apply IH. tauto.
Qed.

Lemma lookup_assign k t s :
  NoDup (map fst s) ->
  lookup k (assign t s)
  = match lookup k s with Some v => Some v | None => lookup k t end.
Proof.
  unfold assign. revert t.
  induction s as [|[j v] r IH]; simpl; intros t Hn; [reflexivity|].
  inversion Hn as [|? ? Hj Hr]; subst. rewrite IH by exact Hr.
  destruct (String.eqb j k) eqn:Hjk.
  - apply String.eqb_eq in Hjk. subst.
    rewrite (lookup_none_notin _ _ Hj). apply lookup_setP_eq.
  - apply String.eqb_neq in Hjk.
    now rewrite lookup_setP_ne by auto.
Qed.

Lemma keys_setP_in k v (o : obj) j :
  In j (map fst (setP k v o)) -> j = k \/ In j (map fst o).
Proof.
  induction o as [|[i w] r IH]; simpl.
  - intros [<-|[]]. now left.
  - destruct (String.eqb i k) eqn:Hi; simpl; intros [<-|H]; auto.
    destruct (IH H); auto.
Qed.

Lemma NoDup_setP k v (o : obj) :
  NoDup (map fst o) -> NoDup (map fst (setP k v o)).
Proof.
  induction o as [|[i w] r IH]; simpl; intros Hn.
  - constructor; [tauto|constructor].
  - inversion Hn as [|? ? Hi Hr]; subst.
    destruct (String.eqb i k) eqn:Hik; simpl; [now constructor|].
    constructor; [|auto].
    intros Hin. destruct (keys_setP_in _ _ _ _ Hin) as [->|Hin']; [|tauto].
    now rewrite String.eqb_refl in Hik.
Qed.

Lemma NoDup_assign t s :
  NoDup (map fst t) -> NoDup (map fst (assign t s)).
Proof.
  unfold assign. revert t.
  induction s as [|[j v] r IH]; simpl; intros t Hn; [exact Hn|].
  apply IH. now apply NoDup_setP.
Qed.

Lemma merged_spec p f :
  NoDup (map fst p) -> NoDup (map fst f) ->
  NoDup (map fst (assign (assign [] p) f))
  /\ forall k,
       lookup k (assign (assign [] p) f)
       = match lookup k f with Some v => Some v | None => lookup k p end.
Proof.
  intros Hp Hf. split.
  - apply NoDup_assign, NoDup_assign. constructor.
  - intros k. rewrite lookup_assign by exact Hf.
    rewrite lookup_assign by exact Hp.
    destruct (lookup k f); [reflexivity|]. now destruct (lookup k p).
Qed.

Lemma commonProperties_tags fo st r :
  lookup "Tags" (props (commonProperties fo st r))
  = if truthy (getP "tags" fo) || truthy (getP "tags" (provider st))
    then Some (tagList fo st) else lookup "Tags" (props r).
Proof.
  unfold commonProperties. cbv zeta.
  rewrite props_if_setProp by discriminate.
  destruct (truthy (getP "tags" fo) || truthy (getP "tags" (provider st))).
  - rewrite props_setProp. apply lookup_setP_eq.
  - repeat first
      [ rewrite props_if_setProp by discriminate
      | rewrite props_if_setP by discriminate
      | rewrite props_setProp
      | rewrite lookup_setP_ne by discriminate ].
    reflexivity.
Qed.

Lemma compileEnvironment_spec fo st r :
  lookup "Environment" (props (compileEnvironment fo st r))
  = if truthy (getP "environment" fo)
       || truthy (getP "environment" (provider st))
    then Some (VObj [("Variables",
                      VObj (assign
                              (assign [] (entries (getP "environment"
                                                     (provider st))))
                              (entries (getP "environment" fo))))])
    else lookup "Environment" (props r).
Proof.
  unfold compileEnvironment.
  destruct (_ || _); [|reflexivity].
  rewrite props_setProp. apply lookup_setP_eq.
Qed.

(** X15.  Lines 273-279 and 374-381.  Tags and environment variables are the
    provider's, overridden key by key by the function's: every key of
    either has exactly one entry, with the function's value when the
    function has the key and the provider's otherwise.  With neither the
    function's nor the provider's set, the resource has no such property. *)
Theorem function_settings_override_the_provider name st fo st1 fo1 st2 ctx :
  getFunction name st = Some fo ->
  validate name st = (st1, Ok fo1) ->
  buildFunction E name fo1 st1 = (st2, Ok ctx) ->
  NoDup (map fst (entries (getP "tags" fo))) ->
  NoDup (map fst (entries (getP "tags" (provider st)))) ->
  NoDup (map fst (entries (getP "environment" fo))) ->
  NoDup (map fst (entries (getP "environment" (provider st)))) ->
  let merge (setting k : string) :=
    match lookup k (entries (getP setting fo)) with
    | Some v => Some v
    | None => lookup k (entries (getP setting (provider st)))
    end in
  let P := props (functionResource ctx) in
  (if truthy (getP "tags" fo) || truthy (getP "tags" (provider st))
   then exists tags,
       lookup "Tags" P
       = Some (VArr (map (fun kv => VObj [("Key", VStr (fst kv));
                                          ("Value", snd kv)]) tags))
       /\ NoDup (map fst tags)
       /\ forall k, lookup k tags = merge "tags" k
   else lookup "Tags" P = None)
  /\ (if truthy (getP "environment" fo)
         || truthy (getP "environment" (provider st))
      then exists variables,
          lookup "Environment" P
          = Some (VObj [("Variables", VObj variables)])
          /\ NoDup (map fst variables)
          /\ forall k, lookup k variables = merge "environment" k
      else lookup "Environment" P = None).
Proof.
  intros Hf Hv Hb Nft Npt Nfe Npe merge P.
  destruct (validate_ok _ _ _ _ _ Hf Hv) as (-> & -> & _).
  set (fo1 := setP "package" (or_ (getP "package" fo) (VObj [])) fo) in *.
  set (st1 := putFunction name fo1 st) in *.
  pose proof (validated_reads E name fo st "tags") as Rt.
  pose proof (validated_reads E name fo st "environment") as Re.
  fold fo1 in Rt, Re. fold st1 in Rt, Re.
  specialize (Rt ltac:(discriminate) ltac:(simpl; intuition discriminate)).
  specialize (Re ltac:(discriminate) ltac:(simpl; intuition discriminate)).
  split.
  - destruct (buildFunction_late E _ _ _ _ _ Hb) as (_ & _ & Hl).
    unfold P. rewrite Hl by (simpl; intuition discriminate).
    rewrite commonProperties_tags, Rt.
    change (provider st1) with (provider st).
    destruct (_ || _).
    + exists (assign (assign [] (entries (getP "tags" (provider st))))
                (entries (getP "tags" fo))).
      split; [unfold tagList; cbv zeta; now rewrite Rt|].
      apply merged_spec; assumption.
    + apply (packageStage_fresh E). simpl. intuition discriminate.
  - destruct (buildFunction_trace E _ _ _ _ _ Hb)
      as (s4 & r4 & fo5 & s5 & r5 & s6 & r6 & T).
    cbv zeta in T.
    destruct T as (H4 & Hp4 & H5 & H6 & _ & Hr & _).
    unfold P. rewrite Hr.
    rewrite compileLast_other by discriminate.
    rewrite (proj1 (compileFileSystem_other "Environment" _ _ _ _ _ _
                      ltac:(discriminate) H6)).
    rewrite <- (f_equal snd H5 : snd _ = r5).
    rewrite (proj1 (compileVpc_other "Environment" _ _ _ ltac:(discriminate))).
    rewrite compileRole_other by discriminate.
    rewrite compileEnvironment_spec, Re, Hp4.
    change (provider st1) with (provider st).
    destruct (_ || _).
    + eexists. split; [reflexivity|]. apply merged_spec; assumption.
    + rewrite <- (f_equal snd H4 : snd _ = r4).
      rewrite (proj1 (compileTracing_other "Environment" _ _ _
                        ltac:(discriminate))).
      rewrite (proj1 (compileKmsKey_other "Environment" _ _ _
                        ltac:(discriminate))).
      rewrite (proj1 (compileOnError_other "Environment" _ _ _
                        ltac:(discriminate))).
      rewrite commonProperties_early by (simpl; intuition discriminate).
      apply (packageStage_fresh E). simpl. intuition discriminate.
Qed.
End Merge.


(** The function's [stage] tag wins, the provider's [owner] tag stays. *)
Lemma function_settings_override_the_provider_witness :
  exists st1 fo1 st2 ctx tags,
    let st := Fixture.serviceTagged [("hello", VObj Fixture.helloTagged)] in
    validate "hello" st = (st1, Ok fo1)
    /\ buildFunction Fixture.env "hello" fo1 st1 = (st2, Ok ctx)
    /\ lookup "Tags" (props (functionResource ctx))
       = Some (VArr (map (fun kv => VObj [("Key", VStr (fst kv));
                                          ("Value", snd kv)]) tags))
    /\ lookup "stage" tags = Some (VStr "function")
    /\ lookup "owner" tags = Some (VStr "ops").
Proof.
  pose (st := Fixture.serviceTagged [("hello", VObj Fixture.helloTagged)]).
  pose (fo1 := setP "package" (VObj []) Fixture.helloTagged).
  pose (st1 := putFunction "hello" fo1 st).
  pose (b := buildFunction Fixture.env "hello" fo1 st1).
  pose (ctx := match snd b with
               | Ok c => c
               | Err _ => Fixture.helloContext
               end).
  assert (Hv : validate "hello" st = (st1, Ok fo1)) by (vm_compute; reflexivity).
  assert (Hb : buildFunction Fixture.env "hello" fo1 st1 = (fst b, Ok ctx))
    by (vm_compute; reflexivity).
  pose proof
    (function_settings_override_the_provider Fixture.env "hello" st
       Fixture.helloTagged st1 fo1 (fst b) ctx eq_refl Hv Hb) as H.
  cbv zeta in H.
  assert (C : truthy (getP "tags" Fixture.helloTagged)
              || truthy (getP "tags" (provider st)) = true) by reflexivity.
  rewrite C in H.
  destruct H as [(tags & Ht & _ & Hk) _].
  - repeat constructor; simpl; intuition discriminate.
  - repeat constructor; simpl; intuition discriminate.
  - constructor.
  - constructor.
  - exists st1, fo1, (fst b), ctx, tags. cbv zeta.
    split; [exact Hv|]. split; [exact Hb|].
    split; [exact Ht|]. split; [exact (Hk "stage")|exact (Hk "owner")].
Defined.

(** ** What the compute resource waits for *)


Section Dependencies.
Variable E : Env.

Lemma commonProperties_dependsOn fo st r :
  getP "DependsOn" (commonProperties fo st r)
  = if truthy (getP "dependsOn" fo)
    then concatV (or_ (getP "DependsOn" r) (VArr [])) (getP "dependsOn" fo)
    else getP "DependsOn" r.
Proof.
  unfold commonProperties. cbv zeta.
  rewrite !getP_if_setProp by discriminate.
  destruct (truthy (getP "dependsOn" fo)).
  - rewrite getP_setP_eq.
    repeat first
      [ rewrite getP_if_setProp by discriminate
      | rewrite getP_if_setP by discriminate
      | rewrite getP_setProp by discriminate ].
    reflexivity.
  - repeat first
      [ rewrite getP_if_setProp by discriminate
      | rewrite getP_if_setP by discriminate
      | rewrite getP_setProp by discriminate ].
    reflexivity.
Qed.

Lemma compileRole_string r s :
  let named := negb (startsWith "arn:" s)
               && negb (String.eqb s "IamRoleLambdaExecution") in
  getP "DependsOn" (roleOf r (VStr s))
  = (if named
     then concatV (or_ (getP "DependsOn" r) (VArr [])) (VStr s)
     else getP "DependsOn" r)
  /\ lookup "Role" (props (roleOf r (VStr s)))
     = Some (if startsWith "arn:" s then VStr s else getAtt (VStr s) "Arn").
Proof.
  unfold roleOf, compileRole. cbv zeta.
  destruct (startsWith "arn:" s);
    [|destruct (String.eqb s "IamRoleLambdaExecution")]; cbn [negb andb];
    rewrite ?getP_setP_eq, ?props_setP by discriminate;
    rewrite ?getP_setProp by discriminate;
    rewrite ?props_setProp; rewrite ?lookup_setP_eq; auto.
Qed.

Lemma compileLast_dependsOn name fo st r :
  getP "DependsOn"
    (compileLogsAndLayers E name fo st (compileReservedConcurrency fo r))
  = if negb (truthy (getP "disableLogs" fo))
    then concatV (VArr [VStr (getLogGroupLogicalId E name)])
           (or_ (getP "DependsOn" r) (VArr []))
    else getP "DependsOn" r.
Proof.
  unfold compileLogsAndLayers, compileReservedConcurrency. cbv zeta.
  destruct (negb (truthy (getP "disableLogs" fo)));
    splitCases;
    repeat first
      [ rewrite getP_setProp by discriminate
      | rewrite getP_setP_eq
      | rewrite getP_setP_ne by discriminate ];
    reflexivity.
Qed.

(** X16.  Lines 79-92, 267-271, 383-384 and 446-450.  For a function whose
    execution role is given by name or ARN, or not at all: the compute
    resource waits for its log group first (unless logs are disabled),
    then for what [dependsOn] lists, then for the role when that is a
    logical name of the template -- neither an ARN nor the default role.
    Its [Role] is the ARN itself, else the [Arn] attribute of the named
    role. *)
Theorem dependencies_start_with_the_log_group name st fo st1 fo1 st2 ctx s :
  getFunction name st = Some fo ->
  validate name st = (st1, Ok fo1) ->
  buildFunction E name fo1 st1 = (st2, Ok ctx) ->
  or_ (getCustomExecutionRole E (provider st) (getP "role" fo))
      (VStr "IamRoleLambdaExecution") = VStr s ->
  let user := if truthy (getP "dependsOn" fo)
              then spread (getP "dependsOn" fo) else [] in
  let named := negb (startsWith "arn:" s)
               && negb (String.eqb s "IamRoleLambdaExecution") in
  let deps := (user ++ (if named then [VStr s] else []))%list in
  getP "DependsOn" (functionResource ctx)
  = (if negb (truthy (getP "disableLogs" fo))
     then VArr (VStr (getLogGroupLogicalId E name) :: deps)
     else if truthy (getP "dependsOn" fo) || named then VArr deps
          else VUndef)
  /\ lookup "Role" (props (functionResource ctx))
     = Some (if startsWith "arn:" s then VStr s else getAtt (VStr s) "Arn").
Proof.
  intros Hf Hv Hb Hrole user named deps.
  destruct (validate_ok _ _ _ _ _ Hf Hv) as (-> & -> & _).
  set (fo1 := setP "package" (or_ (getP "package" fo) (VObj [])) fo) in *.
  set (st1 := putFunction name fo1 st) in *.
  pose proof (validated_reads E name fo st) as Rd.
  fold fo1 in Rd. fold st1 in Rd.
  destruct (buildFunction_trace E _ _ _ _ _ Hb)
    as (s4 & r4 & fo5 & s5 & r5 & s6 & r6 & T).
  cbv zeta in T.
  destruct T as (H4 & Hp4 & H5 & H6 & _ & Hr & _).
  rewrite Hp4 in H5. change (provider st1) with (provider st) in H5.
  rewrite (Rd "role") in H5 by (simpl; intuition discriminate).
  rewrite Hrole in H5.
  assert (Hlogs : getP "disableLogs" fo5 = getP "disableLogs" fo).
  { rewrite <- (f_equal (fun x => fst (fst x)) H5 : fst (fst _) = fo5).
    rewrite compileVpc_functionObject by discriminate.
    apply Rd; simpl; intuition discriminate. }
  destruct (compileRole_string
              (compileEnvironment (fst (fst (packageStage E name fo1 st1)))
                 s4 r4) s) as [Rdep Rrole].
  fold named in Rdep.
  assert (D4 : getP "DependsOn" r4
               = if truthy (getP "dependsOn" fo)
                 then VArr (spread (getP "dependsOn" fo)) else VUndef).
  { rewrite <- (f_equal snd H4 : snd _ = r4).
    rewrite (proj2 (compileTracing_other "Role" _ _ _ ltac:(discriminate))).
    rewrite (proj2 (compileKmsKey_other "Role" _ _ _ ltac:(discriminate))).
    rewrite (proj2 (compileOnError_other "Role" _ _ _ ltac:(discriminate))).
    rewrite commonProperties_dependsOn.
    rewrite (Rd "dependsOn") by (simpl; intuition discriminate).
    rewrite (proj2 (packageStage_fresh E name fo1 st1 "Role"
                      ltac:(simpl; intuition discriminate))).
    reflexivity. }
  assert (De : getP "DependsOn"
                 (compileEnvironment (fst (fst (packageStage E name fo1 st1)))
                    s4 r4) = getP "DependsOn" r4).
  { unfold compileEnvironment. destruct (_ || _); [|reflexivity].
    now rewrite getP_setProp by discriminate. }
  split.
  - rewrite Hr, compileLast_dependsOn, Hlogs.
    rewrite (proj2 (compileFileSystem_other "Role" _ _ _ _ _ _
                      ltac:(discriminate) H6)).
    rewrite <- (f_equal snd H5 : snd _ = r5).
    rewrite (proj2 (compileVpc_other "Role" _ _ _ ltac:(discriminate))).
    rewrite Rdep, De, D4. unfold deps, user.
    destruct (negb (truthy (getP "disableLogs" fo)));
      destruct (truthy (getP "dependsOn" fo)); destruct named;
      cbn [orb]; unfold concatV, or_, spread; cbn [truthy elems app];
      rewrite ?app_nil_r; reflexivity.
  - rewrite Hr. rewrite compileLast_other by discriminate.
    rewrite (proj1 (compileFileSystem_other "Role" _ _ _ _ _ _
                      ltac:(discriminate) H6)).
    rewrite <- (f_equal snd H5 : snd _ = r5).
    rewrite (proj1 (compileVpc_other "Role" _ _ _ ltac:(discriminate))).
    exact Rrole.
Qed.
End Dependencies.


(** Log group, then the table, then the role. *)
Lemma dependencies_start_with_the_log_group_witness :
  exists st1 fo1 st2 ctx,
    let st := Fixture.service [("hello", VObj Fixture.helloDependent)] in
    validate "hello" st = (st1, Ok fo1)
    /\ buildFunction Fixture.env "hello" fo1 st1 = (st2, Ok ctx)
    /\ getP "DependsOn" (functionResource ctx)
       = VArr [VStr "helloLogGroup"; VStr "JobsTable"; VStr "HelloRole"].
Proof.
  pose (st := Fixture.service [("hello", VObj Fixture.helloDependent)]).
  pose (fo1 := setP "package" (VObj []) Fixture.helloDependent).
  pose (st1 := putFunction "hello" fo1 st).
  pose (b := buildFunction Fixture.env "hello" fo1 st1).
  pose (ctx := match snd b with
               | Ok c => c
               | Err _ => Fixture.helloContext
               end).
  assert (Hv : validate "hello" st = (st1, Ok fo1)) by (vm_compute; reflexivity).
  assert (Hb : buildFunction Fixture.env "hello" fo1 st1 = (fst b, Ok ctx))
    by (vm_compute; reflexivity).
  exists st1, fo1, (fst b), ctx. cbv zeta.
  split; [exact Hv|]. split; [exact Hb|].
  exact (proj1 (dependencies_start_with_the_log_group Fixture.env "hello" st
                  Fixture.helloDependent st1 fo1 (fst b) ctx "HelloRole"
                  eq_refl Hv Hb eq_refl)).
Defined.
(** ** The code hash of a version *)

Section CodeHash.
Variable E : Env.

Lemma buildFunction_sha name fo st st' ctx :
  buildFunction E name fo st = (st', Ok ctx) ->
  functionImageSha ctx
  = if truthy (getP "image" fo) then snd (resolveImageUriAndSha E name)
    else VUndef.
Proof.
  unfold buildFunction.
  assert (Hs : snd (if truthy (getP "image" fo)
                    then resolveImageUriAndSha E name else (VUndef, VUndef))
               = if truthy (getP "image" fo)
                 then snd (resolveImageUriAndSha E name) else VUndef)
    by now destruct (truthy (getP "image" fo)).
  destruct (if truthy (getP "image" fo) then _ else _) as [uri sha].
  cbn [snd] in Hs. cbv zeta.
  match goal with
  | |- context [let '(_, _) := ?x in _] => destruct x as [[fo1 afp] r1]
  end.
  destruct (compileOnError fo1 st (commonProperties fo1 st r1)) as [s2 r2].
  destruct (compileKmsKey fo1 s2 r2) as [s3 r3].
  destruct (compileTracing fo1 s3 r3) as [s4 r4].
  destruct (compileRole _ _) as [rr|er]; [|discriminate].
  match goal with
  | |- context [compileVpc ?f ?s ?r] =>
      destruct (compileVpc f s r) as [[fo5 s5] r5]
  end.
  destruct (compileFileSystem name fo5 s5 r5) as [s6 [r6|e6]];
    intros H; inversion H; subst st' ctx; clear H. exact Hs.
Qed.

Lemma versionResourceOf_code name ctx :
  getP "CodeSha256" (props (versionResourceOf E name ctx))
  = (if truthy (functionImageSha ctx) then functionImageSha ctx
     else VStr (getHashForFilePath E (artifactFilePath ctx)))
  /\ lookup "Description" (props (versionResourceOf E name ctx))
     = if truthy (getP "description" (functionObject ctx))
       then Some (getP "description" (functionObject ctx)) else None.
Proof.
  unfold versionResourceOf. cbv zeta.
  destruct (truthy (getP "description" (functionObject ctx)));
    destruct (truthy (functionImageSha ctx)); split; reflexivity.
Qed.

Lemma versionStart_package name ctx st :
  artifactFilePath (snd (fst (versionStart E name ctx st)))
  = artifactFilePath ctx
  /\ functionImageSha (snd (fst (versionStart E name ctx st)))
     = functionImageSha ctx.
Proof. unfold versionStart. destruct (truthy _); split; reflexivity. Qed.

(** X17.  Lines 491-500 and 548-551.  The version minted for a function built
    from an image carries the digest of the image as its [CodeSha256]; the
    version of a function with a handler carries the hash of the file of
    its deployment package.  Either copies the function's description,
    when there is one. *)
Theorem version_code_hash_follows_package_kind name st st' fo :
  getFunction name st = Some fo ->
  compileFunction E name st = (st', Ok tt) ->
  mustMintVersion fo st = true ->
  exists d vr,
    In (getLambdaVersionLogicalId E name d, VObj vr) (journal st')
    /\ isVersion (VObj vr) = true
    /\ (truthy (getP "handler" fo) = true ->
        getP "CodeSha256" (props vr)
        = VStr (getHashForFilePath E
                  (resolveArtifactFilePath E name
                     (setP "package" (or_ (getP "package" fo) (VObj [])) fo)
                     st)))
    /\ (truthy (getP "handler" fo) = false ->
        truthy (snd (resolveImageUriAndSha E name)) = true ->
        getP "CodeSha256" (props vr) = snd (resolveImageUriAndSha E name))
    /\ lookup "Description" (props vr)
       = if truthy (getP "description" fo)
         then Some (getP "description" fo) else None.
Proof.
  intros Hf Hc Hm.
  revert Hc. unfold compileFunction.
  destruct (validate name st) as [st1 [fo1|e1]] eqn:Hv; [|discriminate].
  destruct (validate_ok _ _ _ _ _ Hf Hv) as (-> & -> & Hx).
  set (fo1 := setP "package" (or_ (getP "package" fo) (VObj [])) fo) in *.
  set (st1 := putFunction name fo1 st) in *.
  destruct (buildFunction E name fo1 st1) as [st2 [ctx|e2]] eqn:Hb;
    [|discriminate].
  destruct (buildFunction_ok E _ _ _ _ _ Hb) as (_ & _ & _ & _ & Hfo & _).
  destruct (buildFunction_state E _ _ _ _ _ Hb) as (iam & p & _ & Hp & Hsv).
  assert (Hk : forall k,
             ~ In k ["memory"; "timeout"; "runtime"; "vpc"; "package"] ->
             getP k (functionObject ctx) = getP k fo).
  { intros k Hk. rewrite Hfo by (simpl in *; tauto).
    apply getP_setP_ne. intros ->. apply Hk. simpl. tauto. }
  assert (Hmint : mintsVersion (shouldVersionFunction ctx) (functionObject ctx)
                  = true).
  { rewrite <- Hm. unfold mintsVersion, mustMintVersion.
    rewrite Hsv. unfold resolveShouldVersion, versioningEnabled.
    rewrite !Hk by (simpl; intuition discriminate).
    change (provider st1) with (provider st).
    destruct (isNullish (getP "versionFunction" fo)); reflexivity. }
  rewrite Hmint.
  pose proof (versionStart_package name ctx st2) as [Ha Hs].
  pose proof (versionStart_functionObject E name ctx st2) as Ho.
  destruct (versionStart E name ctx st2) as [[st3 ctx3] lcs].
  cbn [fst snd] in Ha, Hs, Ho. unfold finishFunction.
  destruct (versionFinish E name ctx3 lcs st3) as [st4 [[]|e]] eqn:Hvf;
    [|discriminate].
  intros Ht.
  destruct (versionFinish_ids E _ _ _ _ _ Hvf)
    as (d & fo4 & _ & Hf4 & _ & Hj & _).
  destruct (compileUrlAndEvents_alias E _ _ _ _ Hf4 Ht) as (I & _ & _).
  destruct (versionResourceOf_code name ctx3) as [Hcode Hdesc].
  rewrite Ha, Hs in Hcode. rewrite Ho in Hdesc.
  rewrite (buildFunction_sha _ _ _ _ _ Hb) in Hcode.
  destruct (buildFunction_late E _ _ _ _ _ Hb) as (Hafp & _ & _).
  assert (Hh1 : getP "handler" fo1 = getP "handler" fo)
    by (unfold fo1; now rewrite getP_setP_ne by discriminate).
  assert (Hi1 : getP "image" fo1 = getP "image" fo)
    by (unfold fo1; now rewrite getP_setP_ne by discriminate).
  rewrite Hi1 in Hcode.
  exists d, (versionResourceOf E name ctx3).
  split; [apply I, Hj|].
  split; [apply (versionResourceOf_shape E)|].
  split; [|split].
  - intros Hh. rewrite Hh in Hx.
    assert (Hi : truthy (getP "image" fo) = false)
      by (destruct (truthy (getP "image" fo)); [discriminate|reflexivity]).
    rewrite Hi in Hcode. cbn [truthy] in Hcode. rewrite Hcode, Hafp.
    rewrite <- Hh1 in Hh. rewrite <- Hi1 in Hi.
    destruct (packageStage_handler E name fo1 st1 Hh Hi) as (-> & _).
    reflexivity.
  - intros Hh Hsha. rewrite Hh in Hx.
    assert (Hi : truthy (getP "image" fo) = true)
      by (destruct (truthy (getP "image" fo)); [reflexivity|discriminate]).
    rewrite Hi, Hsha in Hcode. exact Hcode.
  - rewrite Hdesc, Hk by (simpl; intuition discriminate). reflexivity.
Qed.
End CodeHash.


(** The version of the sample image function carries the image's digest. *)
Lemma version_code_hash_follows_package_kind_witness :
  let st := Fixture.service [("hello", VObj Fixture.helloImage)] in
  exists d vr,
    In ("helloLambdaVersion" ++ d, VObj vr)
       (journal (fst (compileFunction Fixture.env "hello" st)))
    /\ getP "CodeSha256" (props vr) = VStr "sha/hello".
Proof.
  intros st.
  assert (Hc : compileFunction Fixture.env "hello" st
               = (fst (compileFunction Fixture.env "hello" st), Ok tt))
    by (vm_compute; reflexivity).
  assert (Hm : mustMintVersion Fixture.helloImage st = true)
    by (vm_compute; reflexivity).
  destruct (version_code_hash_follows_package_kind Fixture.env "hello" st _
              Fixture.helloImage eq_refl Hc Hm)
    as (d & vr & Hin & _ & _ & Hi & _).
  exists d, vr. split; [exact Hin|]. exact (Hi eq_refl eq_refl).
Defined.
(** ** Settings that do not reach the digest *)


Section Agreement.
Variable E : Env.

Lemma agree_setP k v fo fo' : agree fo fo' -> agree (setP k v fo) (setP k v fo').
Proof.
  intros H j Hj. destruct (String.eqb j k) eqn:Hjk.
  - apply String.eqb_eq in Hjk. subst. now rewrite !getP_setP_eq.
  - apply String.eqb_neq in Hjk. rewrite !getP_setP_ne by auto. now apply H.
Qed.

Ltac agreeing H f :=
  repeat match goal with
         | |- context [getP ?j f] =>
             rewrite <- (H j) by (unfold aliasSettings; simpl; intuition discriminate)
         end.

Lemma packageStage_agree name fo fo' st :
  agree fo fo' ->
  snd (packageStage E name fo' st) = snd (packageStage E name fo st)
  /\ snd (fst (packageStage E name fo' st))
     = snd (fst (packageStage E name fo st))
  /\ agree (fst (fst (packageStage E name fo st)))
           (fst (fst (packageStage E name fo' st))).
Proof.
  intros H. unfold packageStage. cbv zeta.
  rewrite <- (H "image"), <- (H "memorySize")
    by (unfold aliasSettings; simpl; intuition discriminate).
  pose proof (agree_setP "memory"
                (or_ (getP "memorySize" fo)
                   (or_ (getP "memorySize" (provider st)) (VNum 1024)))
                _ _ H) as Hm.
  revert Hm.
  generalize (setP "memory"
                (or_ (getP "memorySize" fo)
                   (or_ (getP "memorySize" (provider st)) (VNum 1024))) fo').
  generalize (setP "memory"
                (or_ (getP "memorySize" fo)
                   (or_ (getP "memorySize" (provider st)) (VNum 1024))) fo).
  intros fm fm' Hm.
  rewrite <- (Hm "timeout")
    by (unfold aliasSettings; simpl; intuition discriminate).
  assert (Ht : agree
                 (if negb (truthy (getP "timeout" fm))
                  then setP "timeout"
                         (or_ (getP "timeout" (provider st)) (VNum 6)) fm
                  else fm)
                 (if negb (truthy (getP "timeout" fm))
                  then setP "timeout"
                         (or_ (getP "timeout" (provider st)) (VNum 6)) fm'
                  else fm'))
    by (destruct (negb _); [now apply agree_setP|exact Hm]).
  revert Ht.
  generalize (if negb (truthy (getP "timeout" fm))
              then setP "timeout"
                     (or_ (getP "timeout" (provider st)) (VNum 6)) fm'
              else fm').
  generalize (if negb (truthy (getP "timeout" fm))
              then setP "timeout"
                     (or_ (getP "timeout" (provider st)) (VNum 6)) fm
              else fm).
  intros ft ft' Ht.
  rewrite <- (Ht "handler")
    by (unfold aliasSettings; simpl; intuition discriminate).
  destruct (truthy (getP "handler" ft)); cbn [fst snd].
  - unfold resolveArtifactFilePath, handlerProperties. cbv zeta.
    rewrite !(getP_setP_ne "runtimeManagement" "runtime"),
      !(getP_setP_ne "handler" "runtime"), !getP_setP_eq by discriminate.
    agreeing Ht ft'.
    split; [reflexivity|]. split; [reflexivity|]. now apply agree_setP.
  - split; [reflexivity|]. split; [reflexivity|exact Ht].
Qed.

Lemma commonProperties_agree fo fo' st r :
  agree fo fo' -> commonProperties fo' st r = commonProperties fo st r.
Proof.
  intros H. unfold commonProperties, tagList. cbv zeta.
  agreeing H fo'. reflexivity.
Qed.

Lemma compileOnError_agree fo fo' st r :
  agree fo fo' -> compileOnError fo' st r = compileOnError fo st r.
Proof. intros H. unfold compileOnError. cbv zeta. agreeing H fo'. reflexivity. Qed.

Lemma compileKmsKey_agree fo fo' st r :
  agree fo fo' -> compileKmsKey fo' st r = compileKmsKey fo st r.
Proof. intros H. unfold compileKmsKey. cbv zeta. agreeing H fo'. reflexivity. Qed.

Lemma compileTracing_agree fo fo' st r :
  agree fo fo' -> compileTracing fo' st r = compileTracing fo st r.
Proof. intros H. unfold compileTracing. cbv zeta. agreeing H fo'. reflexivity. Qed.

Lemma compileEnvironment_agree fo fo' st r :
  agree fo fo' -> compileEnvironment fo' st r = compileEnvironment fo st r.
Proof. intros H. unfold compileEnvironment. agreeing H fo'. reflexivity. Qed.

Lemma compileVpc_agree fo fo' st r :
  agree fo fo' ->
  snd (compileVpc fo' st r) = snd (compileVpc fo st r)
  /\ snd (fst (compileVpc fo' st r)) = snd (fst (compileVpc fo st r))
  /\ agree (fst (fst (compileVpc fo st r))) (fst (fst (compileVpc fo' st r))).
Proof.
  intros H. unfold compileVpc. cbv zeta.
  rewrite <- (H "vpc") by (unfold aliasSettings; simpl; intuition discriminate).
  assert (Hv : agree
                 (if negb (truthy (getP "vpc" fo))
                  then setP "vpc" (VObj []) fo else fo)
                 (if negb (truthy (getP "vpc" fo))
                  then setP "vpc" (VObj []) fo' else fo'))
    by (destruct (negb _); [now apply agree_setP|exact H]).
  revert Hv.
  generalize (if negb (truthy (getP "vpc" fo))
              then setP "vpc" (VObj []) fo' else fo').
  generalize (if negb (truthy (getP "vpc" fo))
              then setP "vpc" (VObj []) fo else fo).
  intros fv fv' Hv.
  rewrite <- (Hv "vpc") by (unfold aliasSettings; simpl; intuition discriminate).
  destruct (getP "vpc" fo) as [| |[|]| | | |]; cbn [fst snd]; auto;
    destruct (negb _ || negb _); cbn [fst snd]; auto.
Qed.

Lemma compileFileSystem_agree name fo fo' st r :
  agree fo fo' ->
  compileFileSystem name fo' st r = compileFileSystem name fo st r.
Proof.
  intros H. unfold compileFileSystem. cbv zeta. agreeing H fo'. reflexivity.
Qed.

Lemma compileLast_agree name fo fo' st r :
  agree fo fo' ->
  compileLogsAndLayers E name fo' st (compileReservedConcurrency fo' r)
  = compileLogsAndLayers E name fo st (compileReservedConcurrency fo r).
Proof.
  intros H. unfold compileLogsAndLayers, compileReservedConcurrency.
  cbv zeta. agreeing H fo'. reflexivity.
Qed.

Lemma versionDigest_agree fo fo' ctx ctx' lcs st st' :
  getP "image" fo' = getP "image" fo ->
  functionResource ctx' = functionResource ctx ->
  artifactFilePath ctx' = artifactFilePath ctx ->
  functionImageSha ctx' = functionImageSha ctx ->
  legacyHashing st' = legacyHashing st ->
  versionDigest E fo' ctx' lcs st' = versionDigest E fo ctx lcs st.
Proof.
  intros Hi Hr Ha Hs Hl. unfold versionDigest.
  rewrite (versionHashInput_frame E fo' ctx' lcs st st' Hl).
  unfold versionHashInput, artifactWrites, versionedProperties. cbv zeta.
  now rewrite Hi, Hr, Ha, Hs.
Qed.

Lemma versionStart_agree name ctx ctx' st st' :
  functionResource ctx' = functionResource ctx ->
  artifactFilePath ctx' = artifactFilePath ctx ->
  functionImageSha ctx' = functionImageSha ctx ->
  Resources st' = Resources st ->
  options st' = options st ->
  provider st' = provider st ->
  let x := versionStart E name ctx st in
  let x' := versionStart E name ctx' st' in
  snd x' = snd x
  /\ functionResource (snd (fst x')) = functionResource (snd (fst x))
  /\ artifactFilePath (snd (fst x')) = artifactFilePath (snd (fst x))
  /\ functionImageSha (snd (fst x')) = functionImageSha (snd (fst x))
  /\ functionObject (snd (fst x')) = functionObject ctx'
  /\ functionObject (snd (fst x)) = functionObject ctx
  /\ legacyHashing (fst (fst x')) = legacyHashing (fst (fst x)).
Proof.
  intros Hr Ha Hs HR Ho Hp. cbv zeta. unfold versionStart, legacyHashing.
  rewrite Ho.
  destruct (truthy (getP "enforce-hash-update" (options st)));
    cbn [fst snd functionResource artifactFilePath functionImageSha
           functionObject];
    unfold extractLayerConfigurationsFromFunction;
    cbn [Resources options provider touchResource setResources];
    rewrite ?Hr, ?HR, ?Ho, ?Hp; auto 10.
Qed.

(** None of this reads the function objects kept in the service. *)
Lemma compileOnError_functions F fo st r :
  compileOnError fo (setFunctions F st) r
  = (setFunctions F (fst (compileOnError fo st r)),
     snd (compileOnError fo st r)).
Proof.
  unfold compileOnError, pushStatement. cbv zeta.
  cbn [iamStatements setFunctions].
  splitCases; reflexivity.
Qed.

Lemma compileKmsKey_functions F fo st r :
  compileKmsKey fo (setFunctions F st) r
  = (setFunctions F (fst (compileKmsKey fo st r)),
     snd (compileKmsKey fo st r)).
Proof.
  unfold compileKmsKey, unionStatement. cbv zeta.
  cbn [iamStatements provider setFunctions].
  splitCases; reflexivity.
Qed.

Lemma compileTracing_functions F fo st r :
  compileTracing fo (setFunctions F st) r
  = (setFunctions F (fst (compileTracing fo st r)),
     snd (compileTracing fo st r)).
Proof.
  unfold compileTracing, unionStatement. cbv zeta.
  cbn [iamStatements provider setFunctions].
  splitCases; reflexivity.
Qed.

Lemma compileVpc_functions F fo st r :
  compileVpc fo (setFunctions F st) r
  = (fst (fst (compileVpc fo st r)),
     setFunctions F (snd (fst (compileVpc fo st r))),
     snd (compileVpc fo st r)).
Proof.
  unfold compileVpc. cbv zeta. cbn [provider setFunctions].
  destruct (getP "vpc" fo) as [| |[|]| | | |]; try reflexivity;
    destruct (negb (truthy (getP "vpc" (provider st))));
    cbn [provider setProvider];
    destruct (negb _ || negb _); reflexivity.
Qed.

Lemma compileFileSystem_functions F name fo st r :
  compileFileSystem name fo (setFunctions F st) r
  = (setFunctions F (fst (compileFileSystem name fo st r)),
     snd (compileFileSystem name fo st r)).
Proof.
  unfold compileFileSystem, pushStatement. cbv zeta.
  cbn [iamStatements setFunctions].
  splitCases; reflexivity.
Qed.

(** Two runs of [buildFunction], on function objects that agree and on
    services that differ in the function objects they keep at most. *)
Lemma buildFunction_agree name fo fo' st F st1 st1' ctx ctx' :
  agree fo fo' ->
  buildFunction E name fo st = (st1, Ok ctx) ->
  buildFunction E name fo' (setFunctions F st) = (st1', Ok ctx') ->
  functionResource ctx' = functionResource ctx
  /\ artifactFilePath ctx' = artifactFilePath ctx
  /\ functionImageSha ctx' = functionImageSha ctx
  /\ agree (functionObject ctx) (functionObject ctx')
  /\ Resources st1' = Resources st1
  /\ options st1' = options st1
  /\ provider st1' = provider st1.
Proof.
  intros H Hb Hb'.
  pose proof (buildFunction_sha E _ _ _ _ _ Hb) as Hs.
  pose proof (buildFunction_sha E _ _ _ _ _ Hb') as Hs'.
  rewrite <- (H "image") in Hs'
    by (unfold aliasSettings; simpl; intuition discriminate).
  destruct (buildFunction_late E _ _ _ _ _ Hb) as (Ha & _ & _).
  destruct (buildFunction_late E _ _ _ _ _ Hb') as (Ha' & _ & _).
  destruct (buildFunction_trace E _ _ _ _ _ Hb)
    as (s4 & r4 & fo5 & s5 & r5 & s6 & r6 & T).
  destruct (buildFunction_trace E _ _ _ _ _ Hb')
    as (s4' & r4' & fo5' & s5' & r5' & s6' & r6' & T').
  cbv zeta in T, T'.
  destruct T as (H4 & _ & H5 & H6 & Ho & Hr & _ & Hst).
  destruct T' as (H4' & _ & H5' & H6' & Ho' & Hr' & _ & Hst').
  change (packageStage E name fo' (setFunctions F st))
    with (packageStage E name fo' st) in *.
  destruct (packageStage_agree name fo fo' st H) as (S1 & S2 & S3).
  rewrite S1 in H4'. rewrite S2 in Ha'.
  revert S3 H4 H5 H4' H5'.
  generalize (fst (fst (packageStage E name fo' st))).
  generalize (fst (fst (packageStage E name fo st))).
  intros fo1 fo1' S3 H4 H5 H4' H5'.
  change (commonProperties fo1' (setFunctions F st))
    with (commonProperties fo1' st) in H4'.
  rewrite (commonProperties_agree _ _ _ _ S3) in H4'.
  rewrite !compileOnError_functions in H4'. cbn [fst snd] in H4'.
  rewrite !(compileOnError_agree _ _ _ _ S3) in H4'.
  revert H4 H4'.
  generalize (compileOnError fo1 st
                (commonProperties fo1 st (snd (packageStage E name fo st)))).
  intros c2 H4 H4'.
  rewrite !compileKmsKey_functions in H4'. cbn [fst snd] in H4'.
  rewrite !(compileKmsKey_agree _ _ _ _ S3) in H4'.
  revert H4 H4'.
  generalize (compileKmsKey fo1 (fst c2) (snd c2)). intros c3 H4 H4'.
  rewrite compileTracing_functions, (compileTracing_agree _ _ _ _ S3) in H4'.
  rewrite H4 in H4'. cbn [fst snd] in H4'.
  inversion H4'; subst s4' r4'; clear H4'.
  change (compileEnvironment fo1' (setFunctions F s4))
    with (compileEnvironment fo1' s4) in H5'.
  change (provider (setFunctions F s4)) with (provider s4) in H5'.
  rewrite (compileEnvironment_agree _ _ _ _ S3) in H5'.
  rewrite <- (S3 "role") in H5'
    by (unfold aliasSettings; simpl; intuition discriminate).
  rewrite compileVpc_functions in H5'.
  match type of H5 with
  | compileVpc fo1 ?s ?r = _ =>
      destruct (compileVpc_agree fo1 fo1' s r S3) as (V1 & V2 & V3)
  end.
  rewrite V1, V2, H5 in H5'. rewrite H5 in V3. cbn [fst snd] in H5', V3.
  inversion H5'; subst s5' r5'; clear H5'.
  match goal with
  | Hx : fst (fst (compileVpc fo1' _ _)) = fo5' |- _ => rewrite Hx in V3
  end.
  rewrite compileFileSystem_functions, (compileFileSystem_agree _ _ _ _ _ V3),
    H6 in H6'.
  cbn [fst snd] in H6'. inversion H6'; subst s6' r6'; clear H6'.
  assert (HR : functionResource ctx' = functionResource ctx).
  { rewrite Hr, Hr'.
    change (compileLogsAndLayers E name fo5' (setFunctions F s6))
      with (compileLogsAndLayers E name fo5' s6).
    apply compileLast_agree. exact V3. }
  split; [exact HR|].
  split; [congruence|]. split; [congruence|].
  split; [now rewrite Ho, Ho'|].
  rewrite Hst, Hst', HR. split; [reflexivity|]. split; reflexivity.
Qed.

(** A compilation that mints a version, up to the digest. *)
Lemma compileFunction_digest name st st' fo :
  getFunction name st = Some fo ->
  compileFunction E name st = (st', Ok tt) ->
  mustMintVersion fo st = true ->
  exists st2 ctx d f,
    buildFunction E name
      (setP "package" (or_ (getP "package" fo) (VObj [])) fo)
      (putFunction name
         (setP "package" (or_ (getP "package" fo) (VObj [])) fo) st)
    = (st2, Ok ctx)
    /\ versionDigest E
         (functionObject (snd (fst (versionStart E name ctx st2))))
         (snd (fst (versionStart E name ctx st2)))
         (snd (versionStart E name ctx st2))
         (fst (fst (versionStart E name ctx st2))) = Ok d
    /\ getFunction name st' = Some f
    /\ getP "versionLogicalId" f = VStr (getLambdaVersionLogicalId E name d).
Proof.
  intros Hf Hc Hm.
  revert Hc. unfold compileFunction.
  destruct (validate name st) as [st1 [fo1|e1]] eqn:Hv; [|discriminate].
  destruct (validate_ok _ _ _ _ _ Hf Hv) as (-> & -> & Hx).
  set (fo1 := setP "package" (or_ (getP "package" fo) (VObj [])) fo) in *.
  set (st1 := putFunction name fo1 st) in *.
  destruct (buildFunction E name fo1 st1) as [st2 [ctx|e2]] eqn:Hb;
    [|discriminate].
  destruct (buildFunction_ok E _ _ _ _ _ Hb) as (_ & _ & _ & _ & Hfo & _).
  destruct (buildFunction_state E _ _ _ _ _ Hb) as (iam & p & _ & Hp & Hsv).
  assert (Hk : forall k,
             ~ In k ["memory"; "timeout"; "runtime"; "vpc"; "package"] ->
             getP k (functionObject ctx) = getP k fo).
  { intros k Hk. rewrite Hfo by (simpl in *; tauto).
    apply getP_setP_ne. intros ->. apply Hk. simpl. tauto. }
  assert (Hmint : mintsVersion (shouldVersionFunction ctx) (functionObject ctx)
                  = true).
  { rewrite <- Hm. unfold mintsVersion, mustMintVersion.
    rewrite Hsv. unfold resolveShouldVersion, versioningEnabled.
    rewrite !Hk by (simpl; intuition discriminate).
    change (provider st1) with (provider st).
    destruct (isNullish (getP "versionFunction" fo)); reflexivity. }
  rewrite Hmint.
  destruct (versionStart E name ctx st2) as [[st3 ctx3] lcs] eqn:Hvs.
  unfold finishFunction.
  destruct (versionFinish E name ctx3 lcs st3) as [st4 [[]|e]] eqn:Hvf;
    [|discriminate].
  intros Ht.
  destruct (versionFinish_ids E _ _ _ _ _ Hvf)
    as (d & fo4 & Hd & Hf4 & Hv4 & _).
  destruct (compileUrlAndEvents_frame E _ _ _ _ Ht) as (F & _ & _).
  exists st2, ctx, d, fo4.
  split; [reflexivity|]. rewrite Hvs. cbn [fst snd].
  split; [exact Hd|]. split; [|exact Hv4].
  unfold getFunction in *. now rewrite F.
Qed.

(** X18.  Lines 168-546 against 584-632.  Whether a function is versioned, has
    provisioned concurrency or uses SnapStart decides if a version is
    minted and which alias points at it, but is no part of what is hashed:
    when a function is compiled once as it is and once with these settings
    changed, and a version is minted both times, both versions get the
    same id.  Line 612 writes the [SnapStart] property after the digest is
    taken. *)
Theorem alias_settings_do_not_reach_the_version_id name st fo fo' s1 s2 :
  getFunction name st = Some fo ->
  agree fo fo' ->
  compileFunction E name st = (s1, Ok tt) ->
  compileFunction E name (putFunction name fo' st) = (s2, Ok tt) ->
  mustMintVersion fo st = true ->
  mustMintVersion fo' st = true ->
  exists d f1 f2,
    getFunction name s1 = Some f1
    /\ getFunction name s2 = Some f2
    /\ getP "versionLogicalId" f1 = VStr (getLambdaVersionLogicalId E name d)
    /\ getP "versionLogicalId" f2 = VStr (getLambdaVersionLogicalId E name d).
Proof.
  intros Hf H Hc1 Hc2 Hm1 Hm2.
  destruct (compileFunction_digest _ _ _ _ Hf Hc1 Hm1)
    as (t1 & c1 & d1 & f1 & Hb1 & Hd1 & Hg1 & Hv1).
  destruct (compileFunction_digest _ _ _ fo' (lookup_putFunction _ _ _) Hc2 Hm2)
    as (t2 & c2 & d2 & f2 & Hb2 & Hd2 & Hg2 & Hv2).
  assert (Hp : getP "package" fo' = getP "package" fo)
    by (symmetry; apply H; unfold aliasSettings; simpl; intuition discriminate).
  rewrite Hp in Hb2.
  set (pkg := or_ (getP "package" fo) (VObj [])) in *.
  change (putFunction name (setP "package" pkg fo') (putFunction name fo' st))
    with (setFunctions
            (functions (putFunction name (setP "package" pkg fo')
                          (putFunction name fo' st)))
            (putFunction name (setP "package" pkg fo) st)) in Hb2.
  destruct (buildFunction_agree name _ _ _ _ _ _ _ _
              (agree_setP "package" pkg _ _ H) Hb1 Hb2)
    as (Hr & Ha & Hs & Ho & HR & Hop & Hpr).
  pose proof (versionStart_agree name c1 c2 t1 t2 Hr Ha Hs HR Hop Hpr) as Hx.
  cbv zeta in Hx. destruct Hx as (L & Xr & Xa & Xs & Xo' & Xo & Xl).
  rewrite L in Hd2.
  rewrite (versionDigest_agree
             (functionObject (snd (fst (versionStart E name c1 t1)))) _
             (snd (fst (versionStart E name c1 t1))) _ _
             (fst (fst (versionStart E name c1 t1))) _) in Hd2; auto.
  - rewrite Hd1 in Hd2. inversion Hd2; subst d2.
    exists d1, f1, f2. auto.
  - rewrite Xo', Xo. symmetry. apply Ho.
    unfold aliasSettings. simpl. intuition discriminate.
Qed.
End Agreement.

(** The sample function with and without SnapStart: one version id. *)
Lemma alias_settings_do_not_reach_the_version_id_witness :
  let st := Fixture.service [("hello", Fixture.hello)] in
  let fo' := setP "snapStart" (VBool true) (entries Fixture.hello) in
  exists d f1 f2,
    getFunction "hello" (fst (compileFunction Fixture.env "hello" st)) = Some f1
    /\ getFunction "hello"
         (fst (compileFunction Fixture.env "hello" (putFunction "hello" fo' st)))
       = Some f2
    /\ getP "versionLogicalId" f1 = VStr ("helloLambdaVersion" ++ d)
    /\ getP "versionLogicalId" f2 = VStr ("helloLambdaVersion" ++ d).
Proof.
  intros st fo'.
  assert (Ha : agree (entries Fixture.hello) fo').
  { intros j Hj. unfold fo'. rewrite getP_setP_ne; [reflexivity|].
    intros ->. apply Hj. unfold aliasSettings. simpl. tauto. }
  assert (H1 : compileFunction Fixture.env "hello" st
               = (fst (compileFunction Fixture.env "hello" st), Ok tt))
    by (vm_compute; reflexivity).
  assert (H2 : compileFunction Fixture.env "hello" (putFunction "hello" fo' st)
               = (fst (compileFunction Fixture.env "hello"
                         (putFunction "hello" fo' st)), Ok tt))
    by (vm_compute; reflexivity).
  exact (alias_settings_do_not_reach_the_version_id Fixture.env "hello" st
           (entries Fixture.hello) fo' _ _ eq_refl Ha H1 H2 eq_refl eq_refl).
Defined.
(** ** The option that forces new hashes *)


Section EnforceHashUpdate.
Variable E : Env.

Lemma setProp_setProp k v w r : setProp k v (setProp k w r) = setProp k v r.
Proof.
  unfold setProp at 1. rewrite props_setProp, setP_setP.
  unfold setProp. now rewrite setP_setP.
Qed.

(** X19.  Lines 481-489 and 524-525.  With the [enforce-hash-update]
    option the description of the compute resource is overwritten, in the
    template too, before anything is hashed, and the hashing is the
    current one whatever [lambdaHashingVersion] says: the digest of a
    function no longer depends on its description. *)
Theorem enforce_hash_update_hides_the_description name ctx st v :
  truthy (getP "enforce-hash-update" (options st)) = true ->
  let x := versionStart E name ctx st in
  let x' := versionStart E name (withProperty "Description" v ctx) st in
  getP "Description" (props (functionResource (snd (fst x))))
  = VStr "temporary-description-to-enforce-hash-update"
  /\ lookup (getLambdaLogicalId E name) (Resources (fst (fst x)))
     = Some (VObj (functionResource (snd (fst x))))
  /\ legacyHashing (fst (fst x)) = false
  /\ versionDigest E (functionObject (snd (fst x'))) (snd (fst x')) (snd x')
       (fst (fst x'))
     = versionDigest E (functionObject (snd (fst x))) (snd (fst x)) (snd x)
         (fst (fst x)).
Proof.
  intros H. cbv zeta. unfold versionStart, withProperty.
  cbn [functionResource functionObject artifactFilePath functionImageSha
         shouldVersionFunction].
  rewrite H. cbn [fst snd functionResource functionObject].
  rewrite setProp_setProp.
  split; [now rewrite props_setProp, getP_setP_eq|].
  split; [apply lookup_setP_eq|].
  split; [|reflexivity].
  unfold legacyHashing. cbn [options touchResource setResources].
  rewrite H. apply andb_false_r.
Qed.
End EnforceHashUpdate.

(** Two descriptions, one digest. *)
Lemma enforce_hash_update_hides_the_description_witness :
  let st := Fixture.serviceEnforcing [("hello", Fixture.hello)] in
  let digest ctx :=
    versionDigest Fixture.env (functionObject ctx)
      (snd (fst (versionStart Fixture.env "hello" ctx st)))
      (snd (versionStart Fixture.env "hello" ctx st))
      (fst (fst (versionStart Fixture.env "hello" ctx st))) in
  digest (withProperty "Description" (VStr "says hello") Fixture.helloContext)
  = digest Fixture.helloContext.
Proof.
  intros st digest.
  exact (proj2 (proj2 (proj2
           (enforce_hash_update_hides_the_description Fixture.env "hello"
              Fixture.helloContext st (VStr "says hello") eq_refl)))).
Defined.
